(** * Hos_Link: referral lifecycle and ambulance dispatch

    A shallow embedding of the state-changing part of [Hos_Link.py]: the
    SQLAlchemy tables, the [Database] service, [ReferralService],
    [AmbulanceService], [LocationSimulator] and the submit/click handlers
    of the Streamlit pages that write to the store.

    Conventions of the embedding.

    - A table with a string primary key ([patients], [ambulances]) is a
      finite map from the key to the other columns, so an ORM object is
      a pair of its key and its row.  A table with an autoincrement key
      is a list in insertion order; the key is the position.
    - Nullable columns are [option]s.  [Float] columns are IEEE binary64
      numbers, as Python [float]s are.
    - Columns filled from the wall clock ([referral_time], [updated_at],
      [timestamp], [last_location_update], [start_time],
      [estimated_arrival]) and the never-written [route] column are left
      out.
    - What a Streamlit page shows ([st.success], [st.error], ...) is the
      returned [feedback].  A [st.selectbox] is the index of the chosen
      option.
    - A simulation thread is sequential code whose [time.sleep] lets the
      other control paths run: the operations they perform during the
      [k]-th sleep are given by a schedule. *)

From Stdlib Require Import ZArith String List Floats.
From stdpp Require Import base option list gmap strings fin_maps pretty.

Set Warnings "-inexact-float".
Local Open Scope string_scope.

(** ** Python values *)

(** Truth value of an optional string: [None] and [''] are falsy. *)
Definition truthy (o : option string) : bool :=
  match o with
  | Some s => negb (String.eqb s "")
  | None => false
  end.

(** Truth value of an optional float: [None] and zero are falsy. *)
Definition truthy_float (o : option float) : bool :=
  match o with
  | Some x => negb (PrimFloat.eqb x 0%float)
  | None => false
  end.

Definition is_Some_b {A : Type} (o : option A) : bool :=
  match o with Some _ => true | None => false end.

(** [int] to [float], exact on the step counters used here. *)
Definition float_of_nat (n : nat) : float :=
  PrimFloat.of_uint63 (Uint63.of_Z (Z.of_nat n)).

(** Values stored in the JSON column [vital_signs]. *)
Inductive json : Type :=
| JStr (s : string)
| JInt (z : Z)
| JFloat (x : float).

(** What the page reports back to the user; [st_exception] is an exception
    that no handler catches, which Streamlit prints. *)
Inductive feedback : Type :=
| st_nothing
| st_success (msg : string)
| st_error (msg : string)
| st_warning (msg : string)
| st_info (msg : string)
| st_exception (kind : string).

(** The chosen entry of a [st.selectbox]. *)
Definition selectbox {A : Type} (options : list A) (choice : nat) : option A :=
  options !! choice.

(** ** Tables *)

Module Patient.
Record t : Type := mk {
  name : string;
  age : Z;
  condition : string;
  referring_hospital : string;
  receiving_hospital : string;
  referring_physician : string;
  receiving_physician : option string;
  notes : option string;
  vital_signs : option (list (string * json));
  medical_history : option string;
  current_medications : option string;
  allergies : option string;
  status : string;
  assigned_ambulance : option string;
  created_by : option string;
  referring_hospital_lat : option float;
  referring_hospital_lng : option float;
  receiving_hospital_lat : option float;
  receiving_hospital_lng : option float
}.

Definition with_status (s : string) (p : t) : t :=
  mk (name p) (age p) (condition p) (referring_hospital p)
     (receiving_hospital p) (referring_physician p) (receiving_physician p)
     (notes p) (vital_signs p) (medical_history p) (current_medications p)
     (allergies p) s (assigned_ambulance p) (created_by p)
     (referring_hospital_lat p) (referring_hospital_lng p)
     (receiving_hospital_lat p) (receiving_hospital_lng p).

Definition with_assigned_ambulance (a : option string) (p : t) : t :=
  mk (name p) (age p) (condition p) (referring_hospital p)
     (receiving_hospital p) (referring_physician p) (receiving_physician p)
     (notes p) (vital_signs p) (medical_history p) (current_medications p)
     (allergies p) (status p) a (created_by p)
     (referring_hospital_lat p) (referring_hospital_lng p)
     (receiving_hospital_lat p) (receiving_hospital_lng p).

Definition with_receiving_physician (r : option string) (p : t) : t :=
  mk (name p) (age p) (condition p) (referring_hospital p)
     (receiving_hospital p) (referring_physician p) r
     (notes p) (vital_signs p) (medical_history p) (current_medications p)
     (allergies p) (status p) (assigned_ambulance p) (created_by p)
     (referring_hospital_lat p) (referring_hospital_lng p)
     (receiving_hospital_lat p) (receiving_hospital_lng p).

Definition with_vital_signs (v : option (list (string * json))) (p : t) : t :=
  mk (name p) (age p) (condition p) (referring_hospital p)
     (receiving_hospital p) (referring_physician p) (receiving_physician p)
     (notes p) v (medical_history p) (current_medications p)
     (allergies p) (status p) (assigned_ambulance p) (created_by p)
     (referring_hospital_lat p) (referring_hospital_lng p)
     (receiving_hospital_lat p) (receiving_hospital_lng p).
End Patient.

Module Ambulance.
Record t : Type := mk {
  current_location : option string;
  latitude : option float;
  longitude : option float;
  status : string;
  driver_name : option string;
  driver_contact : option string;
  current_patient : option string;
  destination : option string;
  current_step : Z;
  mission_complete : bool
}.

Definition with_status (s : string) (a : t) : t :=
  mk (current_location a) (latitude a) (longitude a) s
     (driver_name a) (driver_contact a) (current_patient a) (destination a)
     (current_step a) (mission_complete a).

Definition with_current_patient (p : option string) (a : t) : t :=
  mk (current_location a) (latitude a) (longitude a)
     (status a) (driver_name a) (driver_contact a) p (destination a)
     (current_step a) (mission_complete a).

Definition with_mission_complete (b : bool) (a : t) : t :=
  mk (current_location a) (latitude a) (longitude a)
     (status a) (driver_name a) (driver_contact a) (current_patient a)
     (destination a) (current_step a) b.

Definition with_position (lat lng : float) (loc : string) (a : t) : t :=
  mk (Some loc) (Some lat) (Some lng)
     (status a) (driver_name a) (driver_contact a) (current_patient a)
     (destination a) (current_step a) (mission_complete a).
End Ambulance.

Module Referral.
Record t : Type := mk {
  patient_id : string;
  status : string;
  ambulance_id : option string;
  created_by : option string
}.
End Referral.

Module HandoverForm.
Record t : Type := mk {
  patient_id : string;
  patient_name : string;
  age : Z;
  condition : string;
  referring_hospital : string;
  receiving_hospital : string;
  referring_physician : string;
  receiving_physician : string;
  vital_signs : list (string * json);
  medical_history : option string;
  current_medications : option string;
  allergies : option string;
  notes : string;
  ambulance_id : option string;
  created_by : string
}.
End HandoverForm.

Module Communication.
Record t : Type := mk {
  patient_id : option string;
  ambulance_id : option string;
  sender : string;
  receiver : string;
  message : string;
  message_type : string
}.
End Communication.

Module LocationUpdate.
Record t : Type := mk {
  ambulance_id : string;
  latitude : float;
  longitude : float;
  location_name : string;
  patient_id : option string
}.
End LocationUpdate.

(** ** The store *)

Record Database : Type := mkDatabase {
  patients : gmap string Patient.t;
  ambulances : gmap string Ambulance.t;
  referrals : list Referral.t;
  handover_forms : list HandoverForm.t;
  communications : list Communication.t;
  location_updates : list LocationUpdate.t
}.

Definition empty_database : Database :=
  mkDatabase ∅ ∅ [] [] [] [].

Definition set_patients (f : gmap string Patient.t → gmap string Patient.t)
    (db : Database) : Database :=
  mkDatabase (f (patients db)) (ambulances db) (referrals db)
    (handover_forms db) (communications db) (location_updates db).

Definition set_ambulances (f : gmap string Ambulance.t → gmap string Ambulance.t)
    (db : Database) : Database :=
  mkDatabase (patients db) (f (ambulances db)) (referrals db)
    (handover_forms db) (communications db) (location_updates db).

(** ** [class Database] *)

(** The keyword arguments a [Patient] row is built from: every key of the
    dictionary made by the referral form, with [patient_id] optional. *)
Module PatientData.
Record t : Type := mk {
  patient_id : option string;
  name : string;
  age : Z;
  condition : string;
  referring_hospital : string;
  receiving_hospital : string;
  referring_physician : string;
  receiving_physician : option string;
  notes : option string;
  medical_history : option string;
  current_medications : option string;
  allergies : option string;
  status : string;
  assigned_ambulance : option string;
  created_by : option string;
  referring_hospital_lat : option float;
  referring_hospital_lng : option float;
  receiving_hospital_lat : option float;
  receiving_hospital_lng : option float
}.

Definition with_created_by (c : option string) (d : t) : t :=
  mk (patient_id d) (name d) (age d) (condition d) (referring_hospital d)
     (receiving_hospital d) (referring_physician d) (receiving_physician d)
     (notes d) (medical_history d) (current_medications d) (allergies d)
     (status d) (assigned_ambulance d) c
     (referring_hospital_lat d) (referring_hospital_lng d)
     (receiving_hospital_lat d) (receiving_hospital_lng d).

Definition to_patient (d : t) : Patient.t :=
  Patient.mk (name d) (age d) (condition d) (referring_hospital d)
     (receiving_hospital d) (referring_physician d) (receiving_physician d)
     (notes d) None (medical_history d) (current_medications d) (allergies d)
     (status d) (assigned_ambulance d) (created_by d)
     (referring_hospital_lat d) (referring_hospital_lng d)
     (receiving_hospital_lat d) (receiving_hospital_lng d).
End PatientData.

(** [add_patient].  [token] is the value of
    [secrets.token_hex(4).upper()].  The commit of a row whose primary key
    is already taken raises: the result is then [None], which stands for
    the exception, and the store is as before. *)
Definition add_patient (db : Database) (patient_data : PatientData.t)
    (token : string) : option (string * Patient.t) * Database :=
  let id := match PatientData.patient_id patient_data with
            | Some id => id
            | None => "PAT" +:+ token
            end in
  let patient := PatientData.to_patient patient_data in
  match patients db !! id with
  | Some _ => (None, db)
  | None => (Some (id, patient), set_patients (insert id patient) db)
  end.

(** The queries without [order_by] list the rows in an order that the
    store fixes; which one is not part of the embedding ([map_to_list]
    picks one).  The statements below are over every index of a listing or
    over the row found, never over a particular position. *)
Definition get_all_ambulances (db : Database) : list (string * Ambulance.t) :=
  map_to_list (ambulances db).

Definition get_all_patients (db : Database) : list (string * Patient.t) :=
  map_to_list (patients db).

Definition get_available_ambulances (db : Database)
    : list (string * Ambulance.t) :=
  List.filter (λ a, String.eqb (Ambulance.status a.2) "Available")
    (get_all_ambulances db).

Definition update_ambulance_status (db : Database) (ambulance_id status : string)
    (patient_id : option string) : Database :=
  match ambulances db !! ambulance_id with
  | Some ambulance =>
      let ambulance := Ambulance.with_status status ambulance in
      let ambulance :=
        if truthy patient_id
        then Ambulance.with_current_patient patient_id ambulance
        else ambulance in
      set_ambulances (insert ambulance_id ambulance) db
  | None => db
  end.

Definition get_patient_by_id (db : Database) (patient_id : string)
    : option Patient.t :=
  patients db !! patient_id.

Definition add_referral (db : Database) (r : Referral.t) : Database :=
  mkDatabase (patients db) (ambulances db) (referrals db ++ [r])
    (handover_forms db) (communications db) (location_updates db).

Definition add_handover_form (db : Database) (h : HandoverForm.t) : Database :=
  mkDatabase (patients db) (ambulances db) (referrals db)
    (handover_forms db ++ [h]) (communications db) (location_updates db).

Definition add_communication (db : Database) (c : Communication.t) : Database :=
  mkDatabase (patients db) (ambulances db) (referrals db)
    (handover_forms db) (communications db ++ [c]) (location_updates db).

Definition add_location_update (db : Database) (u : LocationUpdate.t) : Database :=
  mkDatabase (patients db) (ambulances db) (referrals db)
    (handover_forms db) (communications db) (location_updates db ++ [u]).

(** ** Seed data

    The rows of [hospitals_data] and [ambulances_data], with the columns
    that the pages and [initialize_sample_data] read. *)

Definition hospitals_df : list (string * float * float) :=
  [
   ("Jaramogi Oginga Odinga Teaching & Referral Hospital (JOOTRH)", (-0.0754)%float, 34.7695%float);
   ("Kisumu County Referral Hospital", (-0.0754)%float, 34.7695%float);
   ("Lumumba Sub-County Hospital", (-0.1058)%float, 34.7568%float);
   ("Ahero Sub-County Hospital", (-0.1743)%float, 34.9169%float);
   ("Kombewa Sub-County / District Hospital", (-0.1813)%float, 34.6326%float);
   ("Muhoroni County Hospital", (-0.1551)%float, 35.1985%float);
   ("Nyakach Sub-County Hospital", (-0.267)%float, 35.0569%float);
   ("Chulaimbo Sub-County Hospital", (-0.1848)%float, 34.6163%float);
   ("Masogo Sub-County (Sub-District) Hospital", (-0.1855)%float, 35.0386%float);
   ("Nyando District Hospital", (-0.3573)%float, 35.0006%float);
   ("Ober Kamoth Sub-County Hospital", (-0.3789)%float, 35.0299%float);
   ("Rabuor Sub-County Hospital", (-0.2138)%float, 34.8817%float);
   ("Nyangoma Sub-County Hospital", (-0.1625)%float, 34.7794%float);
   ("Nyahera Sub-County Hospital", (-0.1565)%float, 34.7508%float);
   ("Katito Sub-County Hospital", (-0.4533)%float, 34.9561%float);
   ("Gita Sub-County Hospital", (-0.3735)%float, 34.9676%float);
   ("Masogo Health Centre", (-0.1855)%float, 35.0386%float);
   ("Victoria Hospital (public) Kisumu", (-0.0878)%float, 34.7686%float);
   ("Kodiaga Prison Health Centre", (-0.0607)%float, 34.7509%float);
   ("Kisumu District Hospital", (-0.0916)%float, 34.7647%float);
   ("Migosi Health Centre", (-0.1073)%float, 34.7794%float);
   ("Katito Health Centre", (-0.4533)%float, 34.9561%float);
   ("Mbaka Oromo Health Centre", (-0.2628)%float, 34.6061%float);
   ("Migere Health Centre", (-0.1225)%float, 34.7553%float);
   ("Milenye Health Centre", (-0.1872)%float, 34.7781%float);
   ("Minyange Dispensary", (-0.2192)%float, 34.8331%float);
   ("Nduru Kadero Health Centre", (-0.1356)%float, 34.7381%float);
   ("Newa Dispensary", (-0.2014)%float, 34.8289%float);
   ("Nyakoko Dispensary", (-0.2678)%float, 34.9981%float);
   ("Ojola Sub-County Hospital", (-0.1578)%float, 34.8419%float);
   ("Simba Opepo Health Centre", (-0.3381)%float, 34.9456%float);
   ("Songhor Health Centre", (-0.2131)%float, 35.1611%float);
   ("St Marks Lela Health Centre", (-0.0803)%float, 34.6569%float);
   ("Maseno University Health Centre", (-0.0025)%float, 34.6053%float);
   ("Geta Health Centre", (-0.4739)%float, 34.9519%float);
   ("Kadinda Health Centre", (-0.2167)%float, 34.8419%float);
   ("Kochieng Health Centre", (-0.3658)%float, 34.9606%float);
   ("Kodingo Health Centre", (-0.0956)%float, 34.7658%float);
   ("Kolenyo Health Centre", (-0.4536)%float, 34.9564%float);
   ("Kandu Health Centre", (-0.2314)%float, 34.8489%float)
  ].

Definition ambulances_data : list (string * string * float * float * string * string * string) :=
  [
   ("KBA 453D", "Jaramogi Oginga Odinga Teaching & Referral Hospital (JOOTRH)",
      (-0.0754)%float, 34.7695%float, "Available", "John Omondi", "+254712345678");
   ("KBC 217F", "Jaramogi Oginga Odinga Teaching & Referral Hospital (JOOTRH)",
      (-0.0754)%float, 34.7695%float, "Available", "Mary Achieng", "+254723456789");
   ("KBD 389G", "Jaramogi Oginga Odinga Teaching & Referral Hospital (JOOTRH)",
      (-0.0754)%float, 34.7695%float, "Available", "Paul Otieno", "+254734567890");
   ("KBE 142H", "Jaramogi Oginga Odinga Teaching & Referral Hospital (JOOTRH)",
      (-0.0754)%float, 34.7695%float, "Available", "Susan Akinyi", "+254745678901");
   ("KBF 561J", "Jaramogi Oginga Odinga Teaching & Referral Hospital (JOOTRH)",
      (-0.0754)%float, 34.7695%float, "Available", "David Owino", "+254756789012");
   ("KBG 774K", "Jaramogi Oginga Odinga Teaching & Referral Hospital (JOOTRH)",
      (-0.0754)%float, 34.7695%float, "Available", "James Okoth", "+254767890123");
   ("KBH 238L", "Jaramogi Oginga Odinga Teaching & Referral Hospital (JOOTRH)",
      (-0.0754)%float, 34.7695%float, "Available", "Grace Atieno", "+254778901234");
   ("KBJ 965M", "Jaramogi Oginga Odinga Teaching & Referral Hospital (JOOTRH)",
      (-0.0754)%float, 34.7695%float, "Available", "Peter Onyango", "+254789012345");
   ("KBK 482N", "Jaramogi Oginga Odinga Teaching & Referral Hospital (JOOTRH)",
      (-0.0754)%float, 34.7695%float, "Available", "Alice Adhiambo", "+254790123456");
   ("KBL 751P", "Jaramogi Oginga Odinga Teaching & Referral Hospital (JOOTRH)",
      (-0.0754)%float, 34.7695%float, "Available", "Robert Ochieng", "+254701234567");
   ("KBM 312Q", "Kisumu County Referral Hospital",
      (-0.0754)%float, 34.7695%float, "Available", "Sarah Nyongesa", "+254712345679");
   ("KBN 864R", "Kisumu County Referral Hospital",
      (-0.0754)%float, 34.7695%float, "Available", "Michael Odhiambo", "+254723456780");
   ("KBP 459S", "Kisumu County Referral Hospital",
      (-0.0754)%float, 34.7695%float, "Available", "Elizabeth Awuor", "+254734567891");
   ("KBQ 287T", "Kisumu County Referral Hospital",
      (-0.0754)%float, 34.7695%float, "Available", "Daniel Omondi", "+254745678902");
   ("KBR 913U", "Kisumu County Referral Hospital",
      (-0.0754)%float, 34.7695%float, "Available", "Lucy Anyango", "+254756789013");
   ("KBS 506V", "Kisumu County Referral Hospital",
      (-0.0754)%float, 34.7695%float, "Available", "Brian Ouma", "+254767890124");
   ("KBT 678W", "Kisumu County Referral Hospital",
      (-0.0754)%float, 34.7695%float, "Available", "Patricia Adongo", "+254778901235");
   ("KBU 134X", "Lumumba Sub-County Hospital",
      (-0.1058)%float, 34.7568%float, "Available", "Samuel Owuor", "+254789012346");
   ("KBV 925Y", "Lumumba Sub-County Hospital",
      (-0.1058)%float, 34.7568%float, "Available", "Rebecca Aoko", "+254790123457");
   ("KBX 743Z", "Ahero Sub-County Hospital",
      (-0.1743)%float, 34.9169%float, "Available", "Kevin Onyango", "+254701234568")
  ].


(** [initialize_sample_data]: the fleet is inserted only into a store that
    has no ambulance yet. *)
Definition sample_ambulance
    (row : string * string * float * float * string * string * string)
    : string * Ambulance.t :=
  let '(id, loc, lat, lng, st, driver, contact) := row in
  (id, Ambulance.mk (Some loc) (Some lat) (Some lng) st (Some driver)
         (Some contact) None None 0 false).

Definition initialize_sample_data (db : Database) : Database :=
  if Nat.eqb (size (ambulances db)) 0
  then
    foldl (λ db row,
             let amb := sample_ambulance row in
             set_ambulances (insert amb.1 amb.2) db)
          db ambulances_data
  else db.

(** ** Services *)

Record User : Type := mkUser {
  role : string;
  hospital : string;
  user_name : option string
}.

Module ReferralService.

Definition create_referral (db : Database) (patient_data : PatientData.t)
    (user : User) (token : string)
    : option (string * Patient.t) * Database :=
  let patient_data := PatientData.with_created_by (Some (role user)) patient_data in
  match add_patient db patient_data token with
  | (Some patient, db) =>
      let referral_data :=
        Referral.mk patient.1 "Ambulance Dispatched"
          (PatientData.assigned_ambulance patient_data) (Some (role user)) in
      (Some patient, add_referral db referral_data)
  | (None, _) => (None, db)
  end.

Definition assign_ambulance (db : Database) (patient_id ambulance_id : string)
    : bool * Database :=
  match get_patient_by_id db patient_id with
  | Some patient =>
      let patient := Patient.with_assigned_ambulance (Some ambulance_id) patient in
      let patient := Patient.with_status "Ambulance Assigned" patient in
      let db := set_patients (insert patient_id patient) db in
      let db := update_ambulance_status db ambulance_id "On Transfer"
                  (Some patient_id) in
      (true, db)
  | None => (false, db)
  end.

End ReferralService.

Module AmbulanceService.

(** [update_ambulance_location] commits twice: first the position in the
    row of the ambulance, then the row of [location_updates].  The function
    below is one call that nothing interrupts between the two commits. *)
Definition update_ambulance_location (db : Database) (ambulance_id : string)
    (latitude longitude : float) (location_name : string)
    (patient_id : option string) : bool * Database :=
  match ambulances db !! ambulance_id with
  | Some ambulance =>
      let ambulance :=
        Ambulance.with_position latitude longitude location_name ambulance in
      let db := set_ambulances (insert ambulance_id ambulance) db in
      let location_data :=
        LocationUpdate.mk ambulance_id latitude longitude location_name
          patient_id in
      (true, add_location_update db location_data)
  | None => (false, db)
  end.

End AmbulanceService.

(** ** Pages *)

Definition JOOTRH : string :=
  "Jaramogi Oginga Odinga Teaching & Referral Hospital (JOOTRH)".
Definition KCRH : string := "Kisumu County Referral Hospital".

Definition not_in (s : string) (l : list string) : bool :=
  negb (existsb (String.eqb s) l).

(** The label of an ambulance in a [st.selectbox]:
    [f"{amb.ambulance_id} - {amb.driver_name}"]; a missing driver name is
    printed as [None]. *)
Definition ambulance_label (amb : string * Ambulance.t) : string :=
  amb.1 +:+ " - " +:+ default "None" (Ambulance.driver_name amb.2).

(** [label.split(" - ")[0]]: the part of the label before its first
    [" - "], the whole label when it has none. *)
Fixpoint split_label (label : string) : string :=
  match label with
  | EmptyString => EmptyString
  | String c rest =>
      if String.prefix " - " (String c rest) then EmptyString
      else String c (split_label rest)
  end.

Module ReferralUI.

Definition get_receiving_hospitals (user_hospital : string) : list string :=
  if String.eqb user_hospital KCRH then [JOOTRH; KCRH] else [JOOTRH; KCRH].

Definition get_referring_hospitals (user_hospital : string) : list string :=
  if existsb (String.eqb user_hospital) ["All Facilities"; JOOTRH; KCRH]
  then List.map (λ row, row.1.1) hospitals_df
  else [user_hospital].

(** First row of [hospitals_df] with the given facility name. *)
Definition hospital_row (facility_name : string) : option (float * float) :=
  match List.find (λ row, String.eqb row.1.1 facility_name) hospitals_df with
  | Some row => Some (row.1.2, row.2)
  | None => None
  end.

(** The widgets of the referral form when it is submitted. *)
Record Form : Type := mkForm {
  name : string;
  age : Z;
  condition : string;
  referring_physician : string;
  referring_hospital : nat;
  receiving_hospital : nat;
  receiving_physician : string;
  notes : string;
  medical_history : string;
  current_medications : string;
  allergies : string;
  ambulance_choice : nat
}.

(** ["Auto-assign"] followed by the labels of the available ambulances. *)
Definition ambulance_options (db : Database) : list string :=
  "Auto-assign" :: List.map ambulance_label (get_available_ambulances db).

(** "Create Referral".  A facility that is not a row of [hospitals_df]
    makes [.iloc[0]] raise; the text of a caught exception is not part of
    the message of [st_error]. *)
Definition create_referral_form (db : Database) (user : User) (form : Form)
    (token : string) : feedback * Database :=
  match selectbox (get_referring_hospitals (hospital user)) (referring_hospital form),
        selectbox (get_receiving_hospitals (hospital user)) (receiving_hospital form),
        selectbox (ambulance_options db) (ambulance_choice form) with
  | Some referring_hospital, Some receiving_hospital, Some ambulance_choice =>
      if negb (forallb id
                 [negb (String.eqb (name form) ""); negb (Z.eqb (age form) 0);
                  negb (String.eqb (condition form) "");
                  negb (String.eqb (referring_physician form) "");
                  negb (String.eqb referring_hospital "");
                  negb (String.eqb receiving_hospital "")])
      then (st_error "Please fill in all required fields (*)", db)
      else if String.eqb referring_hospital receiving_hospital
      then (st_error "Referring and receiving hospitals cannot be the same.", db)
      else
        match hospital_row referring_hospital, hospital_row receiving_hospital with
        | Some referring_hospital_data, Some receiving_hospital_data =>
            let patient_data :=
              PatientData.mk None (name form) (age form) (condition form)
                referring_hospital receiving_hospital
                (referring_physician form) (Some (receiving_physician form))
                (Some (notes form)) (Some (medical_history form))
                (Some (current_medications form)) (Some (allergies form))
                "Referred"
                (if String.eqb ambulance_choice "Auto-assign" then None
                 else Some (split_label ambulance_choice))
                None
                (Some referring_hospital_data.1) (Some referring_hospital_data.2)
                (Some receiving_hospital_data.1) (Some receiving_hospital_data.2) in
            match ReferralService.create_referral db patient_data user token with
            | (Some patient, db) =>
                (st_success ("Referral created successfully! Patient ID: " +:+ patient.1), db)
            | (None, db) => (st_error "Error creating referral", db)
            end
        | _, _ => (st_exception "IndexError", db)
        end
  | _, _, _ => (st_nothing, db)
  end.

Definition closed_statuses : list string :=
  ["Arrived at Destination"; "Completed"].

Definition active_patients (db : Database) (user_hospital : string)
    : list (string * Patient.t) :=
  let patients := get_all_patients db in
  if String.eqb user_hospital "All Facilities"
  then List.filter (λ p, not_in (Patient.status p.2) closed_statuses) patients
  else if existsb (String.eqb user_hospital) [JOOTRH; KCRH]
  then List.filter (λ p, String.eqb (Patient.receiving_hospital p.2) user_hospital
                         && not_in (Patient.status p.2) closed_statuses) patients
  else List.filter (λ p, String.eqb (Patient.referring_hospital p.2) user_hospital
                         && not_in (Patient.status p.2) closed_statuses) patients.

(** "Confirm Assignment" in [display_patient_actions], for the listed
    patient [patient_choice] and the offered label [ambulance_choice]; the
    ambulance assigned is the one named by the part of the label before
    [" - "]. *)
Definition confirm_assignment (db : Database) (user : User)
    (patient_choice ambulance_choice : nat) : feedback * Database :=
  match active_patients db (hospital user) !! patient_choice with
  | Some patient =>
      let available_ambulances := get_available_ambulances db in
      match available_ambulances with
      | [] => (st_warning "No available ambulances", db)
      | _ =>
          let ambulance_options :=
            List.map ambulance_label available_ambulances in
          match selectbox ambulance_options ambulance_choice with
          | Some selected_ambulance =>
              let ambulance_id := split_label selected_ambulance in
              match ReferralService.assign_ambulance db patient.1 ambulance_id with
              | (true, db) => (st_success "Ambulance assigned successfully!", db)
              | (false, db) => (st_nothing, db)
              end
          | None => (st_nothing, db)
          end
      end
  | None => (st_nothing, db)
  end.

Definition status_options : list string :=
  ["Referred"; "Ambulance Dispatched"; "Patient Picked Up";
   "Transporting to Destination"; "Arrived at Destination"].

(** "Update" in [display_patient_actions]. *)
Definition update_status (db : Database) (user : User)
    (patient_choice status_choice : nat) : feedback * Database :=
  match active_patients db (hospital user) !! patient_choice,
        selectbox status_options status_choice with
  | Some patient, Some new_status =>
      (st_success "Status updated!",
       set_patients (insert patient.1 (Patient.with_status new_status patient.2)) db)
  | _, _ => (st_nothing, db)
  end.

End ReferralUI.

Module HandoverUI.

Record Form : Type := mkForm {
  blood_pressure : string;
  heart_rate : Z;
  temperature : float;
  oxygen_saturation : Z;
  receiving_physician : string;
  handover_notes : string
}.

Definition eligible_patients (db : Database) (user_hospital : string)
    : list (string * Patient.t) :=
  let patients := get_all_patients db in
  if String.eqb user_hospital "All Facilities"
  then List.filter (λ p, String.eqb (Patient.status p.2) "Arrived at Destination")
         patients
  else List.filter (λ p, String.eqb (Patient.receiving_hospital p.2) user_hospital
                         && String.eqb (Patient.status p.2) "Arrived at Destination")
         patients.

Definition handover_data (selected_patient : string * Patient.t) (user : User)
    (form : Form) : HandoverForm.t :=
  let p := selected_patient.2 in
  HandoverForm.mk selected_patient.1 (Patient.name p) (Patient.age p)
    (Patient.condition p) (Patient.referring_hospital p)
    (Patient.receiving_hospital p) (Patient.referring_physician p)
    (receiving_physician form)
    [("blood_pressure", JStr (blood_pressure form));
     ("heart_rate", JInt (heart_rate form));
     ("temperature", JFloat (temperature form));
     ("oxygen_saturation", JInt (oxygen_saturation form))]
    (Patient.medical_history p) (Patient.current_medications p)
    (Patient.allergies p) (handover_notes form)
    (Patient.assigned_ambulance p) (role user).

(** "Complete Handover" for the listed patient [patient_choice]. *)
Definition create_handover_form (db : Database) (user : User)
    (patient_choice : nat) (form : Form) : feedback * Database :=
  match eligible_patients db (hospital user) with
  | [] =>
      (st_info "No patients eligible for handover (must have status 'Arrived at Destination')",
       db)
  | eligible =>
      match selectbox eligible patient_choice with
      | Some selected_patient =>
          if String.eqb (receiving_physician form) ""
          then (st_error "Please enter the receiving physician", db)
          else
            let db := add_handover_form db (handover_data selected_patient user form) in
            let p := Patient.with_status "Completed" selected_patient.2 in
            let p := Patient.with_receiving_physician
                       (Some (receiving_physician form)) p in
            (st_success "Handover completed successfully!",
             set_patients (insert selected_patient.1 p) db)
      | None => (st_nothing, db)
      end
  end.

End HandoverUI.

Module DriverUI.

(** The buttons and forms of the driver dashboard. *)
Inductive click : Type :=
| LocationUpdateForm (new_lat new_lng : float) (location_name : string)
| SendMessage (message : string) (recipient : nat)
| QuickUpdate (label : nat)
| UpdateVitals (bp : string) (heart_rate spo2 respiratory_rate : Z)
               (notes now : string)
| UpdateLocation (location_name : string) (latitude longitude : float)
| Emergency
| MarkPatientDelivered
| AcceptMission (mission : nat)
| MarkAvailable
| MarkOnBreak
| Maintenance.

(** The arguments of the simulation thread started by "Accept Mission". *)
Record Thread : Type := mkThread {
  thread_ambulance : string;
  thread_patient : string;
  thread_start : option float * option float;
  thread_end : option float * option float
}.

Definition add_communications (db : Database) (cs : list Communication.t)
    : Database :=
  foldl add_communication db cs.

Definition send_message (db : Database) (ambulance patient : string)
    (p : Patient.t) (message : string) (recipient : nat) : Database :=
  match selectbox [Patient.referring_hospital p; Patient.receiving_hospital p;
                   "Both Hospitals"] recipient with
  | Some recipient =>
      if String.eqb message "" then db
      else
        let hospitals :=
          if String.eqb recipient "Both Hospitals"
          then [Patient.referring_hospital p; Patient.receiving_hospital p]
          else [recipient] in
        add_communications db
          (List.map (λ hospital,
                       Communication.mk (Some patient) (Some ambulance) "Driver"
                         hospital message "driver_hospital") hospitals)
  | None => db
  end.

Definition quick_messages : list (string * string) :=
  [("ETA 10 mins", "Estimated arrival in 10 minutes");
   ("Patient stable", "Patient condition is stable during transport");
   ("Traffic delay", "Experiencing traffic delays, will update ETA");
   ("Need assistance", "Require medical assistance upon arrival");
   ("Vitals normal", "Patient vital signs are within normal range")].

Definition quick_update (db : Database) (ambulance patient : string)
    (p : Patient.t) (label : nat) : Database :=
  match quick_messages !! label with
  | Some (_, message) =>
      add_communications db
        (List.map (λ hospital,
                     Communication.mk (Some patient) (Some ambulance) "Driver"
                       hospital ("Quick update: " +:+ message) "driver_hospital")
           [Patient.referring_hospital p; Patient.receiving_hospital p])
  | None => db
  end.

Definition show_vitals_form (db : Database) (patient : string) (p : Patient.t)
    (bp : string) (heart_rate spo2 respiratory_rate : Z) (notes now : string)
    : Database :=
  let vitals :=
    [("blood_pressure", JStr bp); ("heart_rate", JInt heart_rate);
     ("oxygen_saturation", JInt spo2);
     ("respiratory_rate", JInt respiratory_rate);
     ("notes", JStr notes); ("timestamp", JStr now)] in
  let db := set_patients
              (insert patient (Patient.with_vital_signs (Some vitals) p)) db in
  add_communications db
    (List.map (λ hospital,
                 Communication.mk (Some patient) None "Driver" hospital
                   ("Vitals updated: BP " +:+ bp +:+ ", HR " +:+ pretty heart_rate
                      +:+ "bpm, SpO2 " +:+ pretty spo2 +:+ "%")
                   "vitals_update")
       [Patient.referring_hospital p; Patient.receiving_hospital p]).

Definition send_emergency_alert (db : Database) (ambulance patient : string)
    (p : Patient.t) : Database :=
  let emergency_message :=
    "EMERGENCY: Ambulance " +:+ ambulance +:+ " requires immediate assistance!" in
  add_communications db
    (List.map (λ recipient,
                 Communication.mk (Some patient) (Some ambulance) "Driver"
                   recipient emergency_message "emergency")
       [Patient.referring_hospital p; Patient.receiving_hospital p;
        "Control Center"]).

Definition complete_mission (db : Database)
    (ambulance : string * Ambulance.t) (patient : string * Patient.t)
    : Database :=
  let a := Ambulance.with_status "Available" ambulance.2 in
  let a := Ambulance.with_current_patient None a in
  let a := Ambulance.with_mission_complete true a in
  let p := Patient.with_status "Arrived at Destination" patient.2 in
  let db := set_ambulances (insert ambulance.1 a) db in
  let db := set_patients (insert patient.1 p) db in
  let arrival_message :=
    "Patient " +:+ Patient.name p +:+ " has arrived via ambulance "
      +:+ ambulance.1 in
  add_communications db
    (List.map (λ hospital,
                 Communication.mk (Some patient.1) (Some ambulance.1) "Driver"
                   hospital arrival_message "arrival_notification")
       [Patient.referring_hospital p; Patient.receiving_hospital p]).

Definition quick_actions (db : Database) (ambulance : string) (c : click)
    : Database :=
  match ambulances db !! ambulance with
  | Some a =>
      match c with
      | MarkAvailable =>
          let a := Ambulance.with_status "Available" a in
          let a := Ambulance.with_current_patient None a in
          set_ambulances (insert ambulance a) db
      | MarkOnBreak =>
          set_ambulances (insert ambulance (Ambulance.with_status "On Break" a)) db
      | Maintenance =>
          set_ambulances (insert ambulance (Ambulance.with_status "Maintenance" a)) db
      | _ => db
      end
  | None => db
  end.

(** The part of the dashboard shown while a mission is under way.  The
    forms of [UpdateVitals] and [UpdateLocation] are drawn under a
    [st.button]; the embedding lets their submit reach the store, so it
    allows at least the writes that Streamlit lets through. *)
Definition current_mission (db : Database) (ambulance : string * Ambulance.t)
    (patient : string * Patient.t) (c : click) : Database :=
  match c with
  | LocationUpdateForm new_lat new_lng location_name =>
      (AmbulanceService.update_ambulance_location db ambulance.1 new_lat new_lng
         location_name (Some patient.1)).2
  | SendMessage message recipient =>
      send_message db ambulance.1 patient.1 patient.2 message recipient
  | QuickUpdate label => quick_update db ambulance.1 patient.1 patient.2 label
  | UpdateVitals bp heart_rate spo2 respiratory_rate notes now =>
      show_vitals_form db patient.1 patient.2 bp heart_rate spo2
        respiratory_rate notes now
  | UpdateLocation location_name latitude longitude =>
      (AmbulanceService.update_ambulance_location db ambulance.1 latitude
         longitude location_name (Ambulance.current_patient ambulance.2)).2
  | Emergency => send_emergency_alert db ambulance.1 patient.1 patient.2
  | MarkPatientDelivered => complete_mission db ambulance patient
  | _ => db
  end.

Definition available_patients (db : Database) : list (string * Patient.t) :=
  List.filter (λ p, String.eqb (Patient.status p.2) "Referred"
                    && negb (is_Some_b (Patient.assigned_ambulance p.2)))
    (get_all_patients db).

(** The part of the dashboard shown to an available ambulance. *)
Definition available_missions (db : Database) (ambulance : string * Ambulance.t)
    (c : click) : Database * option Thread :=
  match c with
  | AcceptMission mission =>
      match available_patients db !! mission with
      | Some patient =>
          let a := Ambulance.with_current_patient (Some patient.1) ambulance.2 in
          let a := Ambulance.with_status "On Transfer" a in
          let p := Patient.with_assigned_ambulance (Some ambulance.1) patient.2 in
          let p := Patient.with_status "Ambulance Dispatched" p in
          let db := set_ambulances (insert ambulance.1 a) db in
          let db := set_patients (insert patient.1 p) db in
          (db,
           if truthy_float (Patient.referring_hospital_lat p)
              && truthy_float (Patient.receiving_hospital_lat p)
           then Some (mkThread ambulance.1 patient.1
                        (Ambulance.latitude a, Ambulance.longitude a)
                        (Patient.receiving_hospital_lat p,
                         Patient.receiving_hospital_lng p))
           else None)
      | None => (db, None)
      end
  | _ => (db, None)
  end.

Definition driver_ambulance (db : Database) (driver_name : string)
    : option (string * Ambulance.t) :=
  List.find (λ a, match Ambulance.driver_name a.2 with
                  | Some n => String.eqb n driver_name
                  | None => false
                  end)
    (get_all_ambulances db).

Definition display_driver_dashboard (db : Database) (user : User) (c : click)
    : Database * option Thread :=
  let driver_name := default (role user) (user_name user) in
  match driver_ambulance db driver_name with
  | None => (db, None)
  | Some ambulance =>
      let shown :=
        if truthy (Ambulance.current_patient ambulance.2)
           && String.eqb (Ambulance.status ambulance.2) "On Transfer"
        then
          match Ambulance.current_patient ambulance.2 with
          | Some patient_id =>
              match get_patient_by_id db patient_id with
              | Some p => (current_mission db ambulance (patient_id, p) c, None)
              | None => (db, None)
              end
          | None => (db, None)
          end
        else if String.eqb (Ambulance.status ambulance.2) "Available"
        then available_missions db ambulance c
        else (db, None) in
      (quick_actions shown.1 ambulance.1 c, shown.2)
  end.

End DriverUI.

(** ** The simulator and the other control paths *)

(** The store together with the [running] attribute of the
    [LocationSimulator] object of the driver page. *)
Record World : Type := mkWorld {
  db : Database;
  running : bool
}.

Definition stop_simulation (w : World) : World := mkWorld (db w) false.

(** One position sample: the arguments of the call of
    [update_ambulance_location] made at a step of the loop. *)
Record Sample : Type := mkSample {
  sample_step : nat;
  sample_lat : float;
  sample_lng : float;
  sample_label : string
}.

Definition sample_at (start_lat start_lng lat_step lng_step : float)
    (steps step : nat) : Sample :=
  mkSample step
    (start_lat + lat_step * float_of_nat step)%float
    (start_lng + lng_step * float_of_nat step)%float
    ("En route - Step " +:+ pretty step +:+ "/" +:+ pretty steps).

(** The body of the loop after the check of [running]. *)
Definition write_sample (ambulance_id patient_id : string) (s : Sample)
    (w : World) : World :=
  mkWorld
    (AmbulanceService.update_ambulance_location (db w) ambulance_id
       (sample_lat s) (sample_lng s) (sample_label s) (Some patient_id)).2
    (running w).

(** The writes under "Mark as arrived". *)
Definition mark_arrived (ambulance_id : string) (w : World) : World :=
  match ambulances (db w) !! ambulance_id with
  | Some ambulance =>
      let ambulance := Ambulance.with_status "Available" ambulance in
      let ambulance := Ambulance.with_current_patient None ambulance in
      mkWorld (set_ambulances (insert ambulance_id ambulance) (db w)) (running w)
  | None => w
  end.

(** What another control path can do while a simulation thread sleeps: a
    submit or click on a page, a call of [stop_simulation], or a step of
    another thread that runs [start_simulation] on the same simulator
    object. *)
Inductive action : Type :=
| ReferralSubmit (user : User) (form : ReferralUI.Form) (token : string)
| ConfirmAssignment (user : User) (patient_choice ambulance_choice : nat)
| UpdateStatus (user : User) (patient_choice status_choice : nat)
| HandoverSubmit (user : User) (patient_choice : nat) (form : HandoverUI.Form)
| Driver (user : User) (c : DriverUI.click)
| StopSimulation
| ThreadStarts
| ThreadWrites (ambulance_id patient_id : string) (s : Sample)
| ThreadArrives (ambulance_id : string).

Definition perform (a : action) (w : World) : World :=
  match a with
  | ReferralSubmit user form token =>
      mkWorld (ReferralUI.create_referral_form (db w) user form token).2 (running w)
  | ConfirmAssignment user patient_choice ambulance_choice =>
      mkWorld (ReferralUI.confirm_assignment (db w) user patient_choice
                 ambulance_choice).2 (running w)
  | UpdateStatus user patient_choice status_choice =>
      mkWorld (ReferralUI.update_status (db w) user patient_choice
                 status_choice).2 (running w)
  | HandoverSubmit user patient_choice form =>
      mkWorld (HandoverUI.create_handover_form (db w) user patient_choice form).2
        (running w)
  | Driver user c =>
      mkWorld (DriverUI.display_driver_dashboard (db w) user c).1 (running w)
  | StopSimulation => stop_simulation w
  | ThreadStarts => mkWorld (db w) true
  | ThreadWrites ambulance_id patient_id s =>
      if running w then write_sample ambulance_id patient_id s w else w
  | ThreadArrives ambulance_id =>
      if running w then mark_arrived ambulance_id w else w
  end.

Definition run (actions : list action) (w : World) : World :=
  foldl (λ w a, perform a w) w actions.

(** The store after [initialize_sample_data], before any simulation. *)
Definition initial_world : World :=
  mkWorld (initialize_sample_data empty_database) false.

Section Simulation.

(** [schedule k]: what the other control paths do during the sleep that
    follows step [k]. *)
Variable schedule : nat → list action.
Variables ambulance_id patient_id : string.
Variables start_lat start_lng end_lat end_lng : float.

Definition steps : nat := 20.
Definition lat_step : float := ((end_lat - start_lat) / float_of_nat steps)%float.
Definition lng_step : float := ((end_lng - start_lng) / float_of_nat steps)%float.

(** The [for] loop over the steps still to do; the result is the world
    when the loop is left and the samples it wrote. *)
Fixpoint simulation_loop (todo : list nat) (w : World) : World * list Sample :=
  match todo with
  | [] => (w, [])
  | step :: todo =>
      if negb (running w) then (w, [])
      else
        let s := sample_at start_lat start_lng lat_step lng_step steps step in
        let w := write_sample ambulance_id patient_id s w in
        let w := run (schedule step) w in
        let r := simulation_loop todo w in
        (r.1, s :: r.2)
  end.

Definition start_simulation (w : World) : World * list Sample :=
  let w := mkWorld (db w) true in
  let r := simulation_loop (seq 0 (steps + 1)) w in
  if running r.1 then (mark_arrived ambulance_id r.1, r.2) else r.

End Simulation.


(** ** Accounts and the routing of the pages

    [Authentication]: the configured accounts and [authenticate_user].
    The digest [hashlib.sha256(...).hexdigest()] is a parameter: nothing
    below depends on which function it is. *)

Module Authentication.

(** An entry of [credentials['usernames']]. *)
Record Account : Type := mkAccount {
  password : string;
  email : string;
  role : string;
  hospital : string;
  name : string
}.

Section Hash.

Variable _hash_password : string → string.

(** The dictionary [credentials['usernames']], in the order it is
    written. *)
Definition credentials : list (string * Account) :=
  [("admin",
    mkAccount (_hash_password "admin123") "admin@kisumu.gov" "Admin"
      "All Facilities" "System Administrator");
   ("hospital_staff",
    mkAccount (_hash_password "staff123") "staff@joortrh.go.ke"
      "Hospital Staff"
      "Jaramogi Oginga Odinga Teaching & Referral Hospital (JOOTRH)"
      "Hospital Staff Member");
   ("driver",
    mkAccount (_hash_password "driver123") "driver@kisumu.gov"
      "Ambulance Driver" "Ambulance Service" "Ambulance Driver");
   ("kisumu_staff",
    mkAccount (_hash_password "kisumu123") "staff@kisumuhospital.go.ke"
      "Hospital Staff" "Kisumu County Referral Hospital"
      "Kisumu County Hospital Staff")].

Definition authenticate_user (username password : string) : option Account :=
  match List.find (λ entry, String.eqb entry.1 username) credentials with
  | Some entry =>
      let stored_password := Authentication.password entry.2 in
      if String.eqb (_hash_password password) stored_password
      then Some entry.2
      else None
  | None => None
  end.

End Hash.

End Authentication.

(** What the pages read of [st.session_state.user]: the role, the hospital
    and the name of the account. *)
Definition session_user (account : Authentication.Account) : User :=
  mkUser (Authentication.role account) (Authentication.hospital account)
    (Some (Authentication.name account)).

(** [HospitalReferralApp]: one run of the script for a browser session.  A
    run is a click on "Login" or "Logout" in the sidebar, or a submit or
    click on a page that [render_main_app] shows to the user of the
    session. *)
Module HospitalReferralApp.

(** The submits and clicks that write to the store. *)
Inductive request : Type :=
| Referral (form : ReferralUI.Form) (token : string)
| Assignment (patient_choice ambulance_choice : nat)
| Status (patient_choice status_choice : nat)
| Handover (patient_choice : nat) (form : HandoverUI.Form)
| Dashboard (c : DriverUI.click).

(** The store, the user of every session that is logged in, and the
    simulation threads started so far. *)
Record App : Type := mkApp {
  store : World;
  sessions : gmap nat User;
  threads : list DriverUI.Thread
}.

(** The tabs of the administrator and of the hospital staff that write to
    the store: [referral_ui.display] and [handover_ui.display]. *)
Definition office_tabs (user : User) (r : request) (w : World)
    : World * option DriverUI.Thread :=
  match r with
  | Referral form token =>
      (mkWorld (ReferralUI.create_referral_form (db w) user form token).2
         (running w), None)
  | Assignment patient_choice ambulance_choice =>
      (mkWorld (ReferralUI.confirm_assignment (db w) user patient_choice
                  ambulance_choice).2 (running w), None)
  | Status patient_choice status_choice =>
      (mkWorld (ReferralUI.update_status (db w) user patient_choice
                  status_choice).2 (running w), None)
  | Handover patient_choice form =>
      (mkWorld (HandoverUI.create_handover_form (db w) user patient_choice
                  form).2 (running w), None)
  | Dashboard _ => (w, None)
  end.

Definition render_admin_interface := office_tabs.

Definition render_staff_interface := office_tabs.

Definition render_driver_interface (user : User) (r : request) (w : World)
    : World * option DriverUI.Thread :=
  match r with
  | Dashboard c =>
      let shown := DriverUI.display_driver_dashboard (db w) user c in
      (mkWorld shown.1 (running w), shown.2)
  | _ => (w, None)
  end.

Definition render_main_app (user : User) (r : request) (w : World)
    : World * option DriverUI.Thread :=
  if String.eqb (role user) "Admin" then render_admin_interface user r w
  else if String.eqb (role user) "Hospital Staff"
  then render_staff_interface user r w
  else if String.eqb (role user) "Ambulance Driver"
  then render_driver_interface user r w
  else (w, None).

Inductive event : Type :=
| Login (session : nat) (username password : string)
| Logout (session : nat)
| Request (session : nat) (r : request).

Section Hash.

Variable _hash_password : string → string.

(** One run of the script: [initialize_sample_data] in [__init__], then
    [setup_auth_ui], then the page of the user or the login page. *)
Definition run (app : App) (e : event) : App :=
  let w := mkWorld (initialize_sample_data (db (store app)))
             (running (store app)) in
  match e with
  | Login session username password =>
      match Authentication.authenticate_user _hash_password username password with
      | Some account =>
          mkApp w (<[session := session_user account]> (sessions app))
            (threads app)
      | None => mkApp w (sessions app) (threads app)
      end
  | Logout session => mkApp w (delete session (sessions app)) (threads app)
  | Request session r =>
      match sessions app !! session with
      | Some user =>
          let shown := render_main_app user r w in
          mkApp shown.1 (sessions app)
            (threads app ++ match shown.2 with
                            | Some thread => [thread]
                            | None => []
                            end)%list
      | None => mkApp w (sessions app) (threads app)
      end
  end.

End Hash.

(** The application when the server starts: an empty store, nobody logged
    in, no thread. *)
Definition start : App := mkApp (mkWorld empty_database false) ∅ [].

End HospitalReferralApp.
(** * Statements *)

(** ** A worked scenario

    Patient P1 is referred from JOOTRH to Kisumu County Referral Hospital by
    the hospital-staff account, on the seeded fleet; ambulance A1 is the
    first of the fleet. *)

Definition hospital_staff : User :=
  mkUser "Hospital Staff" JOOTRH (Some "Hospital Staff Member").

Definition P1_form : ReferralUI.Form :=
  ReferralUI.mkForm "Achieng Otieno" 34 "Fractured femur" "Dr. Ouma"
    0 1 "" "" "" "" "" 0.

Definition P1 : string := "PAT0A1B2C3D".
Definition A1 : string := "KBA 453D".

Definition store_with_P1 : Database :=
  (ReferralUI.create_referral_form (db initial_world) hospital_staff P1_form
     "0A1B2C3D").2.

Definition store_P1_assigned : Database :=
  (ReferralService.assign_ambulance store_with_P1 P1 A1).2.

(** A second patient, referred between the same hospitals. *)
Definition P2_form : ReferralUI.Form :=
  ReferralUI.mkForm "Brian Odhiambo" 51 "Chest pain" "Dr. Ouma"
    0 1 "" "" "" "" "" 0.

Definition P2 : string := "PAT9F8E7D6C".

Definition store_with_P1_P2 : Database :=
  (ReferralUI.create_referral_form store_with_P1 hospital_staff P2_form
     "9F8E7D6C").2.

(** ** Identifiers and labels

    The pages read the identifier of an ambulance back from its label, as
    the part before the first [" - "].  An identifier is plain when this
    gives the identifier back, whatever the name of the driver: no [" - "]
    begins inside the identifier followed by [" - "]. *)
Definition plain_id (ambulance_id : string) : Prop :=
  split_label (ambulance_id +:+ " - ") = ambulance_id.

Definition plain_ids (db : Database) : Prop :=
  ∀ k, is_Some (ambulances db !! k) → plain_id k.

(** Two ambulances of which one has an identifier that is not plain:
    ['KBA'], and ['KBA - 2'], whose label is read back as ['KBA'].  P1 and
    P2 are referred and P1 is assigned to ['KBA']. *)
Definition twin_fleet : Database :=
  set_ambulances
    (insert "KBA - 2"
       (Ambulance.mk (Some JOOTRH) (Some (-0.0754)%float) (Some 34.7695%float)
          "Available" (Some "Mary Achieng") (Some "+254723456789") None None 0
          false))
    (set_ambulances
       (insert "KBA"
          (Ambulance.mk (Some JOOTRH) (Some (-0.0754)%float)
             (Some 34.7695%float) "Available" (Some "John Omondi")
             (Some "+254712345678") None None 0 false))
       empty_database).

Definition twin_fleet_P1_assigned : Database :=
  (ReferralService.assign_ambulance
     (ReferralUI.create_referral_form
        (ReferralUI.create_referral_form twin_fleet hospital_staff P1_form
           "0A1B2C3D").2
        hospital_staff P2_form "9F8E7D6C").2
     P1 "KBA").2.

(** ** Outcomes of an assignment *)

(** Both records carry the assignment. *)
Definition assign_fully_succeeded (db' : Database) (patient_id ambulance_id : string)
    : Prop :=
  ∃ p a,
    patients db' !! patient_id = Some p
    ∧ Patient.status p = "Ambulance Assigned"
    ∧ Patient.assigned_ambulance p = Some ambulance_id
    ∧ ambulances db' !! ambulance_id = Some a
    ∧ Ambulance.status a = "On Transfer"
    ∧ Ambulance.current_patient a = Some patient_id.

(** Neither record was changed. *)
Definition assign_fully_failed (db db' : Database) (patient_id ambulance_id : string)
    : Prop :=
  patients db' !! patient_id = patients db !! patient_id
  ∧ ambulances db' !! ambulance_id = ambulances db !! ambulance_id.

(** An assignment that is all or nothing. *)
Definition assign_all_or_nothing (db : Database) (patient_id ambulance_id : string)
    : Prop :=
  let db' := (ReferralService.assign_ambulance db patient_id ambulance_id).2 in
  assign_fully_succeeded db' patient_id ambulance_id
  ∨ assign_fully_failed db db' patient_id ambulance_id.

(** A second dispatch of an ambulance that was not released in between is
    refused and changes nothing. *)
Definition second_dispatch_refused (db : Database)
    (first second ambulance_id : string) : Prop :=
  let db1 := (ReferralService.assign_ambulance db first ambulance_id).2 in
  let r := ReferralService.assign_ambulance db1 second ambulance_id in
  r.1 = false ∧ r.2 = db1.

(** The row of a patient after an assignment, and of an ambulance after a
    dispatch or a release. *)
Definition assigned_to (ambulance_id : string) (p : Patient.t) : Patient.t :=
  Patient.with_status "Ambulance Assigned"
    (Patient.with_assigned_ambulance (Some ambulance_id) p).

Definition dispatched_for (patient_id : string) (a : Ambulance.t) : Ambulance.t :=
  Ambulance.with_current_patient (Some patient_id)
    (Ambulance.with_status "On Transfer" a).

Definition released (a : Ambulance.t) : Ambulance.t :=
  Ambulance.with_current_patient None (Ambulance.with_status "Available" a).

Definition admin : User :=
  mkUser "Admin" "All Facilities" (Some "System Administrator").

(** P1 after the administrator has set its status to 'Arrived at
    Destination' on the referral page. *)
Definition store_P1_arrived : Database :=
  (ReferralUI.update_status store_P1_assigned admin 0 4).2.

Definition P1_handover : HandoverUI.Form :=
  HandoverUI.mkForm "120/80" 72 36.6%float 98 "Dr. Atieno" "Stable on arrival".

(** P1 has arrived and P2, referred after it, has not. *)
Definition store_P1_arrived_P2 : Database :=
  (ReferralUI.create_referral_form store_P1_arrived hospital_staff P2_form
     "9F8E7D6C").2.

(** The page answers with a failure. *)
Definition reports_failure (answer : feedback) : Prop :=
  match answer with
  | st_error _ | st_warning _ | st_info _ | st_exception _ => True
  | st_nothing | st_success _ => False
  end.

(** C7 as stated: for every patient whose status is not 'Arrived at
    Destination', the handover can be attempted (with the form filled in),
    and the attempt fails and changes nothing. *)
Definition handover_refused (db : Database) (user : User) : Prop :=
  ∀ pid p, patients db !! pid = Some p →
           Patient.status p ≠ "Arrived at Destination" →
           ∃ patient_choice form,
             HandoverUI.receiving_physician form ≠ ""
             ∧ reports_failure
                 (HandoverUI.create_handover_form db user patient_choice form).1
             ∧ (HandoverUI.create_handover_form db user patient_choice form).2
               = db.

(** The row of a patient after a handover. *)
Definition handed_over (physician : string) (p : Patient.t) : Patient.t :=
  Patient.with_receiving_physician (Some physician)
    (Patient.with_status "Completed" p).

(** ** Writes to the store

    Every operation changes the store through a handful of writes: a new
    patient row, an update of a patient row that keeps its two hospitals,
    an update of an ambulance row, and appends to the other tables.  An
    ambulance row is updated in four ways: its status and patient are
    kept (a move), it is dispatched for a patient, it is released, or, when
    [side] allows it, it is put on break or in maintenance. *)

Definition amb_update (side : bool) (a a' : Ambulance.t) : Prop :=
  (Ambulance.status a' = Ambulance.status a
   ∧ Ambulance.current_patient a' = Ambulance.current_patient a)
  ∨ (Ambulance.status a' = "On Transfer"
     ∧ is_Some (Ambulance.current_patient a'))
  ∨ (Ambulance.status a' = "Available" ∧ Ambulance.current_patient a' = None)
  ∨ (side = true
     ∧ (Ambulance.status a' = "On Break" ∨ Ambulance.status a' = "Maintenance")
     ∧ Ambulance.current_patient a' = Ambulance.current_patient a).

Inductive write (side : bool) (db : Database) : Database → Prop :=
| write_new_patient token p :
    patients db !! ("PAT" +:+ token) = None →
    Patient.referring_hospital p ≠ Patient.receiving_hospital p →
    write side db (set_patients (insert ("PAT" +:+ token) p) db)
| write_patient pid p p' :
    patients db !! pid = Some p →
    Patient.referring_hospital p' = Patient.referring_hospital p →
    Patient.receiving_hospital p' = Patient.receiving_hospital p →
    write side db (set_patients (insert pid p') db)
| write_ambulance aid a a' :
    ambulances db !! aid = Some a →
    amb_update side a a' →
    write side db (set_ambulances (insert aid a') db)
| write_ambulance_anonymous aid a :
    ambulances db !! aid = Some a →
    is_Some (patients db !! "") →
    write side db
      (set_ambulances (insert aid (Ambulance.with_status "On Transfer" a)) db)
| write_referral r : write side db (add_referral db r)
| write_handover_form h : write side db (add_handover_form db h)
| write_communication c : write side db (add_communication db c)
| write_location_update u : write side db (add_location_update db u).

(** The two quick actions that change the status of an ambulance without
    looking at its patient. *)
Definition side_click (c : DriverUI.click) : bool :=
  match c with
  | DriverUI.MarkOnBreak | DriverUI.Maintenance => true
  | _ => false
  end.

Definition side_action (a : action) : bool :=
  match a with
  | Driver _ c => side_click c
  | _ => false
  end.

(** ** Invariants *)

Definition hospitals_differ (db : Database) : Prop :=
  ∀ pid p, patients db !! pid = Some p →
           Patient.referring_hospital p ≠ Patient.receiving_hospital p.

Definition no_empty_patient_id (db : Database) : Prop :=
  patients db !! "" = None.

(** An ambulance on transfer carries a patient. *)
Definition on_transfer_has_patient (db : Database) : Prop :=
  ∀ aid a, ambulances db !! aid = Some a →
           Ambulance.status a = "On Transfer" →
           is_Some (Ambulance.current_patient a).

(** An ambulance that carries a patient is on transfer. *)
Definition patient_means_on_transfer (db : Database) : Prop :=
  ∀ aid a, ambulances db !! aid = Some a →
           is_Some (Ambulance.current_patient a) →
           Ambulance.status a = "On Transfer".

(** The equivalence of the specification. *)
Definition transfer_equivalence (db : Database) : Prop :=
  ∀ aid a, ambulances db !! aid = Some a →
           (is_Some (Ambulance.current_patient a)
            ↔ Ambulance.status a = "On Transfer").

(** What holds in every world reached from the seeded store. *)
Definition reachable_invariant (w : World) : Prop :=
  hospitals_differ (db w) ∧ no_empty_patient_id (db w)
  ∧ on_transfer_has_patient (db w).

(** ** The referral form *)

Definition kisumu_staff : User :=
  mkUser "Hospital Staff" KCRH (Some "Kisumu County Hospital Staff").

(** The same hospital, Kisumu County Referral Hospital, on both sides. *)
Definition same_hospital_form : ReferralUI.Form :=
  ReferralUI.mkForm "Achieng Otieno" 34 "Fractured femur" "Dr. Ouma"
    1 1 "" "" "" "" "" 0.

(** A mandatory widget of the form is empty; an age of zero counts as
    empty. *)
Definition mandatory_missing (form : ReferralUI.Form) : Prop :=
  ReferralUI.name form = "" ∨ ReferralUI.age form = 0%Z
  ∨ ReferralUI.condition form = "" ∨ ReferralUI.referring_physician form = "".

(** ** Runs of the simulator *)

Definition is_stop (a : action) : bool :=
  match a with
  | StopSimulation => true
  | _ => false
  end.

(** Nobody calls [stop_simulation] while the thread sleeps. *)
Definition uncancelled (schedule : nat → list action) : bool :=
  forallb (λ k, forallb (λ a, negb (is_stop a)) (schedule k))
    (seq 0 (steps + 1)).

(** The other control paths do nothing. *)
Definition nobody_else : nat → list action := λ _, [].

(** [stop_simulation] is called during the sleep that follows step [k]. *)
Definition stop_after (k : nat) : nat → list action :=
  λ step, if Nat.eqb step k then [StopSimulation] else [].

(** The row of [location_updates] written for a sample. *)
Definition location_row (ambulance_id patient_id : string) (s : Sample)
    : LocationUpdate.t :=
  LocationUpdate.mk ambulance_id (sample_lat s) (sample_lng s) (sample_label s)
    (Some patient_id).

(** The samples of the specification: linear interpolation from the start to
    the end. *)
Definition interpolation (start_lat start_lng end_lat end_lng : float)
    : list Sample :=
  sample_at start_lat start_lng (lat_step start_lat end_lat)
    (lng_step start_lng end_lng) steps
  <$> seq 0 (steps + 1).

Definition between (a b x : float) : bool :=
  ((a <=? x) && (x <=? b) || (b <=? x) && (x <=? a))%float.

(** The sample lies in the bounding box of the start and the end. *)
Definition in_bounding_box (start_lat start_lng end_lat end_lng : float)
    (s : Sample) : bool :=
  between start_lat end_lat (sample_lat s)
  && between start_lng end_lng (sample_lng s).

(** The last sample of an undisturbed run from the given start to the given
    end is the end. *)
Definition arrives_at_end (start_lat start_lng end_lat end_lng : float) : Prop :=
  ∃ s,
    (start_simulation nobody_else A1 P1 start_lat start_lng end_lat end_lng
       (mkWorld store_P1_assigned false)).2 !! 20 = Some s
    ∧ (sample_lat s =? end_lat)%float = true
    ∧ (sample_lng s =? end_lng)%float = true.

(** A store whose only ambulance is driven by the driver account, at Ahero
    Sub-County Hospital; P1 and P2 are referred and the driver accepts the
    mission for P1, which starts a simulation thread from the ambulance to
    the receiving hospital. *)
Definition driver : User :=
  mkUser "Ambulance Driver" "Ambulance Service" (Some "Ambulance Driver").

Definition A0 : string := "KCA 001A".

Definition depot : Database :=
  set_ambulances
    (insert A0
       (Ambulance.mk (Some "Ahero Sub-County Hospital") (Some (-0.1743)%float)
          (Some 34.9169%float) "Available" (Some "Ambulance Driver")
          (Some "+254700000000") None None 0 false))
    empty_database.

Definition mission_accepted : World :=
  run [ReferralSubmit hospital_staff P1_form "0A1B2C3D";
       ReferralSubmit hospital_staff P2_form "9F8E7D6C";
       Driver driver (DriverUI.AcceptMission 1)]
    (mkWorld (initialize_sample_data depot) false).

(** During the run the driver marks the patient as delivered, and later the
    administrator assigns the ambulance, available again, to P2. *)
Definition delivered_then_reassigned (k : nat) : list action :=
  match k with
  | 3 => [Driver driver DriverUI.MarkPatientDelivered]
  | 5 => [ConfirmAssignment admin 0 0]
  | _ => []
  end.

(** The world when the loop of a run is left. *)
Definition loop_left (schedule : nat → list action)
    (ambulance_id patient_id : string)
    (start_lat start_lng end_lat end_lng : float) (w : World) : World :=
  (simulation_loop schedule ambulance_id patient_id start_lat start_lng
     end_lat end_lng (seq 0 (steps + 1)) (mkWorld (db w) true)).1.

(** The end of the run leaves alone an ambulance whose mission is already
    marked as complete. *)
Definition arrival_guarded (schedule : nat → list action)
    (ambulance_id patient_id : string)
    (start_lat start_lng end_lat end_lng : float) (w : World) : Prop :=
  let left := loop_left schedule ambulance_id patient_id start_lat start_lng
                end_lat end_lng w in
  ∀ a, ambulances (db left) !! ambulance_id = Some a →
       Ambulance.mission_complete a = true →
       (start_simulation schedule ambulance_id patient_id start_lat start_lng
          end_lat end_lng w).1 = left.

(** ** Further statements *)

(** Nothing is ever removed: the fleet is fixed, patients stay, and the four
    tables with an autoincrement key only get longer. *)
Definition grows (db db' : Database) : Prop :=
  dom (ambulances db') = dom (ambulances db)
  ∧ dom (patients db) ⊆ dom (patients db')
  ∧ referrals db `prefix_of` referrals db'
  ∧ handover_forms db `prefix_of` handover_forms db'
  ∧ communications db `prefix_of` communications db'
  ∧ location_updates db `prefix_of` location_updates db'.

(** ** What one operation does

    The result of every operation, as rows: [effect db db'] lists the
    stores [db'] that one page operation or one simulator step can make of
    [db], with what the operation has checked before it writes. *)

(** The rows written by the operations. *)
Definition delivered (a : Ambulance.t) : Ambulance.t :=
  Ambulance.with_mission_complete true (released a).

Definition carrying (patient_id : string) (a : Ambulance.t) : Ambulance.t :=
  Ambulance.with_status "On Transfer"
    (Ambulance.with_current_patient (Some patient_id) a).

Definition accepted_by (ambulance_id : string) (p : Patient.t) : Patient.t :=
  Patient.with_status "Ambulance Dispatched"
    (Patient.with_assigned_ambulance (Some ambulance_id) p).

(** The ambulance row after [update_ambulance_status] with status
    'On Transfer' and the given patient. *)
Definition on_transfer_for (patient_id : string) (a : Ambulance.t) : Ambulance.t :=
  if truthy (Some patient_id)
  then Ambulance.with_current_patient (Some patient_id)
         (Ambulance.with_status "On Transfer" a)
  else Ambulance.with_status "On Transfer" a.

(** The coordinates stored with a hospital of a patient are those of the
    first row of [hospitals_df] with its name. *)
Definition at_hospital (name : string) (lat lng : option float) : Prop :=
  ∃ row, ReferralUI.hospital_row name = Some row
         ∧ lat = Some row.1 ∧ lng = Some row.2.

(** What the referral form checks and looks up before it writes. *)
Definition referral_rules (p : Patient.t) : Prop :=
  (Patient.receiving_hospital p = JOOTRH ∨ Patient.receiving_hospital p = KCRH)
  ∧ Patient.referring_hospital p ≠ ""
  ∧ Patient.name p ≠ "" ∧ Patient.age p ≠ 0%Z ∧ Patient.condition p ≠ ""
  ∧ Patient.referring_physician p ≠ ""
  ∧ at_hospital (Patient.referring_hospital p)
      (Patient.referring_hospital_lat p) (Patient.referring_hospital_lng p)
  ∧ at_hospital (Patient.receiving_hospital p)
      (Patient.receiving_hospital_lat p) (Patient.receiving_hospital_lng p).

(** The identifier that a page reads back from the label of an ambulance
    it offers. *)
Definition offered (db : Database) (aid : string) : Prop :=
  ∃ amb, amb ∈ get_available_ambulances db
         ∧ aid = split_label (ambulance_label amb).

(** A message of the driver about a patient. *)
Definition driver_message (db : Database) (c : Communication.t) : Prop :=
  Communication.sender c = "Driver"
  ∧ (∃ pid, Communication.patient_id c = Some pid ∧ is_Some (patients db !! pid))
  ∧ (∀ aid, Communication.ambulance_id c = Some aid →
            is_Some (ambulances db !! aid)).

Inductive effect (db : Database) : Database → Prop :=
| eff_nothing : effect db db
| eff_referral token p role :
    patients db !! ("PAT" +:+ token) = None →
    Patient.status p = "Referred" →
    Patient.vital_signs p = None →
    Patient.referring_hospital p ≠ Patient.receiving_hospital p →
    (∀ aid, Patient.assigned_ambulance p = Some aid → offered db aid) →
    referral_rules p →
    effect db
      (add_referral (set_patients (insert ("PAT" +:+ token) p) db)
         (Referral.mk ("PAT" +:+ token) "Ambulance Dispatched"
            (Patient.assigned_ambulance p) (Some role)))
| eff_assign pid p aid a :
    patients db !! pid = Some p →
    not_in (Patient.status p) ReferralUI.closed_statuses = true →
    offered db aid →
    ambulances db !! aid = Some a →
    effect db
      (set_ambulances (insert aid (on_transfer_for pid a))
         (set_patients (insert pid (assigned_to aid p)) db))
| eff_assign_unknown pid p aid :
    patients db !! pid = Some p →
    not_in (Patient.status p) ReferralUI.closed_statuses = true →
    offered db aid →
    ambulances db !! aid = None →
    effect db (set_patients (insert pid (assigned_to aid p)) db)
| eff_status pid p new_status :
    patients db !! pid = Some p →
    not_in (Patient.status p) ReferralUI.closed_statuses = true →
    new_status ∈ ReferralUI.status_options →
    effect db (set_patients (insert pid (Patient.with_status new_status p)) db)
| eff_handover pid p user form :
    patients db !! pid = Some p →
    Patient.status p = "Arrived at Destination" →
    (hospital user = "All Facilities"
     ∨ Patient.receiving_hospital p = hospital user) →
    HandoverUI.receiving_physician form ≠ "" →
    effect db
      (set_patients
         (insert pid (handed_over (HandoverUI.receiving_physician form) p))
         (add_handover_form db (HandoverUI.handover_data (pid, p) user form)))
| eff_move aid a lat lng loc pid :
    ambulances db !! aid = Some a →
    effect db
      (add_location_update
         (set_ambulances (insert aid (Ambulance.with_position lat lng loc a)) db)
         (LocationUpdate.mk aid lat lng loc pid))
| eff_messages cs :
    Forall (driver_message db) cs →
    effect db (DriverUI.add_communications db cs)
| eff_vitals pid p vitals cs :
    patients db !! pid = Some p →
    Forall (driver_message db) cs →
    effect db
      (DriverUI.add_communications
         (set_patients (insert pid (Patient.with_vital_signs (Some vitals) p)) db)
         cs)
| eff_deliver aid a pid p cs :
    ambulances db !! aid = Some a →
    Ambulance.status a = "On Transfer" →
    Ambulance.current_patient a = Some pid →
    pid ≠ "" →
    patients db !! pid = Some p →
    Forall (driver_message db) cs →
    length cs = 2 →
    effect db
      (DriverUI.add_communications
         (set_patients
            (insert pid (Patient.with_status "Arrived at Destination" p))
            (set_ambulances (insert aid (delivered a)) db))
         cs)
| eff_accept aid a pid p :
    ambulances db !! aid = Some a →
    Ambulance.status a = "Available" →
    patients db !! pid = Some p →
    Patient.status p = "Referred" →
    Patient.assigned_ambulance p = None →
    effect db
      (set_patients (insert pid (accepted_by aid p))
         (set_ambulances (insert aid (carrying pid a)) db))
| eff_release aid a :
    ambulances db !! aid = Some a →
    effect db (set_ambulances (insert aid (released a)) db)
| eff_side aid a s :
    ambulances db !! aid = Some a →
    s = "On Break" ∨ s = "Maintenance" →
    effect db (set_ambulances (insert aid (Ambulance.with_status s a)) db).

(** The three quick actions of the driver dashboard. *)
Definition quick_click (c : DriverUI.click) : bool :=
  match c with
  | DriverUI.MarkAvailable | DriverUI.MarkOnBreak | DriverUI.Maintenance => true
  | _ => false
  end.

(** ** The life of a patient row *)

(** The fifteen columns that no operation writes once the row is created.
    The four others, [status], [assigned_ambulance], [receiving_physician]
    and [vital_signs], are written later: [assign_ambulance] and the
    mission of a driver set the ambulance, the handover form sets the
    receiving physician, the vitals form sets the vital signs. *)
Definition unwritten (p : Patient.t) :=
  (Patient.name p, Patient.age p, Patient.condition p,
   Patient.referring_hospital p, Patient.receiving_hospital p,
   Patient.referring_physician p, Patient.notes p, Patient.medical_history p,
   Patient.current_medications p, Patient.allergies p, Patient.created_by p,
   (Patient.referring_hospital_lat p, Patient.referring_hospital_lng p),
   (Patient.receiving_hospital_lat p, Patient.receiving_hospital_lng p)).

(** The changes of status that one operation can make: none; to 'Arrived at
    Destination' from any status (a delivery); from 'Arrived at Destination'
    to 'Completed' (a handover); and, for a patient that is neither arrived
    nor completed, to 'Ambulance Assigned' or to one of the five statuses of
    the "Update Status" box. *)
Definition status_step (s s' : string) : Prop :=
  s' = s
  ∨ s' = "Arrived at Destination"
  ∨ (s = "Arrived at Destination" ∧ s' = "Completed")
  ∨ (not_in s ReferralUI.closed_statuses = true
     ∧ (s' = "Ambulance Assigned" ∨ s' ∈ ReferralUI.status_options)).

(** The assigned ambulance is kept, or set to an identifier together with
    the status 'Ambulance Assigned' or 'Ambulance Dispatched'; it is never
    cleared. *)
Definition ambulance_step (p p' : Patient.t) : Prop :=
  Patient.assigned_ambulance p' = Patient.assigned_ambulance p
  ∨ ∃ aid, Patient.assigned_ambulance p' = Some aid
           ∧ (Patient.status p' = "Ambulance Assigned"
              ∨ Patient.status p' = "Ambulance Dispatched").

(** The receiving physician is kept, or overwritten with the physician of a
    handover form, who is not empty; the handover takes the patient from
    'Arrived at Destination' to 'Completed'. *)
Definition physician_step (p p' : Patient.t) : Prop :=
  Patient.receiving_physician p' = Patient.receiving_physician p
  ∨ ∃ physician, physician ≠ ""
                 ∧ Patient.receiving_physician p' = Some physician
                 ∧ Patient.status p = "Arrived at Destination"
                 ∧ Patient.status p' = "Completed".

(** The vital signs are kept or replaced by a new record; they are never
    cleared. *)
Definition vitals_step (p p' : Patient.t) : Prop :=
  Patient.vital_signs p' = Patient.vital_signs p
  ∨ ∃ vitals, Patient.vital_signs p' = Some vitals.

(** What one operation can do to a patient row. *)
Definition row_step (p p' : Patient.t) : Prop :=
  unwritten p' = unwritten p
  ∧ status_step (Patient.status p) (Patient.status p')
  ∧ ambulance_step p p'
  ∧ physician_step p p'
  ∧ vitals_step p p'.

(** A row that one operation creates: 'Referred', without vital signs,
    under an identifier that starts with 'PAT', and with no ambulance or
    with one read back from a label the form offers. *)
Definition new_row (db : Database) (pid : string) (p' : Patient.t) : Prop :=
  Patient.status p' = "Referred"
  ∧ Patient.vital_signs p' = None
  ∧ (∃ token, pid = "PAT" +:+ token)
  ∧ ∀ aid, Patient.assigned_ambulance p' = Some aid → offered db aid.

(** A patient is handed over to the administrator while the ambulance the
    driver accepted the mission with still carries it. *)
Definition handed_over_on_board : World :=
  run [ReferralSubmit hospital_staff P1_form "0A1B2C3D";
       Driver driver (DriverUI.AcceptMission 0);
       UpdateStatus admin 0 4;
       HandoverSubmit admin 0 P1_handover]
    (mkWorld (initialize_sample_data depot) false).

(** ** References between the tables

    No column is declared as a foreign key: that the identifiers stored in
    a row name existing rows is up to the operations. *)

Definition referral_resolves (db : Database) (r : Referral.t) : Prop :=
  is_Some (patients db !! Referral.patient_id r)
  ∧ ∀ aid, Referral.ambulance_id r = Some aid → is_Some (ambulances db !! aid).

Definition handover_resolves (db : Database) (h : HandoverForm.t) : Prop :=
  is_Some (patients db !! HandoverForm.patient_id h)
  ∧ ∀ aid, HandoverForm.ambulance_id h = Some aid →
           is_Some (ambulances db !! aid).

Definition location_resolves (db : Database) (u : LocationUpdate.t) : Prop :=
  is_Some (ambulances db !! LocationUpdate.ambulance_id u).

Definition references_resolve (db : Database) : Prop :=
  (∀ aid a pid, ambulances db !! aid = Some a →
                Ambulance.current_patient a = Some pid →
                is_Some (patients db !! pid))
  ∧ (∀ pid p aid, patients db !! pid = Some p →
                  Patient.assigned_ambulance p = Some aid →
                  is_Some (ambulances db !! aid))
  ∧ Forall (referral_resolves db) (referrals db)
  ∧ Forall (handover_resolves db) (handover_forms db)
  ∧ Forall (driver_message db) (communications db)
  ∧ Forall (location_resolves db) (location_updates db).

(** A store whose only ambulance has an identifier that is not plain: the
    label of ['KBA - 2'] is read back as ['KBA']. *)
Definition lone_fleet : Database :=
  set_ambulances
    (insert "KBA - 2"
       (Ambulance.mk (Some JOOTRH) (Some (-0.0754)%float) (Some 34.7695%float)
          "Available" (Some "Mary Achieng") (Some "+254723456789") None None 0
          false))
    empty_database.

(** A referral, an assignment, a move of the ambulance, a delivery by the
    driver and the handover. *)
Definition one_transfer : list action :=
  [ReferralSubmit hospital_staff P1_form "0A1B2C3D";
   ConfirmAssignment admin 0 8;
   ThreadStarts;
   ThreadWrites A1 P1 (mkSample 0 (-0.0754)%float 34.7695%float
                         "En route - Step 0/20");
   UpdateStatus admin 0 4;
   HandoverSubmit admin 0 P1_handover].

(** ** The position of an ambulance and the log of its positions *)

(** The rows of [location_updates] of one ambulance, oldest first. *)
Definition track (db : Database) (ambulance_id : string)
    : list LocationUpdate.t :=
  List.filter (λ u, String.eqb (LocationUpdate.ambulance_id u) ambulance_id)
    (location_updates db).

Definition position (a : Ambulance.t) :=
  (Ambulance.current_location a, Ambulance.latitude a, Ambulance.longitude a).

Definition logged (u : LocationUpdate.t) :=
  (Some (LocationUpdate.location_name u), Some (LocationUpdate.latitude u),
   Some (LocationUpdate.longitude u)).

(** The position in the row of an ambulance is the one of the newest row of
    its log, if it has one. *)
Definition position_logged (db : Database) : Prop :=
  ∀ aid a u, ambulances db !! aid = Some a →
             last (track db aid) = Some u →
             position a = logged u.

(** *** The two commits of [update_ambulance_location]

    [update_ambulance_location] commits the position in the row of the
    ambulance, and then, in a second commit, the row of [location_updates].
    It runs in the thread of a simulation and on the pages, so that a
    commit of another control path can fall between the two.  A history of
    the store is therefore taken commit by commit: the store together with
    the calls that have committed the position and not yet the row of the
    log.  A commit is one step, and it writes the columns that the code
    assigned and no other; a call that dies between its two commits stays
    in flight. *)

(** The first commit of a call with the given data: the position in the
    row of the ambulance, if the ambulance exists. *)
Definition position_commit (db : Database) (u : LocationUpdate.t)
    : option Database :=
  match ambulances db !! LocationUpdate.ambulance_id u with
  | Some ambulance =>
      Some (set_ambulances
              (insert (LocationUpdate.ambulance_id u)
                 (Ambulance.with_position (LocationUpdate.latitude u)
                    (LocationUpdate.longitude u)
                    (LocationUpdate.location_name u) ambulance))
              db)
  | None => None
  end.

(** One commit: the first commit of a call, which is then in flight; the
    second commit of a call in flight; or an operation that writes no
    position, taken whole. *)
Inductive commit
    : Database * list LocationUpdate.t → Database * list LocationUpdate.t
      → Prop :=
| commit_position db db' pending u :
    position_commit db u = Some db' →
    commit (db, pending) (db', (pending ++ [u])%list)
| commit_log db pending1 u pending2 :
    commit (db, (pending1 ++ u :: pending2)%list)
      (add_location_update db u, (pending1 ++ pending2)%list)
| commit_quiet db db' pending :
    effect db db' →
    location_updates db' = location_updates db →
    commit (db, pending) (db', pending).





(** Two calls for the ambulance of the depot that overlap: both commit the
    position, then the second one logs, then the first one. *)
Definition first_call : LocationUpdate.t :=
  LocationUpdate.mk A0 (-0.0754)%float 34.7695%float "En route - Step 0/20"
    (Some P1).

Definition second_call : LocationUpdate.t :=
  LocationUpdate.mk A0 (-0.0916)%float 34.7680%float "Kondele" None.

Definition overlapped : Database :=
  add_location_update
    (add_location_update
       (set_ambulances
          (insert A0
             (Ambulance.with_position (-0.0916)%float 34.7680%float "Kondele"
                (Ambulance.mk (Some "Ahero Sub-County Hospital")
                   (Some (-0.1743)%float) (Some 34.9169%float) "Available"
                   (Some "Ambulance Driver") (Some "+254700000000") None None
                   0 false)))
          depot)
       second_call)
    first_call.

(** ** The driver dashboard *)

(** The name the dashboard looks the ambulance up with. *)
Definition driver_name_of (user : User) : string :=
  default (role user) (user_name user).

(** The columns of an ambulance that name its driver. *)
Definition crew (a : Ambulance.t) :=
  (Ambulance.driver_name a, Ambulance.driver_contact a).

(** What a driver can reach: one ambulance, at most one patient, and new
    rows in the tables of messages and positions. *)
Definition touches_only (aid : string) (pid : option string)
    (db db' : Database) : Prop :=
  (∀ k, k ≠ aid → ambulances db' !! k = ambulances db !! k)
  ∧ (∀ k, Some k ≠ pid → patients db' !! k = patients db !! k)
  ∧ referrals db' = referrals db
  ∧ handover_forms db' = handover_forms db
  ∧ (∃ cs, communications db' = (communications db ++ cs)%list
           ∧ Forall (λ c, Communication.sender c = "Driver") cs)
  ∧ (∃ us, location_updates db' = (location_updates db ++ us)%list
           ∧ Forall (λ u, LocationUpdate.ambulance_id u = aid) us).

(** ** A run of the simulator on its own *)

(** The row of an ambulance moved to a sample. *)
Definition moved (s : Sample) (a : Ambulance.t) : Ambulance.t :=
  Ambulance.with_position (sample_lat s) (sample_lng s) (sample_label s) a.

(** The store after the samples were written for an ambulance whose row was
    [a]: the ambulance is at the last sample, and every sample is logged. *)
Definition after_samples (ambulance_id patient_id : string) (a : Ambulance.t)
    (db : Database) (samples : list Sample) : Database :=
  match last samples with
  | Some s =>
      mkDatabase (patients db)
        (<[ambulance_id := moved s a]> (ambulances db))
        (referrals db) (handover_forms db) (communications db)
        (location_updates db
           ++ (location_row ambulance_id patient_id <$> samples))%list
  | None => db
  end.

(** The same store after the release at the end of the run. *)
Definition after_arrival (ambulance_id patient_id : string) (a : Ambulance.t)
    (db : Database) (samples : list Sample) : Database :=
  match last samples with
  | Some s =>
      mkDatabase (patients db)
        (<[ambulance_id := released (moved s a)]> (ambulances db))
        (referrals db) (handover_forms db) (communications db)
        (location_updates db
           ++ (location_row ambulance_id patient_id <$> samples))%list
  | None => db
  end.

(** ** The seeded fleet *)

(** The rows of [ambulances_data], inserted one after the other. *)
Definition fleet : gmap string Ambulance.t :=
  foldl (λ m row, <[(sample_ambulance row).1 := (sample_ambulance row).2]> m)
    ∅ ambulances_data.

(** ** A referral with an ambulance chosen in the form *)

(** The form of P1 with the first ambulance offered instead of
    'Auto-assign'. *)
Definition P1_form_with_ambulance : ReferralUI.Form :=
  ReferralUI.mkForm "Achieng Otieno" 34 "Fractured femur" "Dr. Ouma"
    0 1 "" "" "" "" "" 1.

(** ** The patients a user can act on *)

(** The patients listed for a user on the referral page: all of them for
    'All Facilities', those received by one of the two referral hospitals
    for its staff, and those referred by the hospital for the staff of
    another hospital. *)
Definition in_scope (user_hospital : string) (p : Patient.t) : Prop :=
  user_hospital = "All Facilities"
  ∨ ((user_hospital = JOOTRH ∨ user_hospital = KCRH)
     ∧ Patient.receiving_hospital p = user_hospital)
  ∨ (user_hospital ≠ JOOTRH ∧ user_hospital ≠ KCRH
     ∧ Patient.referring_hospital p = user_hospital).

(** The patients listed for a user on the handover page. *)
Definition in_handover_scope (user_hospital : string) (p : Patient.t) : Prop :=
  user_hospital = "All Facilities"
  ∨ Patient.receiving_hospital p = user_hospital.

(** P1 is referred from JOOTRH to Kisumu County Referral Hospital; the staff
    of Lumumba Sub-County Hospital has nothing to do with it. *)
Definition lumumba_staff : User :=
  mkUser "Hospital Staff" "Lumumba Sub-County Hospital" (Some "Lumumba Staff").

(** ** The application with the configured accounts *)

(** The users of the four configured accounts. *)
Definition configured_users : list User :=
  [admin; hospital_staff; driver; kisumu_staff].

(** Everything in the row of an ambulance but its status and its patient. *)
Definition fixed (a : Ambulance.t) :=
  (position a, crew a, Ambulance.destination a, Ambulance.current_step a,
   Ambulance.mission_complete a).

(** A store in which no driver has ever done anything: no message, no
    logged position, and every ambulance as it was seeded, apart from its
    status, which is 'Available' or 'On Transfer', and its patient. *)
Definition idle_store (db : Database) : Prop :=
  communications db = []
  ∧ location_updates db = []
  ∧ ∀ k a, ambulances db !! k = Some a →
           (Ambulance.status a = "Available"
            ∨ Ambulance.status a = "On Transfer")
           ∧ ∃ a0, fleet !! k = Some a0 ∧ fixed a = fixed a0.

(** What holds of the application as long as only the configured accounts
    exist. *)
Definition idle (app : HospitalReferralApp.App) : Prop :=
  HospitalReferralApp.threads app = []
  ∧ (∀ s u, HospitalReferralApp.sessions app !! s = Some u →
            u ∈ configured_users)
  ∧ idle_store (db (HospitalReferralApp.store app)).

(** ** The rules of the referral form *)

Definition rules_hold (db : Database) : Prop :=
  ∀ pid p, patients db !! pid = Some p → referral_rules p.

(** The condition under which "Accept Mission" starts a simulation. *)
Definition simulation_starts (p : Patient.t) : Prop :=
  truthy_float (Patient.referring_hospital_lat p)
  && truthy_float (Patient.receiving_hospital_lat p) = true.

(** ** Completed patients and their handover forms *)

(** The handover form [h] is on file for the patient [p] with identifier
    [pid]: it names the patient, copies its record and was signed by its
    receiving physician. *)
Definition on_file (pid : string) (p : Patient.t) (h : HandoverForm.t) : Prop :=
  HandoverForm.patient_id h = pid
  ∧ Some (HandoverForm.receiving_physician h) = Patient.receiving_physician p
  ∧ HandoverForm.receiving_physician h ≠ ""
  ∧ HandoverForm.patient_name h = Patient.name p
  ∧ HandoverForm.age h = Patient.age p
  ∧ HandoverForm.condition h = Patient.condition p
  ∧ HandoverForm.referring_hospital h = Patient.referring_hospital p
  ∧ HandoverForm.receiving_hospital h = Patient.receiving_hospital p
  ∧ HandoverForm.referring_physician h = Patient.referring_physician p.

Definition completed_on_file (db : Database) : Prop :=
  ∀ pid p, patients db !! pid = Some p → Patient.status p = "Completed" →
           ∃ h, h ∈ handover_forms db ∧ on_file pid p h.

(** * Properties *)

(** ** Lookups in query results *)

Lemma selectbox_elem {A : Type} (options : list A) (choice : nat) (x : A) :
  selectbox options choice = Some x → x ∈ options.
Proof. unfold selectbox. apply list_elem_of_lookup_2. Qed.

Lemma filter_rows_lookup {V : Type} (f : string * V → bool)
    (m : gmap string V) (row : string * V) :
  row ∈ List.filter f (map_to_list m) → m !! row.1 = Some row.2 ∧ f row = true.
Proof.
  rewrite list_elem_of_In, filter_In, <- list_elem_of_In.
  intros [Hin Hf]. split; [|done].
  destruct row as [k v]. by apply elem_of_map_to_list.
Qed.

Lemma available_ambulance_lookup (db : Database) (amb : string * Ambulance.t) :
  amb ∈ get_available_ambulances db →
  ambulances db !! amb.1 = Some amb.2 ∧ Ambulance.status amb.2 = "Available".
Proof.
  intros Hin. apply filter_rows_lookup in Hin as [Hl Hs].
  split; [done|]. by apply String.eqb_eq.
Qed.

Lemma truthy_Some (s : string) : s ≠ "" → truthy (Some s) = true.
Proof.
  intros Hs. unfold truthy. apply negb_true_iff. by apply String.eqb_neq.
Qed.

(** ** Labels *)

Lemma lookup_map {A B : Type} (f : A → B) (l : list A) (i : nat) :
  List.map f l !! i = f <$> l !! i.
Proof.
  revert i. induction l as [|x l IH]; intros [|i]; try done. apply IH.
Qed.

Lemma prefix_sep_append (c : Ascii.ascii) (k d : string) :
  String.prefix " - " (String c (k +:+ " - " +:+ d))
  = String.prefix " - " (String c (k +:+ " - ")).
Proof.
  assert (Hnil : ∀ s, String.prefix "" s = true) by (by intros []).
  assert (Hcons : ∀ a s1 b s2,
            String.prefix (String a s1) (String b s2)
            = if Ascii.ascii_dec a b then String.prefix s1 s2 else false)
    by reflexivity.
  assert (Happ : ∀ a s t, String a s +:+ t = String a (s +:+ t))
    by reflexivity.
  destruct k as [|c1 [|c2 k]]; rewrite ?Happ;
    rewrite !Hcons, ?Happ, ?Hcons, ?Hnil; reflexivity.
Qed.

(** What is read back from a label does not depend on the name of the
    driver. *)
Lemma split_label_append (k d : string) :
  split_label (k +:+ " - " +:+ d) = split_label (k +:+ " - ").
Proof.
  induction k as [|c k IH]; [by destruct d|].
  change (String c k +:+ " - " +:+ d) with (String c (k +:+ " - " +:+ d)).
  change (String c k +:+ " - ") with (String c (k +:+ " - ")).
  cbn [split_label]. by rewrite prefix_sep_append, IH.
Qed.

Lemma split_label_plain (amb : string * Ambulance.t) :
  plain_id amb.1 → split_label (ambulance_label amb) = amb.1.
Proof.
  intros Hk. unfold ambulance_label. by rewrite split_label_append.
Qed.

(** ** [Database.update_ambulance_status] *)

Lemma update_ambulance_status_patients db aid st pid :
  patients (update_ambulance_status db aid st pid) = patients db.
Proof. unfold update_ambulance_status. by destruct (ambulances db !! aid). Qed.

Lemma update_ambulance_status_other db aid st pid k :
  k ≠ aid →
  ambulances (update_ambulance_status db aid st pid) !! k = ambulances db !! k.
Proof.
  intros Hk. unfold update_ambulance_status.
  destruct (ambulances db !! aid); [|done].
  simpl. by rewrite lookup_insert_ne.
Qed.

Lemma update_ambulance_status_missing db aid st pid :
  ambulances db !! aid = None → update_ambulance_status db aid st pid = db.
Proof. intros Hm. unfold update_ambulance_status. by rewrite Hm. Qed.

Lemma update_ambulance_status_dispatch db aid st pid a :
  ambulances db !! aid = Some a → pid ≠ "" →
  ambulances (update_ambulance_status db aid st (Some pid)) !! aid
  = Some (Ambulance.with_current_patient (Some pid) (Ambulance.with_status st a)).
Proof.
  intros Ha Hp. unfold update_ambulance_status.
  rewrite Ha, (truthy_Some _ Hp). simpl. by rewrite lookup_insert_eq.
Qed.


(** ** [ReferralService.assign_ambulance] *)

Lemma assign_ambulance_known db pid aid p :
  patients db !! pid = Some p →
  ReferralService.assign_ambulance db pid aid
  = (true,
     update_ambulance_status
       (set_patients (insert pid (assigned_to aid p)) db) aid "On Transfer"
       (Some pid)).
Proof.
  intros Hp. unfold ReferralService.assign_ambulance, get_patient_by_id.
  by rewrite Hp.
Qed.

Lemma assign_ambulance_unknown db pid aid :
  patients db !! pid = None →
  ReferralService.assign_ambulance db pid aid = (false, db).
Proof.
  intros Hp. unfold ReferralService.assign_ambulance, get_patient_by_id.
  by rewrite Hp.
Qed.

Lemma assign_ambulance_dispatches db pid aid p a :
  patients db !! pid = Some p → pid ≠ "" → ambulances db !! aid = Some a →
  let r := ReferralService.assign_ambulance db pid aid in
  r.1 = true
  ∧ patients r.2 = <[pid := assigned_to aid p]> (patients db)
  ∧ ambulances r.2 = <[aid := dispatched_for pid a]> (ambulances db).
Proof.
  intros Hp Hne Ha r. subst r.
  rewrite (assign_ambulance_known _ _ _ _ Hp). cbn [fst snd].
  split; [done|]. split.
  { by rewrite update_ambulance_status_patients. }
  unfold update_ambulance_status.
  change (ambulances (set_patients _ db)) with (ambulances db).
  by rewrite Ha, (truthy_Some _ Hne).
Qed.

Lemma assign_ambulance_other_ambulance db pid aid k :
  k ≠ aid →
  ambulances (ReferralService.assign_ambulance db pid aid).2 !! k
  = ambulances db !! k.
Proof.
  intros Hk. unfold ReferralService.assign_ambulance, get_patient_by_id.
  destruct (patients db !! pid); [|done].
  cbn [snd]. by rewrite update_ambulance_status_other.
Qed.

(** ** [HandoverUI.create_handover_form] *)

Lemma eligible_patient_lookup db user_hospital (sel : string * Patient.t) :
  sel ∈ HandoverUI.eligible_patients db user_hospital →
  patients db !! sel.1 = Some sel.2
  ∧ Patient.status sel.2 = "Arrived at Destination".
Proof.
  unfold HandoverUI.eligible_patients, get_all_patients.
  destruct (String.eqb user_hospital "All Facilities");
    intros Hin; apply filter_rows_lookup in Hin as [Hl Hf];
    (split; [done|]).
  - by apply String.eqb_eq.
  - apply andb_true_iff in Hf as [_ Hf]. by apply String.eqb_eq.
Qed.

Lemma create_handover_form_cases db user choice form :
  (HandoverUI.create_handover_form db user choice form).2 = db
  ∧ (∀ msg, (HandoverUI.create_handover_form db user choice form).1
            ≠ st_success msg)
  ∨ ∃ sel,
      selectbox (HandoverUI.eligible_patients db (hospital user)) choice = Some sel
      ∧ HandoverUI.receiving_physician form ≠ ""
      ∧ HandoverUI.create_handover_form db user choice form
        = (st_success "Handover completed successfully!",
           set_patients
             (insert sel.1
                (handed_over (HandoverUI.receiving_physician form) sel.2))
             (add_handover_form db (HandoverUI.handover_data sel user form))).
Proof.
  unfold HandoverUI.create_handover_form.
  destruct (HandoverUI.eligible_patients db (hospital user)) as [|e0 rest] eqn:He.
  { by left. }
  destruct (selectbox (e0 :: rest) choice) as [sel|] eqn:Hsel; [|by left].
  destruct (String.eqb (HandoverUI.receiving_physician form) "") eqn:Hphys.
  { by left. }
  right. exists sel. split; [done|]. split; [|done].
  by apply String.eqb_neq.
Qed.


(** ** Floating-point literals

    A decimal literal denotes the binary64 number nearest to it, as in
    Python; the right-hand sides are the values of [float.hex]. *)

Remark literal_start :
  ((-0.0754)%float, 34.7695%float)
  = ((-0x1.34d6a161e4f76p-4)%float, 0x1.1627ef9db22d1p+5%float).
Proof. reflexivity. Qed.

Remark literal_end :
  ((-0.1743)%float, 34.9169%float)
  = ((-0x1.64f765fd8adacp-3)%float, 0x1.1755cfaacd9e8p+5%float).
Proof. reflexivity. Qed.

(** ** Every operation is a sequence of writes *)

Lemma write_side_weaken side db db' : write false db db' → write side db db'.
Proof.
  destruct 1 as [token p Hn Hd|pid p p' Hp H1 H2|aid a a' Ha Hu|aid a Ha Hp|r|h|c|u];
    try by constructor.
  - by eapply write_patient.
  - eapply write_ambulance; [done|].
    destruct Hu as [?|[?|[?|[? _]]]]; [by left|by right; left|by right; right; left|done].
Qed.

Lemma writes_side_weaken side db db' :
  rtc (write false) db db' → rtc (write side) db db'.
Proof.
  induction 1 as [|db1 db2 db3 Hw _ IH]; [apply rtc_refl|].
  eapply rtc_l; [by apply write_side_weaken|done].
Qed.

Lemma add_communications_writes side db cs :
  rtc (write side) db (DriverUI.add_communications db cs).
Proof.
  unfold DriverUI.add_communications. revert db.
  induction cs as [|c cs IH]; intros db; [apply rtc_refl|].
  simpl. eapply rtc_l; [apply write_communication|apply IH].
Qed.

Lemma update_ambulance_location_writes side db aid lat lng loc pid :
  rtc (write side) db
    (AmbulanceService.update_ambulance_location db aid lat lng loc pid).2.
Proof.
  unfold AmbulanceService.update_ambulance_location.
  destruct (ambulances db !! aid) as [a|] eqn:Ha; [|apply rtc_refl].
  cbn [snd]. eapply rtc_r; [|apply write_location_update].
  apply rtc_once. eapply write_ambulance; [exact Ha|]. by left.
Qed.

Lemma assign_ambulance_writes side db pid aid :
  rtc (write side) db (ReferralService.assign_ambulance db pid aid).2.
Proof.
  unfold ReferralService.assign_ambulance, get_patient_by_id.
  destruct (patients db !! pid) as [p|] eqn:Hp; [|apply rtc_refl].
  cbn [snd].
  assert (Hpat : write side db (set_patients (insert pid (assigned_to aid p)) db)).
  { by eapply write_patient. }
  unfold update_ambulance_status.
  change (ambulances (set_patients _ db)) with (ambulances db).
  destruct (ambulances db !! aid) as [a|] eqn:Ha; [|by apply rtc_once].
  eapply rtc_r; [by apply rtc_once|].
  destruct (decide (pid = "")) as [->|Hne].
  - apply write_ambulance_anonymous; [exact Ha|].
    cbn [patients set_patients]. by rewrite lookup_insert_eq.
  - rewrite (truthy_Some _ Hne).
    eapply write_ambulance; [exact Ha|].
    right; left. split; [done|]. by eexists.
Qed.

Lemma active_patient_lookup db user_hospital (patient : string * Patient.t) :
  patient ∈ ReferralUI.active_patients db user_hospital →
  patients db !! patient.1 = Some patient.2.
Proof.
  unfold ReferralUI.active_patients, get_all_patients.
  repeat case_match; intros Hin; by apply filter_rows_lookup in Hin as [Hl _].
Qed.

Lemma create_referral_form_writes side db user form token :
  rtc (write side) db (ReferralUI.create_referral_form db user form token).2.
Proof.
  unfold ReferralUI.create_referral_form.
  destruct (selectbox _ (ReferralUI.referring_hospital form)) as [referring|];
    [|apply rtc_refl].
  destruct (selectbox _ (ReferralUI.receiving_hospital form)) as [receiving|];
    [|apply rtc_refl].
  destruct (selectbox _ (ReferralUI.ambulance_choice form)) as [choice|];
    [|apply rtc_refl].
  destruct (negb (forallb id _)); [apply rtc_refl|].
  destruct (String.eqb referring receiving) eqn:Hsame; [apply rtc_refl|].
  apply String.eqb_neq in Hsame.
  destruct (ReferralUI.hospital_row referring) as [d1|]; [|apply rtc_refl].
  destruct (ReferralUI.hospital_row receiving) as [d2|]; [|apply rtc_refl].
  unfold ReferralService.create_referral, add_patient.
  cbn [PatientData.patient_id PatientData.with_created_by].
  destruct (patients db !! ("PAT" +:+ token)) as [q|] eqn:Hq; [apply rtc_refl|].
  cbn [snd]. eapply rtc_r; [|apply write_referral].
  apply rtc_once. by apply (write_new_patient _ _ token).
Qed.

Lemma confirm_assignment_writes side db user pc ac :
  rtc (write side) db (ReferralUI.confirm_assignment db user pc ac).2.
Proof.
  unfold ReferralUI.confirm_assignment.
  destruct (ReferralUI.active_patients db (hospital user) !! pc) as [patient|];
    [|apply rtc_refl].
  destruct (get_available_ambulances db) as [|amb0 rest]; [apply rtc_refl|].
  cbv zeta.
  destruct (selectbox (List.map ambulance_label (amb0 :: rest)) ac)
    as [selected|]; [|apply rtc_refl].
  pose proof (assign_ambulance_writes side db patient.1 (split_label selected))
    as Hw.
  by destruct (ReferralService.assign_ambulance db patient.1
                 (split_label selected)) as [[|] db'].
Qed.

Lemma update_status_writes side db user pc sc :
  rtc (write side) db (ReferralUI.update_status db user pc sc).2.
Proof.
  unfold ReferralUI.update_status.
  destruct (ReferralUI.active_patients db (hospital user) !! pc) as [patient|] eqn:Hp;
    [|apply rtc_refl].
  destruct (selectbox ReferralUI.status_options sc) as [new_status|];
    [|apply rtc_refl].
  apply list_elem_of_lookup_2, active_patient_lookup in Hp.
  cbn [snd]. apply rtc_once. by eapply write_patient.
Qed.

Lemma create_handover_form_writes side db user choice form :
  rtc (write side) db (HandoverUI.create_handover_form db user choice form).2.
Proof.
  destruct (create_handover_form_cases db user choice form)
    as [[-> _]|(sel & Hsel & _ & ->)]; [apply rtc_refl|].
  apply selectbox_elem, eligible_patient_lookup in Hsel as [Hl _].
  cbn [snd]. eapply rtc_r; [apply rtc_once, write_handover_form|].
  by eapply write_patient.
Qed.

Lemma available_patient_lookup db (patient : string * Patient.t) :
  patient ∈ DriverUI.available_patients db →
  patients db !! patient.1 = Some patient.2.
Proof.
  unfold DriverUI.available_patients, get_all_patients.
  intros Hin. by apply filter_rows_lookup in Hin as [Hl _].
Qed.

Lemma driver_ambulance_lookup db driver_name (ambulance : string * Ambulance.t) :
  DriverUI.driver_ambulance db driver_name = Some ambulance →
  ambulances db !! ambulance.1 = Some ambulance.2.
Proof.
  unfold DriverUI.driver_ambulance, get_all_ambulances. intros Hf.
  apply find_some in Hf as [Hin _]. apply list_elem_of_In in Hin.
  destruct ambulance as [k a]. by apply elem_of_map_to_list.
Qed.

Lemma current_mission_writes side db ambulance patient c :
  ambulances db !! ambulance.1 = Some ambulance.2 →
  patients db !! patient.1 = Some patient.2 →
  rtc (write side) db (DriverUI.current_mission db ambulance patient c).
Proof.
  intros Ha Hp. destruct c; cbn [DriverUI.current_mission]; try apply rtc_refl.
  - apply update_ambulance_location_writes.
  - unfold DriverUI.send_message.
    destruct (selectbox _ recipient); [|apply rtc_refl].
    destruct (String.eqb message ""); [apply rtc_refl|].
    apply add_communications_writes.
  - unfold DriverUI.quick_update.
    destruct (DriverUI.quick_messages !! label) as [[? ?]|]; [|apply rtc_refl].
    apply add_communications_writes.
  - unfold DriverUI.show_vitals_form.
    eapply rtc_trans; [|apply add_communications_writes].
    apply rtc_once. by eapply write_patient.
  - apply update_ambulance_location_writes.
  - apply add_communications_writes.
  - unfold DriverUI.complete_mission.
    eapply rtc_trans; [|apply add_communications_writes].
    eapply rtc_r; [|by eapply write_patient].
    apply rtc_once. eapply write_ambulance; [exact Ha|].
    right; right; left. done.
Qed.

Lemma available_missions_writes side db ambulance c :
  ambulances db !! ambulance.1 = Some ambulance.2 →
  rtc (write side) db (DriverUI.available_missions db ambulance c).1.
Proof.
  intros Ha. destruct c; cbn [DriverUI.available_missions fst];
    try apply rtc_refl.
  destruct (DriverUI.available_patients db !! mission) as [patient|] eqn:Hm;
    [|apply rtc_refl].
  apply list_elem_of_lookup_2, available_patient_lookup in Hm.
  cbn [fst]. eapply rtc_r; [|by eapply write_patient].
  apply rtc_once. eapply write_ambulance; [exact Ha|].
  right; left. split; [done|]. by eexists.
Qed.

Lemma quick_actions_writes db aid c :
  rtc (write (side_click c)) db (DriverUI.quick_actions db aid c).
Proof.
  unfold DriverUI.quick_actions.
  destruct (ambulances db !! aid) as [a|] eqn:Ha; [|apply rtc_refl].
  destruct c; try apply rtc_refl;
    apply rtc_once; (eapply write_ambulance; [exact Ha|]).
  - right; right; left. done.
  - right; right; right. split; [done|]. split; [by left|done].
  - right; right; right. split; [done|]. split; [by right|done].
Qed.

Lemma display_driver_dashboard_writes db user c :
  rtc (write (side_click c)) db (DriverUI.display_driver_dashboard db user c).1.
Proof.
  unfold DriverUI.display_driver_dashboard.
  destruct (DriverUI.driver_ambulance db _) as [ambulance|] eqn:Hd;
    [|apply rtc_refl].
  apply driver_ambulance_lookup in Hd.
  cbn [fst]. eapply rtc_trans; [|apply quick_actions_writes].
  destruct (truthy _ && String.eqb _ "On Transfer").
  - destruct (Ambulance.current_patient ambulance.2) as [pid|]; [|apply rtc_refl].
    destruct (get_patient_by_id db pid) as [p|] eqn:Hp; [|apply rtc_refl].
    cbn [fst]. by apply (current_mission_writes _ db ambulance (pid, p)).
  - destruct (String.eqb _ "Available"); [|apply rtc_refl].
    by apply available_missions_writes.
Qed.

Lemma write_sample_writes side aid pid s w :
  rtc (write side) (db w) (db (write_sample aid pid s w)).
Proof. apply update_ambulance_location_writes. Qed.

Lemma mark_arrived_writes side aid w :
  rtc (write side) (db w) (db (mark_arrived aid w)).
Proof.
  unfold mark_arrived.
  destruct (ambulances (db w) !! aid) as [a|] eqn:Ha; [|apply rtc_refl].
  apply rtc_once. eapply write_ambulance; [exact Ha|].
  right; right; left. done.
Qed.

(** Every operation is a sequence of writes, and only the two side actions
    need the writes that put an ambulance on break or in maintenance. *)
Lemma perform_writes a w :
  rtc (write (side_action a)) (db w) (db (perform a w)).
Proof.
  destruct a; cbn [perform db].
  - apply create_referral_form_writes.
  - apply confirm_assignment_writes.
  - apply update_status_writes.
  - apply create_handover_form_writes.
  - apply display_driver_dashboard_writes.
  - apply rtc_refl.
  - apply rtc_refl.
  - destruct (running w); [apply write_sample_writes|apply rtc_refl].
  - destruct (running w); [apply mark_arrived_writes|apply rtc_refl].
Qed.

(** ** What a write preserves *)

Lemma write_hospitals_differ side db db' :
  write side db db' → hospitals_differ db → hospitals_differ db'.
Proof.
  intros Hw Hinv.
  destruct Hw as [token p Hn Hd|pid p p' Hp H1 H2|aid a a' Ha Hu|aid a Ha Hanon|r|h|c|u];
    try exact Hinv; intros k q; cbn [patients set_patients].
  - destruct (decide ("PAT" +:+ token = k)) as [<-|Hk].
    + rewrite lookup_insert_eq. by intros [= <-].
    + rewrite lookup_insert_ne by done. apply Hinv.
  - destruct (decide (pid = k)) as [<-|Hk].
    + rewrite lookup_insert_eq. intros [= <-]. rewrite H1, H2. by eapply Hinv.
    + rewrite lookup_insert_ne by done. apply Hinv.
Qed.

Lemma write_no_empty_patient_id side db db' :
  write side db db' → no_empty_patient_id db → no_empty_patient_id db'.
Proof.
  unfold no_empty_patient_id. intros Hw Hinv.
  destruct Hw as [token p Hn Hd|pid p p' Hp H1 H2|aid a a' Ha Hu|aid a Ha Hanon|r|h|c|u];
    try exact Hinv; cbn [patients set_patients].
  - rewrite lookup_insert_ne; [done|discriminate].
  - rewrite lookup_insert_ne; [done|]. intros ->. by rewrite Hinv in Hp.
Qed.

Lemma write_on_transfer_has_patient side db db' :
  write side db db' → no_empty_patient_id db →
  on_transfer_has_patient db → on_transfer_has_patient db'.
Proof.
  intros Hw Hid Hinv.
  destruct Hw as [token p Hn Hd|pid p p' Hp H1 H2|aid a a' Ha Hu|aid a Ha Hanon|r|h|c|u];
    try exact Hinv.
  - intros k b. cbn [ambulances set_ambulances].
    destruct (decide (aid = k)) as [<-|Hk].
    + rewrite lookup_insert_eq. intros [= <-] Hst.
      destruct Hu as [[Hs Hc]|[[_ Hc]|[[Hs _]|(_ & [Hs|Hs] & _)]]].
      * rewrite Hc. rewrite Hs in Hst. by eapply Hinv.
      * done.
      * by rewrite Hs in Hst.
      * by rewrite Hs in Hst.
      * by rewrite Hs in Hst.
    + rewrite lookup_insert_ne by done. apply Hinv.
  - unfold no_empty_patient_id in Hid. rewrite Hid in Hanon.
    by destruct Hanon.
Qed.

Lemma write_patient_means_on_transfer db db' :
  write false db db' →
  patient_means_on_transfer db → patient_means_on_transfer db'.
Proof.
  intros Hw Hinv.
  destruct Hw as [token p Hn Hd|pid p p' Hp H1 H2|aid a a' Ha Hu|aid a Ha Hanon|r|h|c|u];
    try exact Hinv.
  - intros k b. cbn [ambulances set_ambulances].
    destruct (decide (aid = k)) as [<-|Hk].
    + rewrite lookup_insert_eq. intros [= <-] Hsome.
      destruct Hu as [[Hs Hc]|[[Hs _]|[[_ Hc]|(Hside & _)]]].
      * rewrite Hs. rewrite Hc in Hsome. by eapply Hinv.
      * done.
      * rewrite Hc in Hsome. by destruct Hsome.
      * done.
    + rewrite lookup_insert_ne by done. apply Hinv.
  - intros k b. cbn [ambulances set_ambulances].
    destruct (decide (aid = k)) as [<-|Hk].
    + rewrite lookup_insert_eq. by intros [= <-] _.
    + rewrite lookup_insert_ne by done. apply Hinv.
Qed.

Lemma write_location_updates side db db' :
  write side db db' → location_updates db `prefix_of` location_updates db'.
Proof.
  destruct 1; cbn [location_updates set_patients set_ambulances add_referral
                   add_handover_form add_communication add_location_update];
    try done.
  by apply prefix_app_r.
Qed.

Lemma write_ambulance_exists side db db' k :
  write side db db' →
  is_Some (ambulances db !! k) → is_Some (ambulances db' !! k).
Proof.
  destruct 1 as [token p Hn Hd|pid p p' Hp H1 H2|aid a a' Ha Hu|aid a Ha Hanon|r|h|c|u];
    try done; intros Hk; cbn [ambulances set_ambulances];
    apply lookup_insert_is_Some; (destruct (decide (aid = k)); [by left|by right]).
Qed.

(** The invariants, along a sequence of writes. *)
Lemma writes_preserve side db db' :
  rtc (write side) db db' →
  (hospitals_differ db → hospitals_differ db')
  ∧ (no_empty_patient_id db → no_empty_patient_id db')
  ∧ (no_empty_patient_id db → on_transfer_has_patient db →
     on_transfer_has_patient db')
  ∧ location_updates db `prefix_of` location_updates db'
  ∧ (∀ k, is_Some (ambulances db !! k) → is_Some (ambulances db' !! k)).
Proof.
  induction 1 as [db|db1 db2 db3 Hw _ (IH1 & IH2 & IH3 & IH4 & IH5)].
  { repeat split; done. }
  split; [|split; [|split; [|split]]].
  - intros H. by eapply IH1, write_hospitals_differ.
  - intros H. by eapply IH2, write_no_empty_patient_id.
  - intros Hid H. apply IH3.
    + by eapply write_no_empty_patient_id.
    + by eapply write_on_transfer_has_patient.
  - etrans; [by eapply write_location_updates|done].
  - intros k H. by eapply IH5, write_ambulance_exists.
Qed.

Lemma writes_preserve_equivalence db db' :
  rtc (write false) db db' →
  patient_means_on_transfer db → patient_means_on_transfer db'.
Proof.
  induction 1 as [db|db1 db2 db3 Hw _ IH]; [done|].
  intros H. by eapply IH, write_patient_means_on_transfer.
Qed.

(** ** The seeded store *)

Lemma initial_ambulances aid a :
  ambulances (db initial_world) !! aid = Some a →
  Ambulance.status a = "Available" ∧ Ambulance.current_patient a = None.
Proof.
  intros Hl. apply elem_of_map_to_list, list_elem_of_In in Hl.
  assert (Hall : forallb
                   (λ row : string * Ambulance.t,
                      String.eqb (Ambulance.status row.2) "Available"
                      && negb (is_Some_b (Ambulance.current_patient row.2)))
                   (map_to_list (ambulances (db initial_world))) = true)
    by (vm_compute; reflexivity).
  rewrite forallb_forall in Hall. specialize (Hall _ Hl). cbn [snd] in Hall.
  apply andb_true_iff in Hall as [Hs Hc]. apply String.eqb_eq in Hs.
  split; [done|]. by destruct (Ambulance.current_patient a).
Qed.

Lemma initial_patients : patients (db initial_world) = ∅.
Proof. vm_compute. reflexivity. Qed.

(** ** Reachable worlds *)

Lemma initial_invariant : reachable_invariant initial_world.
Proof.
  split; [|split].
  - intros pid p. by rewrite initial_patients, lookup_empty.
  - unfold no_empty_patient_id. by rewrite initial_patients, lookup_empty.
  - intros aid a Hl Hs. apply initial_ambulances in Hl as [Hav _].
    by rewrite Hav in Hs.
Qed.

Lemma perform_invariant a w :
  reachable_invariant w → reachable_invariant (perform a w).
Proof.
  intros (H1 & H2 & H3).
  destruct (writes_preserve _ _ _ (perform_writes a w)) as (P1 & P2 & P3 & _).
  split; [|split]; auto.
Qed.

Lemma run_invariant actions w :
  reachable_invariant w → reachable_invariant (run actions w).
Proof.
  unfold run. revert w.
  induction actions as [|a actions IH]; intros w Hw; [done|].
  simpl. by apply IH, perform_invariant.
Qed.

Lemma run_equivalence actions w :
  forallb (λ a, negb (side_action a)) actions = true →
  reachable_invariant w →
  patient_means_on_transfer (db w) →
  patient_means_on_transfer (db (run actions w)).
Proof.
  unfold run. revert w.
  induction actions as [|a actions IH]; intros w Hact Hw Hinv; [done|].
  simpl in Hact. apply andb_true_iff in Hact as [Ha Hact].
  apply negb_true_iff in Ha.
  simpl. apply IH; [done|by apply perform_invariant|].
  pose proof (perform_writes a w) as Hwr. rewrite Ha in Hwr.
  by eapply writes_preserve_equivalence.
Qed.

(** ** The loop of the simulator *)

Lemma perform_keeps_running a w :
  is_stop a = false → running w = true → running (perform a w) = true.
Proof.
  intros Hs Hr. destruct a; cbn [perform running]; try done.
  - by rewrite Hr.
  - rewrite Hr. unfold mark_arrived. by destruct (ambulances (db w) !! _).
Qed.

Lemma run_keeps_running actions w :
  forallb (λ a, negb (is_stop a)) actions = true →
  running w = true → running (run actions w) = true.
Proof.
  unfold run. revert w.
  induction actions as [|a actions IH]; intros w Hact Hr; [done|].
  simpl in Hact. apply andb_true_iff in Hact as [Ha Hact].
  apply negb_true_iff in Ha. simpl. apply IH; [done|].
  by apply perform_keeps_running.
Qed.

Lemma run_writes actions w : rtc (write true) (db w) (db (run actions w)).
Proof.
  unfold run. revert w.
  induction actions as [|a actions IH]; intros w; [apply rtc_refl|].
  simpl. eapply rtc_trans; [|apply IH].
  pose proof (perform_writes a w) as Hw.
  destruct (side_action a); [done|by apply writes_side_weaken].
Qed.

Lemma uncancelled_step schedule (k : nat) :
  uncancelled schedule = true → (k ≤ steps)%nat →
  forallb (λ a, negb (is_stop a)) (schedule k) = true.
Proof.
  unfold uncancelled. rewrite forallb_forall. intros Hall Hk.
  apply Hall, in_seq. lia.
Qed.

Lemma write_sample_found aid pid s w :
  is_Some (ambulances (db w) !! aid) →
  location_updates (db (write_sample aid pid s w))
  = (location_updates (db w) ++ [location_row aid pid s])%list.
Proof.
  intros [a Ha]. unfold write_sample, AmbulanceService.update_ambulance_location.
  by rewrite Ha.
Qed.

Section Loop.

Variable schedule : nat → list action.
Variables aid pid : string.
Variables start_lat start_lng end_lat end_lng : float.

Local Abbreviation loop := (simulation_loop schedule aid pid start_lat start_lng end_lat end_lng).
Local Abbreviation sample_of :=
  (sample_at start_lat start_lng (lat_step start_lat end_lat)
     (lng_step start_lng end_lng) steps).

Lemma loop_stopped todo w : running w = false → loop todo w = (w, []).
Proof. intros Hr. destruct todo; simpl; [done|]. by rewrite Hr. Qed.

Lemma loop_app l1 l2 w :
  loop (l1 ++ l2) w
  = ((loop l2 (loop l1 w).1).1, ((loop l1 w).2 ++ (loop l2 (loop l1 w).1).2)%list).
Proof.
  revert w. induction l1 as [|step l1 IH]; intros w.
  { simpl. by destruct (loop l2 w). }
  simpl. destruct (running w) eqn:Hr; simpl.
  - by rewrite IH.
  - by rewrite (loop_stopped l2 w Hr).
Qed.

Lemma loop_writes todo w : rtc (write true) (db w) (db (loop todo w).1).
Proof.
  revert w. induction todo as [|step todo IH]; intros w; [apply rtc_refl|].
  simpl. destruct (running w); simpl; [|apply rtc_refl].
  eapply rtc_trans; [apply write_sample_writes|].
  eapply rtc_trans; [apply run_writes|apply IH].
Qed.

Lemma loop_location_updates todo w :
  location_updates (db w) `prefix_of` location_updates (db (loop todo w).1).
Proof. by destruct (writes_preserve _ _ _ (loop_writes todo w)) as (_ & _ & _ & ? & _). Qed.

Lemma loop_uncancelled todo w :
  (∀ k, k ∈ todo → forallb (λ a, negb (is_stop a)) (schedule k) = true) →
  running w = true →
  (loop todo w).2 = sample_of <$> todo ∧ running (loop todo w).1 = true.
Proof.
  revert w. induction todo as [|step todo IH]; intros w Hsched Hr; [done|].
  simpl. rewrite Hr. simpl.
  destruct (IH (run (schedule step) (write_sample aid pid (sample_of step) w)))
    as [IH1 IH2].
  - intros k Hk. apply Hsched. by apply list_elem_of_further.
  - apply run_keeps_running; [|done]. apply Hsched, list_elem_of_here.
  - by rewrite IH1.
Qed.

Lemma loop_rows todo w :
  is_Some (ambulances (db w) !! aid) →
  ∀ s, s ∈ (loop todo w).2 →
       location_row aid pid s ∈ location_updates (db (loop todo w).1).
Proof.
  revert w. induction todo as [|step todo IH]; intros w Ha s; simpl.
  { by intros ?%elem_of_nil. }
  destruct (running w); simpl; [|by intros ?%elem_of_nil].
  set (w1 := write_sample aid pid (sample_of step) w).
  set (w2 := run (schedule step) w1).
  assert (Ha1 : is_Some (ambulances (db w1) !! aid)).
  { by destruct (writes_preserve _ _ _ (write_sample_writes true aid pid (sample_of step) w))
      as (_ & _ & _ & _ & He); apply He. }
  assert (Ha2 : is_Some (ambulances (db w2) !! aid)).
  { by destruct (writes_preserve _ _ _ (run_writes (schedule step) w1))
      as (_ & _ & _ & _ & He); apply He. }
  intros [->|Hin]%elem_of_cons; [|by apply IH].
  assert (Hin1 : location_row aid pid (sample_of step) ∈ location_updates (db w1)).
  { subst w1. rewrite write_sample_found by done.
    apply elem_of_app. right. apply list_elem_of_here. }
  assert (Hpre : location_updates (db w1) `prefix_of`
                 location_updates (db (loop todo w2).1)).
  { etrans; [|apply loop_location_updates].
    by destruct (writes_preserve _ _ _ (run_writes (schedule step) w1))
      as (_ & _ & _ & ? & _). }
  destruct Hpre as [rest ->]. apply elem_of_app. by left.
Qed.

End Loop.

Lemma mark_arrived_found aid w a :
  ambulances (db w) !! aid = Some a →
  mark_arrived aid w
  = mkWorld (set_ambulances (insert aid (released a)) (db w)) (running w).
Proof. intros Ha. unfold mark_arrived. by rewrite Ha. Qed.

Lemma mark_arrived_patients aid w :
  patients (db (mark_arrived aid w)) = patients (db w).
Proof. unfold mark_arrived. by destruct (ambulances (db w) !! aid). Qed.

Lemma mark_arrived_location_updates aid w :
  location_updates (db (mark_arrived aid w)) = location_updates (db w).
Proof. unfold mark_arrived. by destruct (ambulances (db w) !! aid). Qed.

Lemma float_of_steps : float_of_nat steps = 20%float.
Proof. vm_compute. reflexivity. Qed.

Lemma pretty_steps : pretty steps = "20".
Proof. vm_compute. reflexivity. Qed.

Lemma start_simulation_unfold schedule aid pid slat slng elat elng w :
  start_simulation schedule aid pid slat slng elat elng w
  = if running (loop_left schedule aid pid slat slng elat elng w)
    then (mark_arrived aid (loop_left schedule aid pid slat slng elat elng w),
          (simulation_loop schedule aid pid slat slng elat elng
             (seq 0 (steps + 1)) (mkWorld (db w) true)).2)
    else simulation_loop schedule aid pid slat slng elat elng
           (seq 0 (steps + 1)) (mkWorld (db w) true).
Proof. unfold start_simulation, loop_left. cbv zeta. reflexivity. Qed.

Lemma start_simulation_world schedule aid pid slat slng elat elng w :
  (start_simulation schedule aid pid slat slng elat elng w).1
  = if running (loop_left schedule aid pid slat slng elat elng w)
    then mark_arrived aid (loop_left schedule aid pid slat slng elat elng w)
    else loop_left schedule aid pid slat slng elat elng w.
Proof.
  rewrite start_simulation_unfold. unfold loop_left.
  set (r := simulation_loop schedule aid pid slat slng elat elng
              (seq 0 (steps + 1)) (mkWorld (db w) true)).
  clearbody r. destruct (running r.1); cbn [fst]; reflexivity.
Qed.

Lemma loop_left_uncancelled schedule aid pid slat slng elat elng w :
  uncancelled schedule = true →
  (simulation_loop schedule aid pid slat slng elat elng
     (seq 0 (steps + 1)) (mkWorld (db w) true)).2
  = interpolation slat slng elat elng
  ∧ running (loop_left schedule aid pid slat slng elat elng w) = true.
Proof.
  intros Hun. unfold loop_left, interpolation.
  apply loop_uncancelled; [|reflexivity].
  intros k Hk%list_elem_of_In%in_seq. apply uncancelled_step; [exact Hun|lia].
Qed.

Lemma start_simulation_uncancelled schedule aid pid slat slng elat elng w :
  uncancelled schedule = true →
  start_simulation schedule aid pid slat slng elat elng w
  = (mark_arrived aid (loop_left schedule aid pid slat slng elat elng w),
     interpolation slat slng elat elng).
Proof.
  intros Hun. rewrite start_simulation_unfold.
  destruct (loop_left_uncancelled schedule aid pid slat slng elat elng w Hun)
    as [Hs Hr].
  rewrite Hr, Hs. reflexivity.
Qed.

Lemma loop_left_exists schedule aid pid slat slng elat elng w k :
  is_Some (ambulances (db w) !! k) →
  is_Some (ambulances (db (loop_left schedule aid pid slat slng elat elng w)) !! k).
Proof.
  intros Hk. unfold loop_left.
  destruct (writes_preserve _ _ _
              (loop_writes schedule aid pid slat slng elat elng
                 (seq 0 (steps + 1)) (mkWorld (db w) true)))
    as (_ & _ & _ & _ & He).
  apply He. exact Hk.
Qed.

(** ** "Confirm Assignment" *)

(** What "Confirm Assignment" does: nothing, or the assignment of the
    listed patient to the ambulance that the chosen label is read as. *)
Lemma confirm_assignment_cases db user pc ac :
  (ReferralUI.confirm_assignment db user pc ac).2 = db
  ∧ (∀ msg, (ReferralUI.confirm_assignment db user pc ac).1 ≠ st_success msg)
  ∨ ∃ patient amb,
      ReferralUI.active_patients db (hospital user) !! pc = Some patient
      ∧ get_available_ambulances db !! ac = Some amb
      ∧ ReferralUI.confirm_assignment db user pc ac
        = (st_success "Ambulance assigned successfully!",
           update_ambulance_status
             (set_patients
                (insert patient.1
                   (assigned_to (split_label (ambulance_label amb)) patient.2))
                db)
             (split_label (ambulance_label amb)) "On Transfer"
             (Some patient.1)).
Proof.
  unfold ReferralUI.confirm_assignment.
  destruct (ReferralUI.active_patients db (hospital user) !! pc)
    as [patient|] eqn:Hp; [|by left].
  destruct (get_available_ambulances db) as [|amb0 rest] eqn:Hav; [by left|].
  cbv zeta. unfold selectbox. rewrite lookup_map.
  destruct ((amb0 :: rest) !! ac) as [amb|] eqn:Hsel; [|by left].
  cbn [fmap option_fmap option_map].
  right. exists patient, amb. split; [done|]. split; [done|].
  apply list_elem_of_lookup_2, active_patient_lookup in Hp.
  by rewrite (assign_ambulance_known _ _ _ _ Hp).
Qed.

(** "Confirm Assignment" leaves alone every ambulance that is not
    available, when the identifiers of the ambulances offered are plain. *)
Lemma confirm_assignment_needs_available db user pc ac k a :
  (∀ amb, amb ∈ get_available_ambulances db → plain_id amb.1) →
  ambulances db !! k = Some a → Ambulance.status a ≠ "Available" →
  ambulances (ReferralUI.confirm_assignment db user pc ac).2 !! k = Some a.
Proof.
  intros Hplain Ha Hs.
  destruct (confirm_assignment_cases db user pc ac)
    as [[-> _]|(patient & amb & _ & Hsel & ->)]; [done|].
  apply list_elem_of_lookup_2 in Hsel.
  rewrite (split_label_plain amb) by by apply Hplain.
  apply available_ambulance_lookup in Hsel as [Hl Hst].
  assert (Hne : k ≠ amb.1).
  { intros ->. rewrite Hl in Ha. injection Ha as <-. done. }
  cbn [snd]. rewrite update_ambulance_status_other by done. exact Ha.
Qed.

Lemma plain_ids_checked {V : Type} (rows : list (string * V)) :
  forallb (λ row, String.eqb (split_label (row.1 +:+ " - ")) row.1) rows = true →
  ∀ row, row ∈ rows → plain_id row.1.
Proof.
  rewrite forallb_forall. intros Hall row Hin%list_elem_of_In.
  apply String.eqb_eq. by apply (Hall row).
Qed.
(** C10.  [update_ambulance_status] called without a patient identifier
    leaves every column of every ambulance as it was, except the status of
    the ambulance it names, which becomes the given status; in particular
    [current_patient] keeps its value, whatever the new status is, and the
    other tables are untouched. *)
Theorem update_ambulance_status_keeps_current_patient
    (db : Database) (ambulance_id status k : string) (a : Ambulance.t) :
  ambulances db !! k = Some a →
  let db' := update_ambulance_status db ambulance_id status None in
  ambulances db' !! k
  = Some (if decide (k = ambulance_id) then Ambulance.with_status status a else a)
  ∧ (∀ a', ambulances db' !! k = Some a' →
           Ambulance.current_patient a' = Ambulance.current_patient a)
  ∧ dom (ambulances db') = dom (ambulances db)
  ∧ patients db' = patients db
  ∧ location_updates db' = location_updates db.
Proof.
  intros Ha db'.
  assert (Hk : ambulances db' !! k
               = Some (if decide (k = ambulance_id)
                       then Ambulance.with_status status a else a)).
  { subst db'. unfold update_ambulance_status. case_decide as Hd.
    - subst k. rewrite Ha. simpl. by rewrite lookup_insert_eq.
    - destruct (ambulances db !! ambulance_id); [|done].
      simpl. by rewrite lookup_insert_ne. }
  split; [done|]. split.
  { intros a' Ha'. rewrite Hk in Ha'. injection Ha' as <-.
    by case_decide. }
  subst db'. unfold update_ambulance_status.
  destruct (ambulances db !! ambulance_id) as [b|] eqn:Hb; [|done].
  simpl. split; [|done].
  apply dom_insert_lookup_L. by rewrite Hb.
Qed.

Lemma update_ambulance_status_keeps_current_patient_witness :
  ambulances store_P1_assigned !! A1
  = Some (dispatched_for P1
            (sample_ambulance
               ("KBA 453D", JOOTRH, (-0.0754)%float, 34.7695%float, "Available",
                "John Omondi", "+254712345678")).2)
  ∧ (let db' := update_ambulance_status store_P1_assigned A1 "Available" None in
     ∀ a', ambulances db' !! A1 = Some a' →
           Ambulance.current_patient a' = Some P1).
Proof.
  split; [vm_compute; reflexivity|].
  intros db' a'.
  apply (update_ambulance_status_keeps_current_patient store_P1_assigned A1
           "Available" A1 _ ltac:(vm_compute; reflexivity)).
Defined.

(** ** Is an assignment all or nothing? *)

(** C1, as stated, fails: for a known patient and an ambulance identifier
    that names no ambulance, the patient is marked as assigned although no
    ambulance record carries the patient. *)
Lemma assign_ambulance_partial_update :
  ¬ assign_all_or_nothing store_with_P1 P1 "KZZ 000A".
Proof.
  unfold assign_all_or_nothing, assign_fully_succeeded, assign_fully_failed.
  intros [(p & a & _ & _ & _ & Ha & _)|[Hp _]].
  - vm_compute in Ha. discriminate Ha.
  - vm_compute in Hp. discriminate Hp.
Qed.

(** C1, amended.  For an unknown patient the call returns [False] and the
    store is as before.  For a known patient it returns [True] and the
    patient gets status 'Ambulance Assigned' and the ambulance identifier;
    when the identifier names an ambulance (whatever its status) and the
    patient identifier is not empty, that ambulance gets status
    'On Transfer' and the patient as [current_patient], so both records
    agree; when it names none, no ambulance is changed and the update of
    the patient stays: nothing is rolled back. *)
Theorem assign_ambulance_outcomes (db : Database) (patient_id ambulance_id : string) :
  let r := ReferralService.assign_ambulance db patient_id ambulance_id in
  (patients db !! patient_id = None → r = (false, db))
  ∧ (∀ p, patients db !! patient_id = Some p →
       r.1 = true
       ∧ patients r.2 = <[patient_id := assigned_to ambulance_id p]> (patients db)
       ∧ (∀ a, ambulances db !! ambulance_id = Some a → patient_id ≠ "" →
            ambulances r.2
            = <[ambulance_id := dispatched_for patient_id a]> (ambulances db)
            ∧ assign_fully_succeeded r.2 patient_id ambulance_id)
       ∧ (ambulances db !! ambulance_id = None →
            ambulances r.2 = ambulances db
            ∧ patients r.2 !! patient_id = Some (assigned_to ambulance_id p))).
Proof.
  intros r. split.
  { intros Hp. by apply assign_ambulance_unknown. }
  intros p Hp. subst r. rewrite (assign_ambulance_known _ _ _ _ Hp). simpl.
  split; [done|]. split.
  { by rewrite update_ambulance_status_patients. }
  split.
  - intros a Ha Hne.
    assert (Hamb : ambulances
                     (update_ambulance_status
                        (set_patients (insert patient_id (assigned_to ambulance_id p)) db)
                        ambulance_id "On Transfer" (Some patient_id))
                   = <[ambulance_id := dispatched_for patient_id a]> (ambulances db)).
    { unfold update_ambulance_status.
      change (ambulances (set_patients _ db)) with (ambulances db).
      by rewrite Ha, (truthy_Some _ Hne). }
    split; [done|].
    exists (assigned_to ambulance_id p), (dispatched_for patient_id a).
    rewrite update_ambulance_status_patients, Hamb. simpl.
    by rewrite !lookup_insert_eq.
  - intros Ha. rewrite update_ambulance_status_missing by done.
    simpl. by rewrite lookup_insert_eq.
Qed.

Lemma assign_ambulance_outcomes_witness :
  patients store_with_P1 !! "PAT00000000" = None
  ∧ is_Some (patients store_with_P1 !! P1)
  ∧ is_Some (ambulances store_with_P1 !! A1)
  ∧ ambulances store_with_P1 !! "KZZ 000A" = None
  ∧ ReferralService.assign_ambulance store_with_P1 "PAT00000000" A1
    = (false, store_with_P1)
  ∧ assign_fully_succeeded store_P1_assigned P1 A1
  ∧ ambulances (ReferralService.assign_ambulance store_with_P1 P1 "KZZ 000A").2
    = ambulances store_with_P1.
Proof.
  assert (Hnone : patients store_with_P1 !! "PAT00000000" = None)
    by (vm_compute; reflexivity).
  assert (Hp : ∃ p, patients store_with_P1 !! P1 = Some p)
    by (eexists; vm_compute; reflexivity).
  assert (Ha : ∃ a, ambulances store_with_P1 !! A1 = Some a)
    by (eexists; vm_compute; reflexivity).
  assert (Hmiss : ambulances store_with_P1 !! "KZZ 000A" = None)
    by (vm_compute; reflexivity).
  destruct Hp as [p Hp], Ha as [a Ha].
  split; [exact Hnone|]. split; [by eexists|]. split; [by eexists|].
  split; [exact Hmiss|]. split; [|split].
  - exact (proj1 (assign_ambulance_outcomes store_with_P1 "PAT00000000" A1) Hnone).
  - refine (proj2 (proj1 (proj2 (proj2 (proj2
              (assign_ambulance_outcomes store_with_P1 P1 A1) p Hp))) a Ha _)).
    vm_compute. discriminate.
  - exact (proj1 (proj2 (proj2 (proj2 (proj2
              (assign_ambulance_outcomes store_with_P1 P1 "KZZ 000A") p Hp))) Hmiss)).
Defined.

(** ** Dispatching twice *)

(** C3, as stated, fails: a second dispatch of A1, for another patient and
    with no release in between, is accepted. *)
Lemma second_dispatch_accepted :
  ¬ second_dispatch_refused store_with_P1_P2 P1 P2 A1.
Proof.
  unfold second_dispatch_refused. intros [Hr _].
  vm_compute in Hr. discriminate Hr.
Qed.

(** The guard of the page is the label: on the twin fleet, with ['KBA']
    dispatched for P1 and ['KBA - 2'] the only ambulance offered, "Confirm
    Assignment" for P2 dispatches ['KBA'] again and leaves ['KBA - 2']
    available. *)
Remark label_prefix_dispatches :
  (∃ a, ambulances twin_fleet_P1_assigned !! "KBA" = Some a
        ∧ Ambulance.status a = "On Transfer"
        ∧ Ambulance.current_patient a = Some P1)
  ∧ fst <$> get_available_ambulances twin_fleet_P1_assigned = ["KBA - 2"]
  ∧ ∃ patient_choice a b,
      let r := ReferralUI.confirm_assignment twin_fleet_P1_assigned admin
                 patient_choice 0 in
      r.1 = st_success "Ambulance assigned successfully!"
      ∧ ambulances r.2 !! "KBA" = Some a
      ∧ Ambulance.current_patient a = Some P2
      ∧ ambulances r.2 !! "KBA - 2" = Some b
      ∧ Ambulance.status b = "Available".
Proof.
  split; [eexists; vm_compute; repeat split; reflexivity|].
  split; [vm_compute; reflexivity|].
  exists 0%nat. do 2 eexists. vm_compute. repeat split; reflexivity.
Qed.

(** C3, amended.  [assign_ambulance] does not look at the status of the
    ambulance: a second dispatch of the same ambulance with no release in
    between returns [True] and makes the second patient its
    [current_patient].  Availability is required by the referral page
    only: once dispatched, the ambulance is no longer among the ambulances
    the page offers.  "Confirm Assignment" does nothing, or assigns the
    ambulance named by the part of the chosen label before [" - "]; so when
    the identifiers of the ambulances offered are plain, that is, read back
    unchanged from their labels, as those of the seeded fleet are, it
    leaves the record of the dispatched ambulance as it is. *)
Theorem second_dispatch_overwrites (db : Database)
    (first second ambulance_id : string) (p1 p2 : Patient.t) (a : Ambulance.t) :
  patients db !! first = Some p1 → first ≠ "" →
  patients db !! second = Some p2 → second ≠ "" →
  ambulances db !! ambulance_id = Some a →
  let db1 := (ReferralService.assign_ambulance db first ambulance_id).2 in
  let r := ReferralService.assign_ambulance db1 second ambulance_id in
  (r.1 = true
   ∧ ambulances r.2 !! ambulance_id = Some (dispatched_for second a)
   ∧ (∃ p, patients r.2 !! second = Some p
           ∧ Patient.status p = "Ambulance Assigned"
           ∧ Patient.assigned_ambulance p = Some ambulance_id))
  ∧ (ambulance_id ∉ fst <$> get_available_ambulances db1)
  ∧ (∀ user patient_choice ambulance_choice,
       let page := ReferralUI.confirm_assignment db1 user patient_choice
                     ambulance_choice in
       page.2 = db1
       ∨ ∃ patient amb,
           patient ∈ ReferralUI.active_patients db1 (hospital user)
           ∧ amb ∈ get_available_ambulances db1
           ∧ page.2
             = (ReferralService.assign_ambulance db1 patient.1
                  (split_label (ambulance_label amb))).2)
  ∧ ((∀ amb, amb ∈ get_available_ambulances db1 → plain_id amb.1) →
     ∀ user patient_choice ambulance_choice,
       ambulances (ReferralUI.confirm_assignment db1 user patient_choice
                     ambulance_choice).2 !! ambulance_id
       = ambulances db1 !! ambulance_id).
Proof.
  intros Hp1 Hn1 Hp2 Hn2 Ha db1 r.
  destruct (assign_ambulance_dispatches db first ambulance_id p1 a Hp1 Hn1 Ha)
    as (_ & Hpat1 & Hamb1).
  fold db1 in Hpat1, Hamb1.
  assert (Ha1 : ambulances db1 !! ambulance_id = Some (dispatched_for first a)).
  { by rewrite Hamb1, lookup_insert_eq. }
  assert (Hp2' : ∃ q, patients db1 !! second = Some q).
  { rewrite Hpat1. apply lookup_insert_is_Some.
    destruct (decide (first = second)); [by left|right]. split; [done|].
    by rewrite Hp2. }
  destruct Hp2' as [q Hq].
  destruct (assign_ambulance_dispatches db1 second ambulance_id q _ Hq Hn2 Ha1)
    as (Hr & Hpat2 & Hamb2).
  fold r in Hr, Hpat2, Hamb2.
  split; [|split; [|split]].
  - split; [done|]. split.
    + by rewrite Hamb2, lookup_insert_eq.
    + exists (assigned_to ambulance_id q).
      by rewrite Hpat2, lookup_insert_eq.
  - intros Hin. apply list_elem_of_fmap in Hin as (amb & -> & Hin).
    apply available_ambulance_lookup in Hin as [Hl Hs].
    rewrite Ha1 in Hl. injection Hl as Heq. rewrite <- Heq in Hs.
    discriminate Hs.
  - intros user pc ac page. subst page.
    destruct (confirm_assignment_cases db1 user pc ac)
      as [[Hsame _]|(patient & amb & Hpc & Hac & Hpage)]; [by left|].
    right. exists patient, amb.
    apply list_elem_of_lookup_2 in Hpc, Hac.
    split; [done|]. split; [done|]. rewrite Hpage. cbn [snd].
    apply active_patient_lookup in Hpc.
    by rewrite (assign_ambulance_known _ _ _ _ Hpc).
  - intros Hplain user pc ac. rewrite Ha1.
    by apply confirm_assignment_needs_available.
Qed.

Lemma second_dispatch_overwrites_witness :
  (∃ a, ambulances store_with_P1_P2 !! A1 = Some a
        ∧ Ambulance.status a = "Available")
  ∧ (let db1 := (ReferralService.assign_ambulance store_with_P1_P2 P1 A1).2 in
     (ReferralService.assign_ambulance db1 P2 A1).1 = true
     ∧ (A1 ∉ fst <$> get_available_ambulances db1)
     ∧ ∀ user patient_choice ambulance_choice,
         ambulances (ReferralUI.confirm_assignment db1 user patient_choice
                       ambulance_choice).2 !! A1
         = ambulances db1 !! A1).
Proof.
  assert (Hp1 : ∃ p, patients store_with_P1_P2 !! P1 = Some p)
    by (eexists; vm_compute; reflexivity).
  assert (Hp2 : ∃ p, patients store_with_P1_P2 !! P2 = Some p)
    by (eexists; vm_compute; reflexivity).
  assert (Ha : ∃ a, ambulances store_with_P1_P2 !! A1 = Some a
                    ∧ Ambulance.status a = "Available")
    by (eexists; vm_compute; split; reflexivity).
  destruct Hp1 as [p1 Hp1], Hp2 as [p2 Hp2], Ha as (a & Ha & Hs).
  split; [by exists a|].
  assert (Hn1 : P1 ≠ "") by (vm_compute; discriminate).
  assert (Hn2 : P2 ≠ "") by (vm_compute; discriminate).
  pose proof (second_dispatch_overwrites store_with_P1_P2 P1 P2 A1 p1 p2 a
                Hp1 Hn1 Hp2 Hn2 Ha) as H.
  cbv zeta in H. destruct H as ((Hr & _) & Hnot & _ & Hpage).
  split; [exact Hr|]. split; [exact Hnot|].
  apply Hpage. apply plain_ids_checked. vm_compute. reflexivity.
Defined.

(** ** Release *)

Lemma mark_available_found db aid a :
  ambulances db !! aid = Some a →
  DriverUI.quick_actions db aid DriverUI.MarkAvailable
  = set_ambulances (insert aid (released a)) db.
Proof. intros Ha. unfold DriverUI.quick_actions. by rewrite Ha. Qed.

(** C9.  Take a store with a patient and an ambulance, whatever the status
    of the ambulance ('Available' in particular).  Assigning the ambulance gives the patient status
    'Ambulance Assigned' and the ambulance status 'On Transfer' with the
    patient as [current_patient].  Releasing the ambulance ("Mark
    Available") then gives it status 'Available' and no [current_patient],
    and changes nothing else: the table of patients is the same, so the
    patient keeps status 'Ambulance Assigned' and its ambulance. *)
Theorem release_leaves_patient (db : Database) (patient_id ambulance_id : string)
    (p : Patient.t) (a : Ambulance.t) :
  patients db !! patient_id = Some p → patient_id ≠ "" →
  ambulances db !! ambulance_id = Some a →
  let db1 := (ReferralService.assign_ambulance db patient_id ambulance_id).2 in
  let db2 := DriverUI.quick_actions db1 ambulance_id DriverUI.MarkAvailable in
  (∃ p1 a1,
     patients db1 !! patient_id = Some p1
     ∧ Patient.status p1 = "Ambulance Assigned"
     ∧ ambulances db1 !! ambulance_id = Some a1
     ∧ Ambulance.status a1 = "On Transfer"
     ∧ Ambulance.current_patient a1 = Some patient_id
     ∧ db2 = set_ambulances (insert ambulance_id (released a1)) db1
     ∧ patients db2 !! patient_id = Some p1)
  ∧ (∃ a2,
       ambulances db2 !! ambulance_id = Some a2
       ∧ Ambulance.status a2 = "Available"
       ∧ Ambulance.current_patient a2 = None)
  ∧ patients db2 = patients db1.
Proof.
  intros Hp Hne Ha db1 db2.
  destruct (assign_ambulance_dispatches db patient_id ambulance_id p a Hp Hne Ha)
    as (_ & Hpat & Hamb).
  fold db1 in Hpat, Hamb.
  assert (Ha1 : ambulances db1 !! ambulance_id = Some (dispatched_for patient_id a)).
  { by rewrite Hamb, lookup_insert_eq. }
  assert (Hdb2 : db2 = set_ambulances
                         (insert ambulance_id (released (dispatched_for patient_id a)))
                         db1).
  { subst db2. by apply mark_available_found. }
  split; [|split].
  - exists (assigned_to ambulance_id p), (dispatched_for patient_id a).
    rewrite Hdb2. cbn [patients set_patients set_ambulances].
    rewrite Hpat, lookup_insert_eq. done.
  - exists (released (dispatched_for patient_id a)).
    rewrite Hdb2. cbn [ambulances set_ambulances].
    by rewrite lookup_insert_eq.
  - by rewrite Hdb2.
Qed.

(** The scenario of the specification: P1 referred from JOOTRH to Kisumu
    County Referral Hospital, A1 of the seeded fleet. *)
Lemma release_leaves_patient_witness :
  (∃ p, patients store_with_P1 !! P1 = Some p
        ∧ Patient.referring_hospital p = JOOTRH
        ∧ Patient.receiving_hospital p = KCRH
        ∧ Patient.status p = "Referred")
  ∧ (∃ a, ambulances store_with_P1 !! A1 = Some a
          ∧ Ambulance.status a = "Available")
  ∧ (let db1 := (ReferralService.assign_ambulance store_with_P1 P1 A1).2 in
     let db2 := DriverUI.quick_actions db1 A1 DriverUI.MarkAvailable in
     (∃ a2, ambulances db2 !! A1 = Some a2
            ∧ Ambulance.status a2 = "Available"
            ∧ Ambulance.current_patient a2 = None)
     ∧ patients db2 = patients db1).
Proof.
  assert (Hp : ∃ p, patients store_with_P1 !! P1 = Some p
                    ∧ Patient.referring_hospital p = JOOTRH
                    ∧ Patient.receiving_hospital p = KCRH
                    ∧ Patient.status p = "Referred")
    by (eexists; vm_compute; repeat split; reflexivity).
  assert (Ha : ∃ a, ambulances store_with_P1 !! A1 = Some a
                    ∧ Ambulance.status a = "Available")
    by (eexists; vm_compute; split; reflexivity).
  split; [exact Hp|]. split; [exact Ha|].
  destruct Hp as (p & Hp & _), Ha as (a & Ha & Hs).
  assert (Hne : P1 ≠ "") by (vm_compute; discriminate).
  pose proof (release_leaves_patient store_with_P1 P1 A1 p a Hp Hne Ha) as H.
  cbv zeta in H. destruct H as (_ & Hrel & Hsame).
  split; [exact Hrel|exact Hsame].
Defined.
(** ** Handover *)

(** C7, as stated, fails: with P1 arrived and P2 only referred, the page
    offers P1 alone, and no submission with the physician filled in is
    answered by a failure: the handover of P2 cannot be attempted. *)
Lemma handover_not_refused : ¬ handover_refused store_P1_arrived_P2 admin.
Proof.
  intros Hrefused.
  assert (Hp2 : ∃ p, patients store_P1_arrived_P2 !! P2 = Some p
                     ∧ Patient.status p = "Referred")
    by (eexists; vm_compute; split; reflexivity).
  destruct Hp2 as (p2 & Hp2 & Hs2).
  destruct (Hrefused P2 p2 Hp2) as (choice & form & Hphys & Hfail & _).
  { rewrite Hs2. discriminate. }
  assert (Hone : ∃ sel, HandoverUI.eligible_patients store_P1_arrived_P2
                          (hospital admin) = [sel])
    by (eexists; vm_compute; reflexivity).
  destruct Hone as [sel Hone].
  unfold HandoverUI.create_handover_form in Hfail. rewrite Hone in Hfail.
  apply String.eqb_neq in Hphys.
  destruct choice as [|choice]; cbn in Hfail; [|exact Hfail].
  rewrite Hphys in Hfail. exact Hfail.
Qed.

(** C7, amended.  "Complete Handover" succeeds only for a patient whose
    status is 'Arrived at Destination': it then appends one handover form
    for that patient and sets the status to 'Completed' (success happens
    when such a patient is selected and the receiving physician is filled
    in).  A patient in any other status is never offered, so its handover
    cannot be attempted and no failure is reported for it: its record stays
    as it is and no form is created for it.  The page answers with
    success, with nothing, with the error that the receiving physician is
    missing, or, only when no patient is eligible for the user, with the
    message that no patient is eligible.  Whenever the page does not report
    success, the store is unchanged. *)
Theorem handover_requires_arrival (db : Database) (user : User)
    (patient_choice : nat) (form : HandoverUI.Form) :
  let r := HandoverUI.create_handover_form db user patient_choice form in
  (r.1 = st_success "Handover completed successfully!"
   ∨ r.1 = st_nothing
   ∨ r.1 = st_error "Please enter the receiving physician"
   ∨ (r.1 = st_info "No patients eligible for handover (must have status 'Arrived at Destination')"
      ∧ HandoverUI.eligible_patients db (hospital user) = []))
  ∧ (∀ msg, r.1 = st_success msg →
     ∃ pid p,
       patients db !! pid = Some p
       ∧ Patient.status p = "Arrived at Destination"
       ∧ handover_forms r.2
         = (handover_forms db ++ [HandoverUI.handover_data (pid, p) user form])%list
       ∧ patients r.2
         = <[pid := handed_over (HandoverUI.receiving_physician form) p]>
             (patients db)
       ∧ ∃ p', patients r.2 !! pid = Some p' ∧ Patient.status p' = "Completed")
  ∧ (∀ sel,
       selectbox (HandoverUI.eligible_patients db (hospital user)) patient_choice
       = Some sel →
       HandoverUI.receiving_physician form ≠ "" →
       r.1 = st_success "Handover completed successfully!")
  ∧ (∀ pid p,
       patients db !! pid = Some p →
       Patient.status p ≠ "Arrived at Destination" →
       patients r.2 !! pid = Some p
       ∧ (handover_forms r.2 = handover_forms db
          ∨ ∃ h, handover_forms r.2 = (handover_forms db ++ [h])%list
                 ∧ HandoverForm.patient_id h ≠ pid))
  ∧ ((∀ pid p, patients db !! pid = Some p →
               Patient.status p ≠ "Arrived at Destination") →
     r = (st_info "No patients eligible for handover (must have status 'Arrived at Destination')",
          db))
  ∧ ((∀ msg, r.1 ≠ st_success msg) → r.2 = db).
Proof.
  intros r. subst r. split.
  { unfold HandoverUI.create_handover_form.
    destruct (HandoverUI.eligible_patients db (hospital user)) as [|e0 rest];
      [by right; right; right|].
    destruct (selectbox (e0 :: rest) patient_choice); [|by right; left].
    destruct (String.eqb (HandoverUI.receiving_physician form) "");
      [by right; right; left|by left]. }
  destruct (create_handover_form_cases db user patient_choice form)
    as [[Hsame Hfail]|(sel & Hsel & Hphys & Hr)].
  - rewrite Hsame. split; [|split; [|split; [|split]]].
    + intros msg Hmsg. by destruct (Hfail msg).
    + intros sel Hsel Hphys. exfalso.
      unfold HandoverUI.create_handover_form in Hfail.
      destruct (HandoverUI.eligible_patients db (hospital user)) as [|e0 rest];
        [done|].
      rewrite Hsel in Hfail.
      apply String.eqb_neq in Hphys. rewrite Hphys in Hfail.
      by apply (Hfail "Handover completed successfully!").
    + intros pid p Hp _. split; [done|by left].
    + intros Hnone. unfold HandoverUI.create_handover_form.
      destruct (HandoverUI.eligible_patients db (hospital user)) as [|e0 rest] eqn:He;
        [done|].
      assert (Hin : e0 ∈ HandoverUI.eligible_patients db (hospital user)).
      { rewrite He. apply list_elem_of_here. }
      apply eligible_patient_lookup in Hin as [Hl Hs].
      by destruct (Hnone _ _ Hl).
    + done.
  - pose proof (selectbox_elem _ _ _ Hsel) as Hin.
    apply eligible_patient_lookup in Hin as [Hl Hs].
    rewrite Hr. cbn [fst snd].
    split; [|split; [|split; [|split]]].
    + intros msg _. exists sel.1, sel.2.
      split; [done|]. split; [done|].
      cbn [handover_forms patients set_patients add_handover_form].
      destruct sel as [pid p]. cbn [fst snd].
      split; [done|]. split; [done|].
      eexists. by rewrite lookup_insert_eq.
    + done.
    + intros pid p Hp Hst.
      cbn [handover_forms patients set_patients add_handover_form].
      assert (Hne : sel.1 ≠ pid).
      { intros <-. rewrite Hl in Hp. injection Hp as Heq.
        rewrite Heq in Hs. done. }
      split; [by rewrite lookup_insert_ne|].
      right. eexists. split; [done|]. done.
    + intros Hnone. by destruct (Hnone _ _ Hl).
    + intros Hfail. by destruct (Hfail "Handover completed successfully!").
Qed.

Lemma handover_requires_arrival_witness :
  (∃ p, patients store_P1_arrived !! P1 = Some p
        ∧ Patient.status p = "Arrived at Destination")
  ∧ (let r := HandoverUI.create_handover_form store_P1_arrived admin 0 P1_handover in
     r.1 = st_success "Handover completed successfully!"
     ∧ ∃ pid p,
         patients store_P1_arrived !! pid = Some p
         ∧ Patient.status p = "Arrived at Destination"
         ∧ handover_forms r.2
           = (handover_forms store_P1_arrived
                ++ [HandoverUI.handover_data (pid, p) admin P1_handover])%list
         ∧ patients r.2
           = <[pid := handed_over (HandoverUI.receiving_physician P1_handover) p]>
               (patients store_P1_arrived)
         ∧ ∃ p', patients r.2 !! pid = Some p' ∧ Patient.status p' = "Completed")
  ∧ (∃ p, patients store_P1_assigned !! P1 = Some p
          ∧ Patient.status p = "Ambulance Assigned")
  ∧ (let r := HandoverUI.create_handover_form store_P1_assigned admin 0 P1_handover in
     r.2 = store_P1_assigned).
Proof.
  split.
  { eexists; vm_compute; split; reflexivity. }
  split.
  { intros r.
    assert (Hok : r.1 = st_success "Handover completed successfully!")
      by (vm_compute; reflexivity).
    split; [exact Hok|].
    exact (proj1 (proj2 (handover_requires_arrival store_P1_arrived admin 0
                           P1_handover))
             _ Hok). }
  split.
  { eexists; vm_compute; split; reflexivity. }
  intros r.
  refine (proj2 (proj2 (proj2 (proj2 (proj2
            (handover_requires_arrival store_P1_assigned admin 0 P1_handover))))) _).
  intros msg Hmsg. vm_compute in Hmsg. discriminate Hmsg.
Defined.

(** ** Ambulances on transfer *)

(** C2, as stated, fails: after P1 has been assigned to A1, "Mark On Break"
    gives A1 the status 'On Break' and leaves P1 as its [current_patient]. *)
Lemma on_break_keeps_patient :
  ¬ transfer_equivalence
      (DriverUI.quick_actions store_P1_assigned A1 DriverUI.MarkOnBreak).
Proof.
  intros Heq.
  assert (Ha : ∃ a, ambulances (DriverUI.quick_actions store_P1_assigned A1
                                  DriverUI.MarkOnBreak) !! A1 = Some a
                    ∧ Ambulance.current_patient a = Some P1
                    ∧ Ambulance.status a = "On Break")
    by (eexists; vm_compute; repeat split; reflexivity).
  destruct Ha as (a & Ha & Hc & Hs).
  destruct (Heq A1 a Ha) as [Hto _].
  rewrite Hc, Hs in Hto. by specialize (Hto (mk_is_Some _ _ eq_refl)).
Qed.

(** C2, amended.  In every world reached from the seeded store by any
    sequence of operations, an ambulance whose status is 'On Transfer' has a
    [current_patient].  The converse, and so the equivalence, holds after
    every sequence of operations that uses neither "Mark On Break" nor
    "Maintenance": these two quick actions change the status and keep
    [current_patient]. *)
Theorem on_transfer_invariant (actions : list action) :
  let w := run actions initial_world in
  on_transfer_has_patient (db w)
  ∧ (forallb (λ a, negb (side_action a)) actions = true →
     transfer_equivalence (db w)).
Proof.
  intros w.
  destruct (run_invariant actions initial_world initial_invariant)
    as (_ & _ & Hto).
  split; [exact Hto|].
  intros Hact aid a Ha. split.
  - revert aid a Ha.
    apply (run_equivalence actions initial_world Hact initial_invariant).
    intros k b Hb Hsome. apply initial_ambulances in Hb as [_ Hc].
    rewrite Hc in Hsome. by destruct Hsome.
  - by apply (Hto aid a).
Qed.

Lemma on_transfer_invariant_witness :
  let w := run [ReferralSubmit hospital_staff P1_form "0A1B2C3D";
                ConfirmAssignment admin 0 8] initial_world in
  (∃ a, ambulances (db w) !! A1 = Some a
        ∧ Ambulance.status a = "On Transfer"
        ∧ Ambulance.current_patient a = Some P1)
  ∧ transfer_equivalence (db w).
Proof.
  intros w. split.
  - eexists. vm_compute. repeat split; reflexivity.
  - apply (on_transfer_invariant
             [ReferralSubmit hospital_staff P1_form "0A1B2C3D";
              ConfirmAssignment admin 0 8]).
    reflexivity.
Defined.

(** ** Referring and receiving hospital *)

(** C8.  The referral form, submitted with the same hospital on both sides
    or with a mandatory widget empty, reports an error and leaves the store
    as it is, so no patient is created.  In every world reached from the
    seeded store by any sequence of operations, the referring and the
    receiving hospital of every patient differ. *)
Theorem referral_hospitals_differ (actions : list action) (db0 : Database)
    (user : User) (form : ReferralUI.Form) (token : string) :
  (∀ referring receiving,
     selectbox (ReferralUI.get_referring_hospitals (hospital user))
       (ReferralUI.referring_hospital form) = Some referring →
     selectbox (ReferralUI.get_receiving_hospitals (hospital user))
       (ReferralUI.receiving_hospital form) = Some receiving →
     is_Some (selectbox (ReferralUI.ambulance_options db0)
                (ReferralUI.ambulance_choice form)) →
     referring = receiving ∨ mandatory_missing form →
     let r := ReferralUI.create_referral_form db0 user form token in
     (r.1 = st_error "Please fill in all required fields (*)"
      ∨ r.1 = st_error "Referring and receiving hospitals cannot be the same.")
     ∧ r.2 = db0)
  ∧ (∀ pid p,
       patients (db (run actions initial_world)) !! pid = Some p →
       Patient.referring_hospital p ≠ Patient.receiving_hospital p).
Proof.
  split.
  - intros referring receiving Href Hrec [choice Hch] Hbad r. subst r.
    unfold ReferralUI.create_referral_form. rewrite Href, Hrec, Hch.
    destruct (negb (forallb id _)) eqn:Hall; [by split; [left|]|].
    destruct (String.eqb referring receiving) eqn:Hsame; [by split; [right|]|].
    exfalso. apply String.eqb_neq in Hsame.
    apply negb_false_iff in Hall. cbn [forallb id] in Hall.
    apply andb_true_iff in Hall as [Hname%negb_true_iff%String.eqb_neq Hall].
    apply andb_true_iff in Hall as [Hage%negb_true_iff%Z.eqb_neq Hall].
    apply andb_true_iff in Hall as [Hcond%negb_true_iff%String.eqb_neq Hall].
    apply andb_true_iff in Hall as [Hphys%negb_true_iff%String.eqb_neq _].
    by destruct Hbad as [?|[?|[?|[?|?]]]].
  - destruct (run_invariant actions initial_world initial_invariant) as (Hd & _).
    exact Hd.
Qed.

Lemma referral_hospitals_differ_witness :
  (let r := ReferralUI.create_referral_form (db initial_world) kisumu_staff
              same_hospital_form "0A1B2C3D" in
   (r.1 = st_error "Please fill in all required fields (*)"
    ∨ r.1 = st_error "Referring and receiving hospitals cannot be the same.")
   ∧ r.2 = db initial_world)
  ∧ (∃ p, patients (db (run [ReferralSubmit hospital_staff P1_form "0A1B2C3D"]
                           initial_world)) !! P1 = Some p
          ∧ Patient.referring_hospital p ≠ Patient.receiving_hospital p).
Proof.
  split.
  - refine (proj1 (referral_hospitals_differ [] (db initial_world) kisumu_staff
                     same_hospital_form "0A1B2C3D") KCRH KCRH _ _ _ _).
    + vm_compute. reflexivity.
    + vm_compute. reflexivity.
    + eexists. vm_compute. reflexivity.
    + by left.
  - assert (Hp : ∃ p, patients (db (run [ReferralSubmit hospital_staff P1_form
                                           "0A1B2C3D"] initial_world)) !! P1
                      = Some p)
      by (eexists; vm_compute; reflexivity).
    destruct Hp as [p Hp]. exists p. split; [exact Hp|].
    exact (proj2 (referral_hospitals_differ
                    [ReferralSubmit hospital_staff P1_form "0A1B2C3D"]
                    (db initial_world) kisumu_staff same_hospital_form "0A1B2C3D")
             P1 p Hp).
Defined.

(** ** The samples of a run *)

(** C4, as stated, fails for some coordinates: from JOOTRH (-0.0754,
    34.7695) to Nyando District Hospital (-0.3573, 35.0006), two rows of
    [hospitals_df], the last sample has latitude -0.35730000000000006,
    which is not the latitude of the end. *)
Lemma misses_the_end :
  ¬ arrives_at_end (-0.0754) 34.7695 (-0.3573) 35.0006.
Proof.
  intros (s & Hs & Hlat & _).
  vm_compute in Hs. injection Hs as <-.
  vm_compute in Hlat. discriminate Hlat.
Qed.

(** The order of the operations matters: for the coordinates of the
    specification, the latitude of sample 12 is not what
    [start_lat + 12 * (end_lat - start_lat) / 20], evaluated from left to
    right, gives. *)
Remark written_order_differs :
  ∃ s, interpolation (-0.0754) 34.7695 (-0.1743) 34.9169 !! 12 = Some s
       ∧ (sample_lat s
          =? -0.0754 + float_of_nat 12 * (-0.1743 - -0.0754) / 20)%float = false.
Proof. eexists. split; vm_compute; reflexivity. Qed.

(** C4, amended.  A run during which nobody calls [stop_simulation] writes
    exactly 21 samples, for the steps 0 to 20; sample [k] has latitude
    [start_lat + ((end_lat - start_lat) / 20) * k] and longitude
    [start_lng + ((end_lng - start_lng) / 20) * k], computed in binary64
    floating point in this order, and label 'En route - Step k/20'.  The
    samples are a function of the start and the end alone.  When the
    ambulance exists, each sample is a row of [location_updates] at the end
    of the run.  For the start (-0.0754, 34.7695) and the end (-0.1743,
    34.9169), sample 0 is the start, sample 20 is the end and every sample
    lies in the bounding box of the two.  Nothing is said of the last
    sample for other coordinates. *)
Theorem simulation_samples (schedule : nat → list action)
    (ambulance_id patient_id : string)
    (start_lat start_lng end_lat end_lng : float) (w : World) :
  uncancelled schedule = true →
  let r := start_simulation schedule ambulance_id patient_id start_lat start_lng
             end_lat end_lng w in
  r.2 = interpolation start_lat start_lng end_lat end_lng
  ∧ length r.2 = 21
  ∧ (∀ k : nat, (k ≤ 20)%nat →
       r.2 !! k
       = Some (mkSample k
                 (start_lat + (end_lat - start_lat) / 20 * float_of_nat k)%float
                 (start_lng + (end_lng - start_lng) / 20 * float_of_nat k)%float
                 ("En route - Step " +:+ pretty k +:+ "/20")))
  ∧ (is_Some (ambulances (db w) !! ambulance_id) →
     ∀ s, s ∈ r.2 →
          location_row ambulance_id patient_id s ∈ location_updates (db r.1))
  ∧ (let samples := interpolation (-0.0754) 34.7695 (-0.1743) 34.9169 in
     samples !! 0 = Some (mkSample 0 (-0.0754) 34.7695 "En route - Step 0/20")
     ∧ samples !! 20
       = Some (mkSample 20 (-0.1743) 34.9169 "En route - Step 20/20")
     ∧ forallb (in_bounding_box (-0.0754) 34.7695 (-0.1743) 34.9169) samples
       = true).
Proof.
  intros Hun r. subst r.
  rewrite (start_simulation_uncancelled _ _ _ _ _ _ _ _ Hun). cbn [fst snd].
  split; [reflexivity|]. split; [|split; [|split]].
  - unfold interpolation. rewrite length_fmap, length_seq. reflexivity.
  - intros k Hk. unfold interpolation.
    rewrite list_lookup_fmap, lookup_seq_lt by (unfold steps; lia).
    cbn [fmap option_fmap option_map Nat.add].
    unfold sample_at, lat_step, lng_step.
    rewrite float_of_steps, pretty_steps. reflexivity.
  - intros Ha s Hs.
    rewrite mark_arrived_location_updates.
    destruct (loop_left_uncancelled schedule ambulance_id patient_id start_lat
                start_lng end_lat end_lng w Hun) as [Heq _].
    rewrite <- Heq in Hs. unfold loop_left.
    apply loop_rows; [exact Ha|exact Hs].
  - vm_compute. repeat split; reflexivity.
Qed.

Lemma simulation_samples_witness :
  let r := start_simulation nobody_else A1 P1 (-0.0754) 34.7695 (-0.1743) 34.9169
             (mkWorld store_P1_assigned false) in
  length r.2 = 21
  ∧ length (location_updates (db r.1)) = 21.
Proof.
  intros r. split.
  - apply (simulation_samples nobody_else A1 P1 (-0.0754) 34.7695 (-0.1743)
             34.9169 (mkWorld store_P1_assigned false)).
    reflexivity.
  - vm_compute. reflexivity.
Defined.

(** ** The end of a run *)

(** The thread that "Accept Mission" starts for P1: from the ambulance, at
    Ahero, to the receiving hospital. *)
Remark mission_thread :
  (DriverUI.display_driver_dashboard
     (db (run [ReferralSubmit hospital_staff P1_form "0A1B2C3D";
               ReferralSubmit hospital_staff P2_form "9F8E7D6C"]
            (mkWorld (initialize_sample_data depot) false)))
     driver (DriverUI.AcceptMission 1)).2
  = Some (DriverUI.mkThread A0 P1
            (Some (-0.1743)%float, Some 34.9169%float)
            (Some (-0.0754)%float, Some 34.7695%float)).
Proof. vm_compute. reflexivity. Qed.

(** C5, as stated, fails: the driver marks P1 as delivered during the run
    and the ambulance is then assigned to P2; when the loop ends, the
    ambulance, whose mission is marked as complete, is released again and
    loses P2. *)
Lemma arrival_not_guarded :
  ¬ arrival_guarded delivered_then_reassigned A0 P1
      (-0.1743) 34.9169 (-0.0754) 34.7695 mission_accepted.
Proof.
  unfold arrival_guarded. intros Hguard.
  assert (Ha : ∃ a,
             ambulances
               (db (loop_left delivered_then_reassigned A0 P1 (-0.1743) 34.9169
                      (-0.0754) 34.7695 mission_accepted)) !! A0 = Some a
             ∧ Ambulance.mission_complete a = true)
    by (eexists; vm_compute; split; reflexivity).
  destruct Ha as (a & Ha & Hc).
  specialize (Hguard a Ha Hc).
  apply (f_equal (λ w, Ambulance.current_patient <$> ambulances (db w) !! A0))
    in Hguard.
  vm_compute in Hguard. discriminate Hguard.
Qed.

(** C5, amended.  When the loop of a run is left with [running] still true,
    the simulator sets the status of the ambulance to 'Available' and clears
    [current_patient], whether or not the mission was completed by other
    means in the meantime: [mission_complete] is not read, and nothing else
    in the store changes.  The release is skipped only when [running] is
    false.  In particular, a run of an existing ambulance during which
    nobody calls [stop_simulation] always ends with the release. *)
Theorem arrival_is_unconditional (schedule : nat → list action)
    (ambulance_id patient_id : string)
    (start_lat start_lng end_lat end_lng : float) (w : World) :
  let left := loop_left schedule ambulance_id patient_id start_lat start_lng
                end_lat end_lng w in
  let r := start_simulation schedule ambulance_id patient_id start_lat start_lng
             end_lat end_lng w in
  (running left = true →
     r.1 = mark_arrived ambulance_id left
     ∧ patients (db r.1) = patients (db left)
     ∧ location_updates (db r.1) = location_updates (db left)
     ∧ ∀ a, ambulances (db left) !! ambulance_id = Some a →
            ambulances (db r.1)
            = <[ambulance_id := released a]> (ambulances (db left)))
  ∧ (running left = false → r.1 = left)
  ∧ (uncancelled schedule = true →
     is_Some (ambulances (db w) !! ambulance_id) →
     ∃ a, ambulances (db left) !! ambulance_id = Some a
          ∧ ambulances (db r.1) !! ambulance_id = Some (released a)).
Proof.
  intros left r. subst left r. rewrite start_simulation_world.
  pose proof (loop_left_uncancelled schedule ambulance_id patient_id start_lat
                start_lng end_lat end_lng w) as Hgo.
  pose proof (loop_left_exists schedule ambulance_id patient_id start_lat
                start_lng end_lat end_lng w ambulance_id) as Hkeep.
  revert Hgo Hkeep.
  generalize (loop_left schedule ambulance_id patient_id start_lat start_lng
                end_lat end_lng w).
  intros left Hgo Hkeep. split; [|split].
  - intros Hrun. rewrite Hrun. split; [reflexivity|]. split; [|split].
    + apply mark_arrived_patients.
    + apply mark_arrived_location_updates.
    + intros a Ha. rewrite (mark_arrived_found _ _ _ Ha). reflexivity.
  - intros Hrun. rewrite Hrun. reflexivity.
  - intros Hun [a Ha]%Hkeep.
    exists a. split; [exact Ha|].
    rewrite (proj2 (Hgo Hun)), (mark_arrived_found _ _ _ Ha).
    cbn [db ambulances set_ambulances]. apply lookup_insert_eq.
Qed.

Lemma arrival_is_unconditional_witness :
  ∃ a, ambulances
         (db (loop_left delivered_then_reassigned A0 P1 (-0.1743) 34.9169
                (-0.0754) 34.7695 mission_accepted)) !! A0 = Some a
       ∧ Ambulance.mission_complete a = true
       ∧ Ambulance.current_patient a = Some P2
       ∧ ambulances
           (db (start_simulation delivered_then_reassigned A0 P1 (-0.1743)
                  34.9169 (-0.0754) 34.7695 mission_accepted).1) !! A0
         = Some (released a).
Proof.
  assert (Ha : ∃ a,
             ambulances
               (db (loop_left delivered_then_reassigned A0 P1 (-0.1743) 34.9169
                      (-0.0754) 34.7695 mission_accepted)) !! A0 = Some a
             ∧ Ambulance.mission_complete a = true
             ∧ Ambulance.current_patient a = Some P2)
    by (eexists; vm_compute; repeat split; reflexivity).
  destruct Ha as (a & Ha & Hc & Hp).
  assert (Hun : uncancelled delivered_then_reassigned = true)
    by (vm_compute; reflexivity).
  assert (Hex : is_Some (ambulances (db mission_accepted) !! A0))
    by (eexists; vm_compute; reflexivity).
  destruct (proj2 (proj2 (arrival_is_unconditional delivered_then_reassigned A0
                            P1 (-0.1743) 34.9169 (-0.0754) 34.7695
                            mission_accepted)) Hun Hex) as (a' & Ha' & Hr).
  exists a. split; [exact Ha|]. split; [exact Hc|]. split; [exact Hp|].
  rewrite Ha in Ha'. injection Ha' as Heq. rewrite Heq. exact Hr.
Defined.

(** ** A stopped run *)

(** C6.  Let the loop of a run be executed for the steps before tick [k],
    and let [running] be false then: [stop_simulation] was called during an
    earlier sleep and is observed at tick [k] at the latest.  The whole run
    then ends in exactly that world and with exactly the samples written so
    far: there is no further location write and no release, so the status
    and [current_patient] of the ambulance are what they were.  The
    location updates of every earlier tick are still in the store, and when
    the ambulance exists every sample written is one of them. *)
Theorem stop_is_final (schedule : nat → list action)
    (ambulance_id patient_id : string)
    (start_lat start_lng end_lat end_lng : float) (w : World) (k : nat) :
  (k ≤ steps + 1)%nat →
  let upto (j : nat) :=
    simulation_loop schedule ambulance_id patient_id start_lat start_lng
      end_lat end_lng (seq 0 j) (mkWorld (db w) true) in
  running (upto k).1 = false →
  start_simulation schedule ambulance_id patient_id start_lat start_lng
    end_lat end_lng w = upto k
  ∧ (∀ j : nat, (j ≤ k)%nat →
       location_updates (db (upto j).1)
       `prefix_of` location_updates (db (upto k).1))
  ∧ (is_Some (ambulances (db w) !! ambulance_id) →
     ∀ s, s ∈ (upto k).2 →
          location_row ambulance_id patient_id s
          ∈ location_updates (db (upto k).1)).
Proof.
  intros Hk upto Hstop. subst upto. cbv beta in *. split; [|split].
  - rewrite start_simulation_unfold. unfold loop_left.
    replace (steps + 1)%nat with (k + (steps + 1 - k))%nat by lia.
    rewrite seq_app, loop_app. cbn [fst snd].
    rewrite (loop_stopped _ _ _ _ _ _ _ _ _ Hstop). cbn [fst snd].
    rewrite Hstop, app_nil_r. symmetry. apply surjective_pairing.
  - intros j Hj.
    replace k with (j + (k - j))%nat by lia.
    rewrite seq_app, loop_app. cbn [fst].
    apply loop_location_updates.
  - intros Ha s Hs. apply loop_rows; [exact Ha|exact Hs].
Qed.

Lemma stop_is_final_witness :
  let r := start_simulation (stop_after 4) A1 P1 (-0.0754) 34.7695 (-0.1743)
             34.9169 (mkWorld store_P1_assigned false) in
  r = simulation_loop (stop_after 4) A1 P1 (-0.0754) 34.7695 (-0.1743) 34.9169
        (seq 0 5) (mkWorld store_P1_assigned true)
  ∧ length r.2 = 5
  ∧ length (location_updates (db r.1)) = 5
  ∧ ambulances (db r.1) !! A1
    = Ambulance.with_position (-0.09518) 34.79898 "En route - Step 4/20"
      <$> ambulances store_P1_assigned !! A1.
Proof.
  intros r. split; [|split; [|split]].
  - apply (stop_is_final (stop_after 4) A1 P1 (-0.0754) 34.7695 (-0.1743)
             34.9169 (mkWorld store_P1_assigned false) 5).
    + unfold steps. lia.
    + vm_compute. reflexivity.
  - vm_compute. reflexivity.
  - vm_compute. reflexivity.
  - vm_compute. reflexivity.
Defined.

(** * Further properties *)

(** ** The store only grows *)

Lemma grows_refl db : grows db db.
Proof. by repeat split. Qed.

Lemma grows_trans db1 db2 db3 : grows db1 db2 → grows db2 db3 → grows db1 db3.
Proof.
  intros (A1 & P1 & R1 & H1 & C1 & L1) (A2 & P2 & R2 & H2 & C2 & L2).
  split; [by rewrite A2|]. split; [by etrans|].
  repeat split; by etrans.
Qed.

Lemma write_grows side db db' : write side db db' → grows db db'.
Proof.
  destruct 1 as [token p Hn Hd|pid p p' Hp H1 H2|aid a a' Ha Hu|aid a Ha Hanon|r|h|c|u];
    unfold grows;
    cbn [patients ambulances referrals handover_forms communications
         location_updates set_patients set_ambulances add_referral
         add_handover_form add_communication add_location_update].
  - repeat split; try done. rewrite dom_insert_L. set_solver.
  - repeat split; try done. rewrite dom_insert_L. set_solver.
  - repeat split; try done. apply dom_insert_lookup_L. by rewrite Ha.
  - repeat split; try done. apply dom_insert_lookup_L. by rewrite Ha.
  - repeat split; try done. by apply prefix_app_r.
  - repeat split; try done. by apply prefix_app_r.
  - repeat split; try done. by apply prefix_app_r.
  - repeat split; try done. by apply prefix_app_r.
Qed.

Lemma writes_grow side db db' : rtc (write side) db db' → grows db db'.
Proof.
  induction 1 as [db|db1 db2 db3 Hw _ IH]; [apply grows_refl|].
  eapply grows_trans; [by eapply write_grows|done].
Qed.

Lemma loop_left_writes schedule aid pid slat slng elat elng w :
  rtc (write true) (db w) (db (loop_left schedule aid pid slat slng elat elng w)).
Proof.
  unfold loop_left.
  exact (loop_writes schedule aid pid slat slng elat elng (seq 0 (steps + 1))
           (mkWorld (db w) true)).
Qed.

(** X1.  No operation removes anything.  Along every sequence of page
    operations and simulator steps, and along a whole simulation run with
    whatever the other control paths do meanwhile, the set of ambulance
    identifiers stays the same (no ambulance is added or removed), every
    patient identifier stays in the store, and the tables of referrals,
    handover forms, communications and location updates only get new rows
    at the end. *)
Theorem store_only_grows (actions : list action) (schedule : nat → list action)
    (ambulance_id patient_id : string)
    (start_lat start_lng end_lat end_lng : float) (w : World) :
  grows (db w) (db (run actions w))
  ∧ grows (db w)
      (db (start_simulation schedule ambulance_id patient_id start_lat
             start_lng end_lat end_lng w).1).
Proof.
  split.
  - eapply writes_grow, run_writes.
  - rewrite start_simulation_world.
    pose proof (loop_left_writes schedule ambulance_id patient_id start_lat
                  start_lng end_lat end_lng w) as Hl.
    apply writes_grow in Hl. revert Hl.
    generalize (loop_left schedule ambulance_id patient_id start_lat start_lng
                  end_lat end_lng w).
    intros left Hl. destruct (running left); [|exact Hl].
    eapply grows_trans; [exact Hl|].
    eapply writes_grow, (mark_arrived_writes true).
Qed.

(** ** Every operation has one of the listed effects *)

Lemma truthy_inv (o : option string) :
  truthy o = true → ∃ s, o = Some s ∧ s ≠ "".
Proof.
  destruct o as [s|]; [|done]. cbn [truthy].
  intros Hs%negb_true_iff%String.eqb_neq. by exists s.
Qed.

Lemma update_ambulance_status_found db aid pid a :
  ambulances db !! aid = Some a →
  update_ambulance_status db aid "On Transfer" (Some pid)
  = set_ambulances (insert aid (on_transfer_for pid a)) db.
Proof.
  intros Ha. unfold update_ambulance_status, on_transfer_for. by rewrite Ha.
Qed.

Lemma active_patient_status db user_hospital (patient : string * Patient.t) :
  patient ∈ ReferralUI.active_patients db user_hospital →
  patients db !! patient.1 = Some patient.2
  ∧ not_in (Patient.status patient.2) ReferralUI.closed_statuses = true.
Proof.
  unfold ReferralUI.active_patients, get_all_patients.
  repeat case_match; intros Hin; apply filter_rows_lookup in Hin as [Hl Hf];
    (split; [done|]); try done; by apply andb_true_iff in Hf as [_ Hf].
Qed.

Lemma eligible_patient_scope db user_hospital (sel : string * Patient.t) :
  sel ∈ HandoverUI.eligible_patients db user_hospital →
  user_hospital = "All Facilities"
  ∨ Patient.receiving_hospital sel.2 = user_hospital.
Proof.
  unfold HandoverUI.eligible_patients, get_all_patients.
  destruct (String.eqb user_hospital "All Facilities") eqn:Hall.
  { left. by apply String.eqb_eq. }
  intros Hin. apply filter_rows_lookup in Hin as [_ Hf].
  apply andb_true_iff in Hf as [Hf _]. right. by apply String.eqb_eq.
Qed.

Lemma available_patient_status db (patient : string * Patient.t) :
  patient ∈ DriverUI.available_patients db →
  patients db !! patient.1 = Some patient.2
  ∧ Patient.status patient.2 = "Referred"
  ∧ Patient.assigned_ambulance patient.2 = None.
Proof.
  unfold DriverUI.available_patients, get_all_patients.
  intros Hin. apply filter_rows_lookup in Hin as [Hl Hf].
  apply andb_true_iff in Hf as [Hs Ha]. apply String.eqb_eq in Hs.
  split; [done|]. split; [done|].
  by destruct (Patient.assigned_ambulance patient.2).
Qed.

Lemma ambulance_option_label db choice label :
  selectbox (ReferralUI.ambulance_options db) choice = Some label →
  label ≠ "Auto-assign" →
  ∃ amb, amb ∈ get_available_ambulances db ∧ label = ambulance_label amb.
Proof.
  intros Hsel%selectbox_elem Hne. unfold ReferralUI.ambulance_options in Hsel.
  apply elem_of_cons in Hsel as [?|Hin]; [done|].
  apply list_elem_of_In, in_map_iff in Hin as (amb & <- & Hin).
  exists amb. split; [by apply list_elem_of_In|done].
Qed.

Lemma ambulance_option_offered db choice label :
  selectbox (ReferralUI.ambulance_options db) choice = Some label →
  label ≠ "Auto-assign" →
  offered db (split_label label).
Proof.
  intros Hsel Hne.
  destruct (ambulance_option_label _ _ _ Hsel Hne) as (amb & Hin & ->).
  by exists amb.
Qed.

(** With plain identifiers, what is read back is the identifier of an
    available ambulance. *)
Lemma offered_available db aid :
  plain_ids db → offered db aid →
  ∃ a, ambulances db !! aid = Some a ∧ Ambulance.status a = "Available".
Proof.
  intros Hplain (amb & Hin & ->).
  apply available_ambulance_lookup in Hin as [Hl Hs].
  rewrite (split_label_plain amb); [by exists amb.2|].
  apply Hplain. by rewrite Hl.
Qed.

Lemma eff_referral_with db token p role amb :
  amb = Patient.assigned_ambulance p →
  patients db !! ("PAT" +:+ token) = None →
  Patient.status p = "Referred" →
  Patient.vital_signs p = None →
  Patient.referring_hospital p ≠ Patient.receiving_hospital p →
  (∀ aid, amb = Some aid → offered db aid) →
  referral_rules p →
  effect db
    (add_referral (set_patients (insert ("PAT" +:+ token) p) db)
       (Referral.mk ("PAT" +:+ token) "Ambulance Dispatched" amb (Some role))).
Proof. intros -> ??????. by apply eff_referral. Qed.

Lemma receiving_hospital_choice user_hospital choice receiving :
  selectbox (ReferralUI.get_receiving_hospitals user_hospital) choice
  = Some receiving →
  receiving = JOOTRH ∨ receiving = KCRH.
Proof.
  intros Hsel%selectbox_elem. unfold ReferralUI.get_receiving_hospitals in Hsel.
  destruct (String.eqb user_hospital KCRH);
    (apply elem_of_cons in Hsel as [->|Hsel]; [by left|]);
    (apply elem_of_cons in Hsel as [->|Hsel]; [by right|]);
    by apply elem_of_nil in Hsel.
Qed.

Lemma create_referral_form_effect db user form token :
  effect db (ReferralUI.create_referral_form db user form token).2.
Proof.
  unfold ReferralUI.create_referral_form.
  destruct (selectbox _ (ReferralUI.referring_hospital form)) as [referring|];
    [|apply eff_nothing].
  destruct (selectbox _ (ReferralUI.receiving_hospital form))
    as [receiving|] eqn:Hrec; [|apply eff_nothing].
  destruct (selectbox _ (ReferralUI.ambulance_choice form)) as [choice|] eqn:Hch;
    [|apply eff_nothing].
  destruct (negb (forallb id _)) eqn:Hall; [apply eff_nothing|].
  destruct (String.eqb referring receiving) eqn:Hsame; [apply eff_nothing|].
  apply String.eqb_neq in Hsame.
  destruct (ReferralUI.hospital_row referring) as [d1|] eqn:Hd1;
    [|apply eff_nothing].
  destruct (ReferralUI.hospital_row receiving) as [d2|] eqn:Hd2;
    [|apply eff_nothing].
  unfold ReferralService.create_referral, add_patient.
  cbn [PatientData.patient_id PatientData.with_created_by].
  destruct (patients db !! ("PAT" +:+ token)) as [q|] eqn:Hq; [apply eff_nothing|].
  cbn [fst snd].
  apply negb_false_iff in Hall. cbn [forallb id] in Hall.
  apply andb_true_iff in Hall as [Hname%negb_true_iff%String.eqb_neq Hall].
  apply andb_true_iff in Hall as [Hage%negb_true_iff%Z.eqb_neq Hall].
  apply andb_true_iff in Hall as [Hcond%negb_true_iff%String.eqb_neq Hall].
  apply andb_true_iff in Hall as [Hphys%negb_true_iff%String.eqb_neq Hall].
  apply andb_true_iff in Hall as [Href%negb_true_iff%String.eqb_neq _].
  apply eff_referral_with; try done.
  - intros aid Heq.
    cbn [PatientData.assigned_ambulance PatientData.with_created_by] in Heq.
    destruct (String.eqb_spec choice "Auto-assign") as [|Hne]; [done|].
    injection Heq as <-. by eapply ambulance_option_offered.
  - split; [by eapply receiving_hospital_choice|].
    repeat (split; [done|]). split; [by exists d1|by exists d2].
Qed.

Lemma confirm_assignment_effect db user pc ac :
  effect db (ReferralUI.confirm_assignment db user pc ac).2.
Proof.
  destruct (confirm_assignment_cases db user pc ac)
    as [[-> _]|(patient & amb & Hp & Hsel & ->)]; [apply eff_nothing|].
  apply list_elem_of_lookup_2, active_patient_status in Hp as [Hp Hst].
  apply list_elem_of_lookup_2 in Hsel.
  assert (Hoff : offered db (split_label (ambulance_label amb)))
    by by exists amb.
  cbn [snd].
  destruct (ambulances db !! split_label (ambulance_label amb)) as [a|] eqn:Ha.
  - rewrite (update_ambulance_status_found _ _ _ a) by exact Ha.
    by apply eff_assign.
  - rewrite update_ambulance_status_missing by exact Ha.
    by apply eff_assign_unknown.
Qed.

Lemma update_status_effect db user pc sc :
  effect db (ReferralUI.update_status db user pc sc).2.
Proof.
  unfold ReferralUI.update_status.
  destruct (ReferralUI.active_patients db (hospital user) !! pc) as [patient|] eqn:Hp;
    [|apply eff_nothing].
  destruct (selectbox ReferralUI.status_options sc) as [new_status|] eqn:Hsel;
    [|apply eff_nothing].
  apply list_elem_of_lookup_2, active_patient_status in Hp as [Hp Hst].
  apply selectbox_elem in Hsel.
  cbn [snd]. by apply eff_status.
Qed.

Lemma create_handover_form_effect db user choice form :
  effect db (HandoverUI.create_handover_form db user choice form).2.
Proof.
  destruct (create_handover_form_cases db user choice form)
    as [[-> _]|(sel & Hsel & Hphys & ->)]; [apply eff_nothing|].
  apply selectbox_elem in Hsel.
  pose proof (eligible_patient_scope _ _ _ Hsel) as Hscope.
  apply eligible_patient_lookup in Hsel as [Hl Hs].
  destruct sel as [pid p]. cbn [fst snd] in *. by apply eff_handover.
Qed.

Lemma quick_actions_other db aid c :
  quick_click c = false → DriverUI.quick_actions db aid c = db.
Proof.
  intros Hc. unfold DriverUI.quick_actions.
  destruct (ambulances db !! aid); [|done]. by destruct c.
Qed.

Lemma quick_actions_effect db aid c :
  effect db (DriverUI.quick_actions db aid c).
Proof.
  unfold DriverUI.quick_actions.
  destruct (ambulances db !! aid) as [a|] eqn:Ha; [|apply eff_nothing].
  destruct c; try apply eff_nothing.
  - by apply eff_release.
  - apply eff_side; [done|by left].
  - apply eff_side; [done|by right].
Qed.

Lemma update_ambulance_location_effect db aid lat lng loc pid :
  effect db (AmbulanceService.update_ambulance_location db aid lat lng loc pid).2.
Proof.
  unfold AmbulanceService.update_ambulance_location.
  destruct (ambulances db !! aid) as [a|] eqn:Ha; [|apply eff_nothing].
  cbn [snd]. by apply eff_move.
Qed.

Lemma driver_messages db aid pid (p : Patient.t) (a : Ambulance.t)
    message kind hospitals :
  ambulances db !! aid = Some a → patients db !! pid = Some p →
  Forall (driver_message db)
    (List.map (λ hospital,
                 Communication.mk (Some pid) (Some aid) "Driver" hospital
                   message kind) hospitals).
Proof.
  intros Ha Hp. induction hospitals as [|h hs IH]; constructor; [|done].
  split; [done|]. split.
  - exists pid. by rewrite Hp.
  - intros k [= <-]. by rewrite Ha.
Qed.

Lemma vitals_messages db pid (p : Patient.t) message kind hospitals :
  patients db !! pid = Some p →
  Forall (driver_message db)
    (List.map (λ hospital,
                 Communication.mk (Some pid) None "Driver" hospital message kind)
       hospitals).
Proof.
  intros Hp. induction hospitals as [|h hs IH]; constructor; [|done].
  split; [done|]. split; [|done].
  exists pid. by rewrite Hp.
Qed.

Lemma current_mission_quick db ambulance patient c :
  quick_click c = true → DriverUI.current_mission db ambulance patient c = db.
Proof. by destruct c. Qed.

Lemma available_missions_quick db ambulance c :
  quick_click c = true → DriverUI.available_missions db ambulance c = (db, None).
Proof. by destruct c. Qed.

Lemma current_mission_effect db ambulance patient c :
  ambulances db !! ambulance.1 = Some ambulance.2 →
  Ambulance.status ambulance.2 = "On Transfer" →
  Ambulance.current_patient ambulance.2 = Some patient.1 →
  patient.1 ≠ "" →
  patients db !! patient.1 = Some patient.2 →
  effect db (DriverUI.current_mission db ambulance patient c).
Proof.
  intros Ha Hs Hc Hne Hp.
  destruct c; cbn [DriverUI.current_mission]; try apply eff_nothing.
  - apply update_ambulance_location_effect.
  - unfold DriverUI.send_message.
    destruct (selectbox _ recipient); [|apply eff_nothing].
    destruct (String.eqb message ""); [apply eff_nothing|].
    apply eff_messages. by eapply driver_messages.
  - unfold DriverUI.quick_update.
    destruct (DriverUI.quick_messages !! label) as [[? ?]|]; [|apply eff_nothing].
    apply eff_messages. by eapply driver_messages.
  - unfold DriverUI.show_vitals_form. apply eff_vitals; [done|].
    by eapply vitals_messages.
  - apply update_ambulance_location_effect.
  - apply eff_messages. by eapply driver_messages.
  - unfold DriverUI.complete_mission. apply eff_deliver; try done.
    by eapply driver_messages.
Qed.

Lemma available_missions_effect db ambulance c :
  ambulances db !! ambulance.1 = Some ambulance.2 →
  Ambulance.status ambulance.2 = "Available" →
  effect db (DriverUI.available_missions db ambulance c).1.
Proof.
  intros Ha Hs. destruct c; cbn [DriverUI.available_missions fst];
    try apply eff_nothing.
  destruct (DriverUI.available_patients db !! mission) as [patient|] eqn:Hm;
    [|apply eff_nothing].
  apply list_elem_of_lookup_2, available_patient_status in Hm as (Hp & Hst & Hna).
  cbn [fst]. by apply eff_accept.
Qed.

Lemma display_driver_dashboard_effect db user c :
  effect db (DriverUI.display_driver_dashboard db user c).1.
Proof.
  unfold DriverUI.display_driver_dashboard.
  destruct (DriverUI.driver_ambulance db _) as [ambulance|] eqn:Hd;
    [|apply eff_nothing].
  apply driver_ambulance_lookup in Hd. cbn [fst].
  destruct (quick_click c) eqn:Hq.
  - (* a quick action: nothing else on the page reacts *)
    match goal with
    | |- effect _ (DriverUI.quick_actions ?shown.1 _ _) =>
        assert (Hshown : shown.1 = db)
    end.
    { destruct (truthy _ && String.eqb _ "On Transfer").
      - destruct (Ambulance.current_patient ambulance.2) as [pid|]; [|done].
        destruct (get_patient_by_id db pid); [|done].
        cbn [fst]. by apply current_mission_quick.
      - destruct (String.eqb _ "Available"); [|done].
        by rewrite available_missions_quick. }
    rewrite Hshown. apply quick_actions_effect.
  - rewrite quick_actions_other by done.
    destruct (truthy _ && String.eqb _ "On Transfer") eqn:Hcond.
    + apply andb_true_iff in Hcond as [Ht Hs].
      apply truthy_inv in Ht as (pid & Hc & Hne). apply String.eqb_eq in Hs.
      rewrite Hc.
      destruct (get_patient_by_id db pid) as [p|] eqn:Hp; [|apply eff_nothing].
      cbn [fst]. by apply (current_mission_effect db ambulance (pid, p)).
    + destruct (String.eqb _ "Available") eqn:Hs; [|apply eff_nothing].
      apply String.eqb_eq in Hs. by apply available_missions_effect.
Qed.

(** Every page operation and every simulator step has one of the listed
    effects. *)
Lemma perform_effect a w : effect (db w) (db (perform a w)).
Proof.
  destruct a; cbn [perform db].
  - apply create_referral_form_effect.
  - apply confirm_assignment_effect.
  - apply update_status_effect.
  - apply create_handover_form_effect.
  - apply display_driver_dashboard_effect.
  - apply eff_nothing.
  - apply eff_nothing.
  - destruct (running w); [|apply eff_nothing].
    apply update_ambulance_location_effect.
  - destruct (running w); [|apply eff_nothing].
    unfold mark_arrived.
    destruct (ambulances (db w) !! ambulance_id) as [a|] eqn:Ha;
      [|apply eff_nothing].
    by apply eff_release.
Qed.

(** ** Sequences of operations and the loop of the simulator *)

Lemma run_effects actions w : rtc effect (db w) (db (run actions w)).
Proof.
  unfold run. revert w.
  induction actions as [|a actions IH]; intros w; [apply rtc_refl|].
  simpl. eapply rtc_l; [apply perform_effect|apply IH].
Qed.

Lemma write_sample_effect aid pid s w :
  effect (db w) (db (write_sample aid pid s w)).
Proof. apply update_ambulance_location_effect. Qed.

Lemma mark_arrived_effect aid w : effect (db w) (db (mark_arrived aid w)).
Proof.
  unfold mark_arrived.
  destruct (ambulances (db w) !! aid) as [a|] eqn:Ha; [|apply eff_nothing].
  by apply eff_release.
Qed.

Lemma loop_effects schedule aid pid slat slng elat elng todo w :
  rtc effect (db w)
    (db (simulation_loop schedule aid pid slat slng elat elng todo w).1).
Proof.
  revert w. induction todo as [|step todo IH]; intros w; [apply rtc_refl|].
  simpl. destruct (running w); simpl; [|apply rtc_refl].
  eapply rtc_l; [apply write_sample_effect|].
  eapply rtc_trans; [apply run_effects|apply IH].
Qed.

Lemma loop_left_effects schedule aid pid slat slng elat elng w :
  rtc effect (db w) (db (loop_left schedule aid pid slat slng elat elng w)).
Proof.
  unfold loop_left.
  exact (loop_effects schedule aid pid slat slng elat elng (seq 0 (steps + 1))
           (mkWorld (db w) true)).
Qed.

Lemma start_simulation_effects schedule aid pid slat slng elat elng w :
  rtc effect (db w)
    (db (start_simulation schedule aid pid slat slng elat elng w).1).
Proof.
  rewrite start_simulation_world.
  pose proof (loop_left_effects schedule aid pid slat slng elat elng w) as Hl.
  revert Hl.
  generalize (loop_left schedule aid pid slat slng elat elng w).
  intros left Hl. destruct (running left); [|exact Hl].
  eapply rtc_r; [exact Hl|apply mark_arrived_effect].
Qed.

Lemma effects_preserve (P : Database → Prop) :
  (∀ db db', effect db db' → P db → P db') →
  ∀ db db', rtc effect db db' → P db → P db'.
Proof.
  intros Hstep db db'. induction 1 as [db|db1 db2 db3 He _ IH]; [done|].
  intros H. by eapply IH, Hstep.
Qed.

Lemma add_communications_app db cs :
  DriverUI.add_communications db cs
  = mkDatabase (patients db) (ambulances db) (referrals db) (handover_forms db)
      (communications db ++ cs)%list (location_updates db).
Proof.
  unfold DriverUI.add_communications. revert db.
  induction cs as [|c cs IH]; intros db; simpl.
  { rewrite app_nil_r. by destruct db. }
  rewrite IH. cbn [add_communication patients ambulances referrals
                   handover_forms communications location_updates].
  by rewrite <- app_assoc.
Qed.

(** ** The life of a patient row *)

Lemma add_communications_patients db cs :
  patients (DriverUI.add_communications db cs) = patients db.
Proof.
  unfold DriverUI.add_communications. revert db.
  induction cs as [|c cs IH]; intros db; [done|]. simpl. by rewrite IH.
Qed.

Lemma add_communications_ambulances db cs :
  ambulances (DriverUI.add_communications db cs) = ambulances db.
Proof.
  unfold DriverUI.add_communications. revert db.
  induction cs as [|c cs IH]; intros db; [done|]. simpl. by rewrite IH.
Qed.

Lemma row_step_refl p : row_step p p.
Proof. repeat split; by left. Qed.

Lemma effect_patient db db' pid p' :
  effect db db' → patients db' !! pid = Some p' →
  match patients db !! pid with
  | Some p => row_step p p'
  | None => new_row db pid p'
  end.
Proof.
  assert (Hsame : ∀ q, patients db !! pid = Some q →
            match patients db !! pid with
            | Some p => row_step p q
            | None => new_row db pid q
            end).
  { intros q ->. apply row_step_refl. }
  assert (Hupd : ∀ k q q', patients db !! k = Some q →
            row_step q q' →
            <[k := q']> (patients db) !! pid = Some p' →
            match patients db !! pid with
            | Some p => row_step p p'
            | None => new_row db pid p'
            end).
  { intros k q q' Hq Hstep.
    destruct (decide (k = pid)) as [->|Hk].
    - rewrite lookup_insert_eq, Hq. by intros [= <-].
    - rewrite lookup_insert_ne by done. apply Hsame. }
  intros He.
  destruct He as [|token p role Hn Hst Hv Hd Ha Hrules|k p aid a Hp Hst Hoff Ha
                  |k p aid Hp Hst Hoff Ha
                  |k p s Hp Hst Hin|k p user form Hp Hst Hsc Hph
                  |aid a lat lng loc o Ha|cs Hcs|k p v cs Hp Hcs
                  |aid a k p cs Ha Hs Hc Hne Hp Hcs Hlen|aid a k p Ha Hs Hp Hst Hna
                  |aid a Ha|aid a s Ha Hs];
    rewrite ?add_communications_patients;
    cbn [patients set_patients set_ambulances add_referral add_handover_form
         add_location_update];
    try apply Hsame.
  - destruct (decide ("PAT" +:+ token = pid)) as [<-|Hk].
    + rewrite lookup_insert_eq, Hn. intros [= <-].
      split; [done|]. split; [done|]. split; [by exists token|done].
    + rewrite lookup_insert_ne by done. apply Hsame.
  - apply (Hupd k p); [done|]. split; [done|]. split; [|split; [|split]].
    + right; right; right. split; [done|by left].
    + right. exists aid. split; [done|by left].
    + by left.
    + by left.
  - apply (Hupd k p); [done|]. split; [done|]. split; [|split; [|split]].
    + right; right; right. split; [done|by left].
    + right. exists aid. split; [done|by left].
    + by left.
    + by left.
  - apply (Hupd k p); [done|]. split; [done|]. split; [|split; [|split]].
    + right; right; right. split; [done|by right].
    + by left.
    + by left.
    + by left.
  - apply (Hupd k p); [done|]. split; [done|]. split; [|split; [|split]].
    + right; right; left. by split.
    + by left.
    + right. exists (HandoverUI.receiving_physician form). done.
    + by left.
  - apply (Hupd k p); [done|]. split; [done|]. split; [|split; [|split]].
    + by left.
    + by left.
    + by left.
    + right. by exists v.
  - apply (Hupd k p); [done|]. split; [done|]. split; [|split; [|split]].
    + right; left. done.
    + by left.
    + by left.
    + by left.
  - apply (Hupd k p); [done|]. split; [done|]. split; [|split; [|split]].
    + right; right; right.
      rewrite Hst. split; [done|]. right. unfold ReferralUI.status_options.
      set_solver.
    + right. exists aid. split; [done|by right].
    + by left.
    + by left.
Qed.

(** X2.  The life of a patient row.  Whatever the operation, a patient that
    was in the store keeps its identifier and the fifteen columns that
    nothing writes once the row is created (name, age, condition, both
    hospitals and their coordinates, referring physician, notes, history,
    medications, allergies, creator).  The four other columns change only
    as follows.  The status moves along [status_step]: to 'Arrived at
    Destination' from any status, from 'Arrived at Destination' to
    'Completed', or, for a patient neither arrived nor completed, to
    'Ambulance Assigned' or one of the five statuses of the update box.
    The assigned ambulance, which the referral form may already have set,
    is kept or overwritten with an identifier, together with the status
    'Ambulance Assigned' or 'Ambulance Dispatched', and never cleared.  The
    receiving physician, which the referral form sets as well, is kept or
    overwritten with the non-empty physician of a handover that takes the
    patient from 'Arrived at Destination' to 'Completed'.  The vital signs
    are kept or replaced, never cleared.  A patient that was not in the
    store is new: its status is 'Referred', it has no vital signs, its
    identifier starts with 'PAT', and its ambulance, if any, was read back
    from a label that the form offered.  In particular a 'Completed'
    patient stays 'Completed' or goes back to 'Arrived at Destination',
    nothing else. *)
Theorem patient_lifecycle (a : action) (w : World) (pid : string)
    (p' : Patient.t) :
  patients (db (perform a w)) !! pid = Some p' →
  match patients (db w) !! pid with
  | Some p =>
      unwritten p' = unwritten p
      ∧ status_step (Patient.status p) (Patient.status p')
      ∧ ambulance_step p p'
      ∧ physician_step p p'
      ∧ vitals_step p p'
      ∧ (Patient.status p = "Completed" →
         Patient.status p' = "Completed"
         ∨ Patient.status p' = "Arrived at Destination")
  | None =>
      Patient.status p' = "Referred"
      ∧ Patient.vital_signs p' = None
      ∧ (∃ token, pid = "PAT" +:+ token)
      ∧ ∀ aid, Patient.assigned_ambulance p' = Some aid →
               offered (db w) aid
  end.
Proof.
  intros Hp'.
  pose proof (effect_patient _ _ pid p' (perform_effect a w) Hp') as H.
  destruct (patients (db w) !! pid) as [p|]; [|exact H].
  destruct H as (Hid & Hst & Hamb & Hph & Hv).
  split; [done|]. split; [done|]. split; [done|]. split; [done|].
  split; [done|].
  intros Hc. rewrite Hc in Hst.
  destruct Hst as [->|[->|[[? _]|[? _]]]]; [by left|by right|done|done].
Qed.

(** The witness is the way back from 'Completed': the ambulance still
    carries the patient that was handed over, and the driver marks it as
    delivered. *)
Lemma patient_lifecycle_witness :
  Patient.status <$> patients (db handed_over_on_board) !! P1 = Some "Completed"
  ∧ ∃ p',
      patients (db (perform (Driver driver DriverUI.MarkPatientDelivered)
                      handed_over_on_board)) !! P1 = Some p'
      ∧ Patient.status p' = "Arrived at Destination"
      ∧ status_step "Completed" (Patient.status p').
Proof.
  split; [vm_compute; reflexivity|].
  assert (Hp : ∃ p, patients (db handed_over_on_board) !! P1 = Some p
                    ∧ Patient.status p = "Completed")
    by (eexists; vm_compute; split; reflexivity).
  assert (Hp' : ∃ p',
             patients (db (perform (Driver driver DriverUI.MarkPatientDelivered)
                             handed_over_on_board)) !! P1 = Some p'
             ∧ Patient.status p' = "Arrived at Destination")
    by (eexists; vm_compute; split; reflexivity).
  destruct Hp as (p & Hp & Hs), Hp' as (p' & Hp' & Hs').
  exists p'. split; [exact Hp'|]. split; [exact Hs'|].
  pose proof (patient_lifecycle (Driver driver DriverUI.MarkPatientDelivered)
                handed_over_on_board P1 p' Hp') as H.
  rewrite Hp in H. destruct H as (_ & Hstep & _).
  rewrite Hs in Hstep. exact Hstep.
Defined.

(** ** References between the tables *)

Ltac effect_cases He :=
  destruct He as [|token p role Hn Hst Hv Hd Ha Hrules|k p aid a Hp Hst Hoff Ha
                  |k p aid Hp Hst Hoff Ha
                  |k p s Hp Hst Hin|k p user form Hp Hst Hsc Hph
                  |aid a lat lng loc o Ha|cs Hcs|k p v cs Hp Hcs
                  |aid a k p cs Ha Hs Hc Hne Hp Hcs Hlen|aid a k p Ha Hs Hp Hst Hna
                  |aid a Ha|aid a s Ha Hs];
  rewrite ?add_communications_app;
  cbn [patients ambulances referrals handover_forms communications
       location_updates set_patients set_ambulances add_referral
       add_handover_form add_location_update].

Lemma insert_is_Some {A} (m : gmap string A) i x k :
  is_Some (m !! k) → is_Some (<[i := x]> m !! k).
Proof. intros H. apply lookup_insert_is_Some'. by right. Qed.

Lemma effect_keys db db' :
  effect db db' →
  (∀ k, is_Some (patients db !! k) → is_Some (patients db' !! k))
  ∧ (∀ k, is_Some (ambulances db !! k) → is_Some (ambulances db' !! k)).
Proof.
  intros He. effect_cases He; split; intros i Hi;
    try apply insert_is_Some; done.
Qed.

Lemma effect_ambulance_row db db' i a' pid :
  effect db db' →
  ambulances db' !! i = Some a' → Ambulance.current_patient a' = Some pid →
  is_Some (patients db !! pid)
  ∨ ∃ a, ambulances db !! i = Some a ∧ Ambulance.current_patient a = Some pid.
Proof.
  intros He. effect_cases He; try (intros; right; by eauto);
    (destruct (decide (aid = i)) as [->|Hne'];
     [rewrite lookup_insert_eq; intros [= <-]
     |rewrite lookup_insert_ne by done; intros; right; by eauto]).
  - unfold on_transfer_for. destruct (truthy (Some k)); cbn.
    + intros [= <-]. left. by rewrite Hp.
    + intros Hcur. right. eauto.
  - cbn. intros Hcur. right. eauto.
  - done.
  - cbn. intros [= <-]. left. by rewrite Hp.
  - done.
  - cbn. intros Hcur. right. eauto.
Qed.

Lemma effect_ambulance_keys db db' i :
  effect db db' → is_Some (ambulances db' !! i) → is_Some (ambulances db !! i).
Proof.
  intros He. effect_cases He; try done;
    (intros [<-|[_ Hi]]%lookup_insert_is_Some; [by rewrite Ha|done]).
Qed.

Lemma effect_plain db db' : effect db db' → plain_ids db → plain_ids db'.
Proof. intros He Hplain i Hi. by eapply Hplain, effect_ambulance_keys. Qed.

Lemma effect_patient_row db db' i p' aid0 :
  plain_ids db →
  effect db db' →
  patients db' !! i = Some p' → Patient.assigned_ambulance p' = Some aid0 →
  is_Some (ambulances db !! aid0)
  ∨ ∃ p, patients db !! i = Some p ∧ Patient.assigned_ambulance p = Some aid0.
Proof.
  intros Hplain He. effect_cases He; try (intros; right; by eauto).
  - destruct (decide ("PAT" +:+ token = i)) as [<-|Hne'].
    + rewrite lookup_insert_eq. intros [= <-] Has.
      destruct (offered_available _ _ Hplain (Ha _ Has)) as (a & -> & _).
      by left.
    + rewrite lookup_insert_ne by done. intros; right; by eauto.
  - destruct (decide (k = i)) as [->|Hne'].
    + rewrite lookup_insert_eq. intros [= <-]. cbn. intros [= <-].
      left. by rewrite Ha.
    + rewrite lookup_insert_ne by done. intros; right; by eauto.
  - destruct (offered_available _ _ Hplain Hoff) as (a & Ha' & _).
    by rewrite Ha in Ha'.
  - destruct (decide (k = i)) as [->|Hne'].
    + rewrite lookup_insert_eq. intros [= <-]. cbn. right; eauto.
    + rewrite lookup_insert_ne by done. intros; right; by eauto.
  - destruct (decide (k = i)) as [->|Hne'].
    + rewrite lookup_insert_eq. intros [= <-]. cbn. right; eauto.
    + rewrite lookup_insert_ne by done. intros; right; by eauto.
  - destruct (decide (k = i)) as [->|Hne'].
    + rewrite lookup_insert_eq. intros [= <-]. cbn. right; eauto.
    + rewrite lookup_insert_ne by done. intros; right; by eauto.
  - destruct (decide (k = i)) as [->|Hne'].
    + rewrite lookup_insert_eq. intros [= <-]. cbn. right; eauto.
    + rewrite lookup_insert_ne by done. intros; right; by eauto.
  - destruct (decide (k = i)) as [->|Hne'].
    + rewrite lookup_insert_eq. intros [= <-]. cbn. intros [= <-].
      left. by rewrite Ha.
    + rewrite lookup_insert_ne by done. intros; right; by eauto.
Qed.

Lemma driver_message_mono db db' c :
  (∀ k, is_Some (patients db !! k) → is_Some (patients db' !! k)) →
  (∀ k, is_Some (ambulances db !! k) → is_Some (ambulances db' !! k)) →
  driver_message db c → driver_message db' c.
Proof.
  intros HP HA (Hs & (pid & Hpid & Hp) & Ha).
  split; [done|]. split; [by eauto|]. intros aid Haid. by eauto.
Qed.

(** The rows an operation appends, and what they name. *)
Lemma effect_rows db db' :
  plain_ids db →
  effect db db' →
  (∀ pid p aid, patients db !! pid = Some p →
                Patient.assigned_ambulance p = Some aid →
                is_Some (ambulances db !! aid)) →
  ∃ rs hs cs us,
    referrals db' = (referrals db ++ rs)%list
    ∧ handover_forms db' = (handover_forms db ++ hs)%list
    ∧ communications db' = (communications db ++ cs)%list
    ∧ location_updates db' = (location_updates db ++ us)%list
    ∧ Forall (referral_resolves db') rs
    ∧ Forall (handover_resolves db') hs
    ∧ Forall (driver_message db) cs
    ∧ Forall (location_resolves db) us.
Proof.
  intros Hplain He Hinv.
  assert (Hnil : ∀ d : Database,
            ∃ rs hs cs us,
              referrals db = (referrals db ++ rs)%list
              ∧ handover_forms db = (handover_forms db ++ hs)%list
              ∧ communications db = (communications db ++ cs)%list
              ∧ location_updates db = (location_updates db ++ us)%list
              ∧ Forall (referral_resolves d) rs
              ∧ Forall (handover_resolves d) hs
              ∧ Forall (driver_message db) cs
              ∧ Forall (location_resolves db) us).
  { intros d. exists [], [], [], []. by rewrite !app_nil_r. }
  effect_cases He; try apply Hnil.
  - eexists [_], [], [], []. rewrite !app_nil_r.
    repeat split; try done. constructor; [|done]. split; cbn.
    + by rewrite lookup_insert_eq.
    + intros i Hi.
      destruct (offered_available _ _ Hplain (Ha _ Hi)) as (a & -> & _). done.
  - eexists [], [_], [], []. rewrite !app_nil_r.
    repeat split; try done. constructor; [|done]. split; cbn.
    + by rewrite lookup_insert_eq.
    + intros i Hi. by eapply Hinv.
  - eexists [], [], [], [_]. rewrite !app_nil_r.
    repeat split; try done. constructor; [|done].
    unfold location_resolves. cbn. by rewrite Ha.
  - exists [], [], cs, []. by rewrite !app_nil_r.
  - exists [], [], cs, []. by rewrite !app_nil_r.
  - exists [], [], cs, []. by rewrite !app_nil_r.
Qed.

Lemma effect_references db db' :
  plain_ids db →
  effect db db' → references_resolve db → references_resolve db'.
Proof.
  intros Hplain He (Hcur & Hasg & Hrs & Hhs & Hcs & Hus).
  destruct (effect_keys _ _ He) as [HP HA].
  destruct (effect_rows _ _ Hplain He Hasg)
    as (rs & hs & cs & us & Er & Eh & Ec & Eu & Hrs' & Hhs' & Hcs' & Hus').
  unfold references_resolve. rewrite Er, Eh, Ec, Eu.
  split; [|split; [|split; [|split; [|split]]]].
  - intros i a' pid Hi Hc.
    destruct (effect_ambulance_row _ _ _ _ _ He Hi Hc) as [?|(a & Ha & Hca)];
      [by auto|]. by eapply HP, Hcur.
  - intros i p' aid Hi Hc.
    destruct (effect_patient_row _ _ _ _ _ Hplain He Hi Hc) as [?|(p & Hp & Hpa)];
      [by auto|]. by eapply HA, Hasg.
  - apply Forall_app. split; [|done].
    eapply Forall_impl; [exact Hrs|]. intros r [H1 H2].
    split; [by auto|]. intros aid Haid. by auto.
  - apply Forall_app. split; [|done].
    eapply Forall_impl; [exact Hhs|]. intros h [H1 H2].
    split; [by auto|]. intros aid Haid. by auto.
  - apply Forall_app. split.
    + eapply Forall_impl; [exact Hcs|]. intros c. by apply driver_message_mono.
    + eapply Forall_impl; [exact Hcs'|]. intros c. by apply driver_message_mono.
  - apply Forall_app. split.
    + eapply Forall_impl; [exact Hus|]. intros u. apply HA.
    + eapply Forall_impl; [exact Hus'|]. intros u. apply HA.
Qed.

Lemma initial_references : references_resolve (db initial_world).
Proof.
  split; [|split; [|repeat split; by constructor]].
  - intros aid a pid Ha Hc. apply initial_ambulances in Ha as [_ Hn].
    by rewrite Hn in Hc.
  - intros pid p aid. by rewrite initial_patients, lookup_empty.
Qed.

Lemma effect_plain_references db db' :
  effect db db' →
  plain_ids db ∧ references_resolve db →
  plain_ids db' ∧ references_resolve db'.
Proof.
  intros He [Hplain Href].
  split; [by eapply effect_plain|by eapply effect_references].
Qed.

Lemma fleet_plain k : is_Some (fleet !! k) → plain_id k.
Proof.
  intros [a Hl]. apply elem_of_map_to_list in Hl.
  apply (plain_ids_checked (map_to_list fleet)) in Hl; [exact Hl|].
  vm_compute. reflexivity.
Qed.

Lemma initial_plain : plain_ids (db initial_world).
Proof.
  intros k [a Hl]. apply elem_of_map_to_list in Hl.
  apply (plain_ids_checked (map_to_list (ambulances (db initial_world))))
    in Hl; [exact Hl|].
  vm_compute. reflexivity.
Qed.

(** X3.  No dangling reference, as long as every identifier of an
    ambulance is read back unchanged from its label.  The tables declare no
    foreign key.  The pages that offer ambulances show each one under the
    label 'identifier - driver' and record the part of the chosen label
    before the first ' - '; that part is the identifier itself unless a
    ' - ' of the label begins inside the identifier, as in 'KBA - 2' or in
    'KBA -'.  So: if, in a store, every identifier of an ambulance is read
    back unchanged ([plain_ids]), the [current_patient] of every
    ambulance names a patient, the [assigned_ambulance] of every patient
    names an ambulance, every referral and handover form names an existing
    patient (and ambulance, if it names one), every communication is a
    message of the driver about an existing patient (and ambulance), and
    every location update names an existing ambulance, then the same holds
    after every sequence of page operations and simulator steps, and after
    a whole simulation run with whatever the other control paths do
    meanwhile.  The seeded store is such a store.  Without the condition
    on the identifiers the references can break: see
    [label_prefix_dangles]. *)
Theorem references_stay_valid (actions : list action)
    (schedule : nat → list action) (ambulance_id patient_id : string)
    (start_lat start_lng end_lat end_lng : float) (w : World) :
  plain_ids (db w) →
  references_resolve (db w) →
  (plain_ids (db (run actions w))
   ∧ references_resolve (db (run actions w)))
  ∧ (plain_ids
       (db (start_simulation schedule ambulance_id patient_id start_lat
              start_lng end_lat end_lng w).1)
     ∧ references_resolve
         (db (start_simulation schedule ambulance_id patient_id start_lat
                start_lng end_lat end_lng w).1)).
Proof.
  intros Hplain Hw. split.
  - eapply (effects_preserve
              (λ db, plain_ids db ∧ references_resolve db)
              effect_plain_references); [apply run_effects|done].
  - eapply (effects_preserve
              (λ db, plain_ids db ∧ references_resolve db)
              effect_plain_references); [apply start_simulation_effects|done].
Qed.

Lemma references_stay_valid_witness :
  plain_ids (db initial_world)
  ∧ references_resolve (db initial_world)
  ∧ length (handover_forms (db (run one_transfer initial_world))) = 1%nat
  ∧ references_resolve (db (run one_transfer initial_world)).
Proof.
  split; [apply initial_plain|].
  split; [apply initial_references|]. split; [vm_compute; reflexivity|].
  apply (references_stay_valid one_transfer (λ _, []) A1 P1
           0%float 0%float 0%float 0%float initial_world).
  - apply initial_plain.
  - apply initial_references.
Defined.

(** Without plain identifiers the references do not stay valid: on the
    store whose only ambulance is ['KBA - 2'], the referral form with this
    ambulance chosen records ['KBA'], which names no ambulance. *)
Remark label_prefix_dangles :
  references_resolve lone_fleet
  ∧ ¬ plain_ids lone_fleet
  ∧ let db' := (ReferralUI.create_referral_form lone_fleet hospital_staff
                  P1_form_with_ambulance "0A1B2C3D").2 in
    (∃ p, patients db' !! P1 = Some p
          ∧ Patient.assigned_ambulance p = Some "KBA"
          ∧ ambulances db' !! "KBA" = None)
    ∧ ¬ references_resolve db'.
Proof.
  split; [|split].
  - split; [|split; [|repeat split; by constructor]].
    + intros aid a pid Ha Hc. unfold lone_fleet in Ha.
      cbn [ambulances set_ambulances empty_database] in Ha.
      apply lookup_insert_Some in Ha as [[_ <-]|[_ Ha]];
        [discriminate Hc|by rewrite lookup_empty in Ha].
    + intros pid p aid Hp. unfold lone_fleet in Hp.
      cbn [patients set_ambulances empty_database] in Hp.
      by rewrite lookup_empty in Hp.
  - intros Hplain.
    assert (Hk : is_Some (ambulances lone_fleet !! "KBA - 2"))
      by (eexists; vm_compute; reflexivity).
    apply Hplain in Hk. vm_compute in Hk. discriminate Hk.
  - cbv zeta.
    assert (Hrow : ∃ p,
               patients (ReferralUI.create_referral_form lone_fleet
                           hospital_staff P1_form_with_ambulance
                           "0A1B2C3D").2 !! P1 = Some p
               ∧ Patient.assigned_ambulance p = Some "KBA"
               ∧ ambulances (ReferralUI.create_referral_form lone_fleet
                               hospital_staff P1_form_with_ambulance
                               "0A1B2C3D").2 !! "KBA" = None)
      by (eexists; vm_compute; repeat split; reflexivity).
    split; [exact Hrow|].
    destruct Hrow as (p & Hp & Ha & Hnone). intros (_ & Hasg & _).
    destruct (Hasg P1 p "KBA" Hp Ha) as [a Hl].
    rewrite Hnone in Hl. discriminate Hl.
Qed.

(** ** The position of an ambulance and the log of its positions *)

Lemma effect_position db db' :
  effect db db' → position_logged db → position_logged db'.
Proof.
  intros He Hinv.
  assert (Hkeep : ∀ k (b b' : Ambulance.t) ps rs hs cs,
            ambulances db !! k = Some b → position b' = position b →
            position_logged
              (mkDatabase ps (<[k := b']> (ambulances db)) rs hs cs
                 (location_updates db))).
  { intros k b b' ps rs hs cs Hb Hpos i a' u.
    cbn [ambulances]. unfold track. cbn [location_updates].
    destruct (decide (k = i)) as [->|Hne].
    - rewrite lookup_insert_eq. intros [= <-] Hu. rewrite Hpos.
      by apply (Hinv i b u).
    - rewrite lookup_insert_ne by done. apply Hinv. }
  assert (Hsame : ∀ ps rs hs cs,
            position_logged
              (mkDatabase ps (ambulances db) rs hs cs (location_updates db))).
  { intros ps rs hs cs i a' u. apply Hinv. }
  effect_cases He; try (by apply Hsame); try (by eapply Hkeep).
  - by destruct db.
  - eapply Hkeep; [done|]. unfold on_transfer_for. by destruct (truthy _).
  - intros i a' u. unfold track, add_location_update, set_ambulances.
    cbn [ambulances location_updates].
    rewrite List.filter_app. cbn [List.filter LocationUpdate.ambulance_id].
    destruct (decide (aid = i)) as [->|Hne].
    + rewrite String.eqb_refl, lookup_insert_eq, last_snoc.
      by intros [= <-] [= <-].
    + apply String.eqb_neq in Hne as Hneb. rewrite Hneb, app_nil_r.
      rewrite lookup_insert_ne by done. apply Hinv.
Qed.


Lemma update_ambulance_location_commits db aid lat lng loc pid :
  AmbulanceService.update_ambulance_location db aid lat lng loc pid
  = match position_commit db (LocationUpdate.mk aid lat lng loc pid) with
    | Some db' =>
        (true, add_location_update db' (LocationUpdate.mk aid lat lng loc pid))
    | None => (false, db)
    end.
Proof.
  unfold AmbulanceService.update_ambulance_location, position_commit.
  cbn [LocationUpdate.ambulance_id LocationUpdate.latitude
       LocationUpdate.longitude LocationUpdate.location_name].
  by destruct (ambulances db !! aid).
Qed.










(** Two calls for one ambulance that overlap: each commits its position,
    then the second call logs its row, then the first.  No call is in
    flight any more, the ambulance is where the second call put it, and the
    newest row of the log is that of the first call. *)
Remark overlapping_calls_diverge :
  position_logged depot
  ∧ rtc commit (depot, []) (overlapped, [])
  ∧ ¬ position_logged overlapped.
Proof.
  split; [|split].
  - intros aid a u _. vm_compute. done.
  - eapply rtc_l;
      [refine (commit_position depot _ [] first_call _); reflexivity|].
    eapply rtc_l;
      [refine (commit_position _ _ [first_call] second_call _); reflexivity|].
    eapply rtc_l; [apply (commit_log _ [first_call] second_call [])|].
    eapply rtc_l; [apply (commit_log _ [] first_call [])|].
    apply rtc_refl.
  - intros Hpos.
    assert (Hrow : ∃ a, ambulances overlapped !! A0 = Some a
                        ∧ Ambulance.current_location a = Some "Kondele")
      by (eexists; vm_compute; split; reflexivity).
    destruct Hrow as (a & Hl & Hloc).
    assert (Hlast : last (track overlapped A0) = Some first_call)
      by (vm_compute; reflexivity).
    specialize (Hpos A0 a first_call Hl Hlast).
    apply (f_equal (λ t, t.1.1)) in Hpos. cbn in Hpos.
    rewrite Hloc in Hpos. discriminate Hpos.
Qed.

(** ** The driver dashboard *)

Lemma effect_crew db db' i :
  effect db db' →
  crew <$> ambulances db' !! i = crew <$> ambulances db !! i.
Proof.
  intros He.
  assert (Hkeep : ∀ j (b b' : Ambulance.t),
            ambulances db !! j = Some b → crew b' = crew b →
            crew <$> <[j := b']> (ambulances db) !! i
            = crew <$> ambulances db !! i).
  { intros j b b' Hb Hc. destruct (decide (j = i)) as [->|Hne].
    - rewrite lookup_insert_eq, Hb. cbn. by rewrite Hc.
    - by rewrite lookup_insert_ne. }
  effect_cases He; try done; try (by eapply Hkeep).
  eapply Hkeep; [done|]. unfold on_transfer_for. by destruct (truthy _).
Qed.

Lemma effects_crew db db' k :
  rtc effect db db' →
  crew <$> ambulances db' !! k = crew <$> ambulances db !! k.
Proof.
  induction 1 as [db|db1 db2 db3 He _ IH]; [done|].
  rewrite IH. by apply effect_crew.
Qed.

Lemma find_none_all {A} (f : A → bool) l :
  (∀ x, x ∈ l → f x = false) → List.find f l = None.
Proof.
  induction l as [|x l IH]; intros Hall; [done|]. simpl.
  rewrite (Hall x) by apply list_elem_of_here.
  apply IH. intros y Hy. apply Hall. by apply list_elem_of_further.
Qed.

Lemma driver_ambulance_none db name :
  DriverUI.driver_ambulance db name = None
  ↔ ∀ k a, ambulances db !! k = Some a → Ambulance.driver_name a ≠ Some name.
Proof.
  unfold DriverUI.driver_ambulance, get_all_ambulances. split.
  - intros Hnone k a Ha Hn.
    apply elem_of_map_to_list, list_elem_of_In in Ha.
    pose proof (List.find_none _ _ Hnone _ Ha) as Hf. cbn in Hf.
    rewrite Hn, String.eqb_refl in Hf. done.
  - intros Hall. apply find_none_all. intros [k a] Hin%elem_of_map_to_list.
    cbn. destruct (Ambulance.driver_name a) as [n|] eqn:Hn; [|done].
    apply String.eqb_neq. intros ->. by apply (Hall k a).
Qed.

Lemma effects_no_ambulance db db' name :
  rtc effect db db' →
  DriverUI.driver_ambulance db name = None →
  DriverUI.driver_ambulance db' name = None.
Proof.
  intros He. rewrite !driver_ambulance_none. intros Hall k a' Ha' Hn.
  pose proof (effects_crew _ _ k He) as Hc. rewrite Ha' in Hc.
  destruct (ambulances db !! k) as [a|] eqn:Ha; [|done].
  cbn in Hc. injection Hc as Hd _. apply (Hall k a); [done|]. congruence.
Qed.

(** X5.  The crew of an ambulance is fixed.  No page operation, no
    simulator step and no simulation run writes the [driver_name] or the
    [driver_contact] of an ambulance: after every sequence of operations
    followed by a whole simulation run, with whatever the other control
    paths do meanwhile, every ambulance has the driver and the contact it
    had, and there is no ambulance that was not there. *)
Theorem crew_is_fixed (actions : list action) (schedule : nat → list action)
    (ambulance_id patient_id : string)
    (start_lat start_lng end_lat end_lng : float) (w : World) (k : string) :
  crew <$> ambulances (db (run actions w)) !! k = crew <$> ambulances (db w) !! k
  ∧ crew <$> ambulances
               (db (start_simulation schedule ambulance_id patient_id start_lat
                      start_lng end_lat end_lng (run actions w)).1) !! k
    = crew <$> ambulances (db w) !! k.
Proof.
  pose proof (run_effects actions w) as H1.
  pose proof (start_simulation_effects schedule ambulance_id patient_id
                start_lat start_lng end_lat end_lng (run actions w)) as H2.
  split; [by apply effects_crew|].
  apply effects_crew. by etrans.
Qed.

(** X6.  A user without an ambulance stays without one.  If the name of a
    user is not the [driver_name] of an ambulance of the store, then after
    every sequence of operations, and after a simulation run on top of it,
    every button and form of the driver dashboard leaves the store as it is
    and starts no simulation thread.  This is the case of the configured
    driver account, whose name is 'Ambulance Driver', on the seeded
    fleet. *)
Theorem dashboard_without_ambulance (actions : list action)
    (schedule : nat → list action) (ambulance_id patient_id : string)
    (start_lat start_lng end_lat end_lng : float) (w : World) (user : User)
    (c : DriverUI.click) :
  DriverUI.driver_ambulance (db w) (driver_name_of user) = None →
  DriverUI.display_driver_dashboard (db (run actions w)) user c
  = (db (run actions w), None)
  ∧ DriverUI.display_driver_dashboard
      (db (start_simulation schedule ambulance_id patient_id start_lat
             start_lng end_lat end_lng (run actions w)).1) user c
    = (db (start_simulation schedule ambulance_id patient_id start_lat
             start_lng end_lat end_lng (run actions w)).1, None).
Proof.
  intros Hnone.
  pose proof (run_effects actions w) as H1.
  pose proof (start_simulation_effects schedule ambulance_id patient_id
                start_lat start_lng end_lat end_lng (run actions w)) as H2.
  assert (H3 := transitivity H1 H2). clear H2. revert H3.
  generalize (start_simulation schedule ambulance_id patient_id start_lat
                start_lng end_lat end_lng (run actions w)).1.
  intros w' H3. unfold DriverUI.display_driver_dashboard.
  fold (driver_name_of user).
  rewrite (effects_no_ambulance _ _ _ H1 Hnone).
  by rewrite (effects_no_ambulance _ _ _ H3 Hnone).
Qed.

Lemma dashboard_without_ambulance_witness :
  DriverUI.driver_ambulance (db initial_world) (driver_name_of driver) = None
  ∧ DriverUI.display_driver_dashboard (db (run one_transfer initial_world))
      driver (DriverUI.AcceptMission 0)
    = (db (run one_transfer initial_world), None).
Proof.
  split; [vm_compute; reflexivity|].
  apply (dashboard_without_ambulance one_transfer (λ _, []) A1 P1
           0%float 0%float 0%float 0%float initial_world driver
           (DriverUI.AcceptMission 0)).
  vm_compute. reflexivity.
Defined.

Lemma sent_by_driver pid aid message kind hospitals :
  Forall (λ c, Communication.sender c = "Driver")
    (List.map (λ hospital,
                 Communication.mk pid aid "Driver" hospital message kind)
       hospitals).
Proof. induction hospitals; by constructor. Qed.

Lemma touches_nothing aid pid db : touches_only aid pid db db.
Proof.
  repeat split; try done.
  - exists []. by rewrite app_nil_r.
  - exists []. by rewrite app_nil_r.
Qed.

Lemma touches_ambulance aid pid db a :
  touches_only aid pid db (set_ambulances (insert aid a) db).
Proof.
  repeat split; try done.
  - intros k Hk. cbn. by rewrite lookup_insert_ne.
  - exists []. by rewrite app_nil_r.
  - exists []. by rewrite app_nil_r.
Qed.

Lemma touches_messages aid pid db cs :
  Forall (λ c, Communication.sender c = "Driver") cs →
  touches_only aid pid db (DriverUI.add_communications db cs).
Proof.
  intros Hcs. rewrite add_communications_app.
  repeat split; try done.
  - by exists cs.
  - exists []. by rewrite app_nil_r.
Qed.

Lemma touches_location aid pid db lat lng loc o :
  touches_only aid pid db
    (AmbulanceService.update_ambulance_location db aid lat lng loc o).2.
Proof.
  unfold AmbulanceService.update_ambulance_location.
  destruct (ambulances db !! aid) as [a|]; [|apply touches_nothing].
  repeat split; try done.
  - intros k Hk. cbn. by rewrite lookup_insert_ne.
  - exists []. by rewrite app_nil_r.
  - eexists [_]. split; [reflexivity|]. by constructor.
Qed.

Lemma quick_actions_touches db aid pid c :
  touches_only aid pid db (DriverUI.quick_actions db aid c).
Proof.
  unfold DriverUI.quick_actions.
  destruct (ambulances db !! aid) as [a|]; [|apply touches_nothing].
  destruct c; try apply touches_nothing; apply touches_ambulance.
Qed.

Lemma current_mission_touches db ambulance patient c :
  touches_only ambulance.1 (Some patient.1) db
    (DriverUI.current_mission db ambulance patient c).
Proof.
  destruct c; cbn [DriverUI.current_mission]; try apply touches_nothing.
  - apply touches_location.
  - unfold DriverUI.send_message.
    destruct (selectbox _ recipient); [|apply touches_nothing].
    destruct (String.eqb message ""); [apply touches_nothing|].
    apply touches_messages, sent_by_driver.
  - unfold DriverUI.quick_update.
    destruct (DriverUI.quick_messages !! label) as [[? ?]|];
      [|apply touches_nothing].
    apply touches_messages, sent_by_driver.
  - unfold DriverUI.show_vitals_form. rewrite add_communications_app.
    repeat split; try done.
    + intros k Hk. cbn. rewrite lookup_insert_ne; [done|congruence].
    + eexists. split; [reflexivity|]. apply sent_by_driver.
    + exists []. by rewrite app_nil_r.
  - apply touches_location.
  - apply touches_messages, sent_by_driver.
  - unfold DriverUI.complete_mission. rewrite add_communications_app.
    repeat split; try done.
    + intros k Hk. cbn. by rewrite lookup_insert_ne.
    + intros k Hk. cbn. rewrite lookup_insert_ne; [done|congruence].
    + eexists. split; [reflexivity|]. apply sent_by_driver.
    + exists []. by rewrite app_nil_r.
Qed.

(** X7.  What a driver can reach.  For a user who drives an ambulance of
    the store, a button or form of the driver dashboard changes no other
    ambulance, no referral and no handover form; the messages it adds have
    the sender 'Driver' and the positions it logs are those of this
    ambulance; and the only patient row it can change is the
    [current_patient] of the ambulance, while the ambulance is on transfer,
    or, while the ambulance is available, a patient that is 'Referred' and
    has no ambulance assigned (the mission that is accepted). *)
Theorem driver_reach (db : Database) (user : User) (c : DriverUI.click)
    (ambulance : string * Ambulance.t) :
  DriverUI.driver_ambulance db (driver_name_of user) = Some ambulance →
  ∃ pid,
    touches_only ambulance.1 pid db
      (DriverUI.display_driver_dashboard db user c).1
    ∧ (pid = None
       ∨ (pid = Ambulance.current_patient ambulance.2
          ∧ Ambulance.status ambulance.2 = "On Transfer")
       ∨ (Ambulance.status ambulance.2 = "Available"
          ∧ ∃ k p, pid = Some k ∧ patients db !! k = Some p
                   ∧ Patient.status p = "Referred"
                   ∧ Patient.assigned_ambulance p = None)).
Proof.
  intros Hd. unfold DriverUI.display_driver_dashboard.
  fold (driver_name_of user). rewrite Hd. cbn [fst].
  destruct (quick_click c) eqn:Hq.
  - exists None. split; [|by left].
    match goal with
    | |- touches_only _ _ _ (DriverUI.quick_actions ?shown.1 _ _) =>
        assert (Hshown : shown.1 = db)
    end.
    { destruct (truthy _ && String.eqb _ "On Transfer").
      - destruct (Ambulance.current_patient ambulance.2) as [pid|]; [|done].
        destruct (get_patient_by_id db pid); [|done].
        cbn [fst]. by apply current_mission_quick.
      - destruct (String.eqb _ "Available"); [|done].
        by rewrite available_missions_quick. }
    rewrite Hshown. apply quick_actions_touches.
  - rewrite quick_actions_other by done.
    destruct (truthy _ && String.eqb _ "On Transfer") eqn:Hcond.
    + apply andb_true_iff in Hcond as [Ht Hs].
      apply truthy_inv in Ht as (pid & Hc & Hne). apply String.eqb_eq in Hs.
      rewrite Hc.
      destruct (get_patient_by_id db pid) as [p|] eqn:Hp.
      * exists (Some pid). split; [|by right; left].
        cbn [fst]. apply (current_mission_touches db ambulance (pid, p)).
      * exists None. split; [apply touches_nothing|by left].
    + destruct (String.eqb _ "Available") eqn:Hs.
      * apply String.eqb_eq in Hs.
        destruct c; cbn [DriverUI.available_missions fst];
          try (exists None; split; [apply touches_nothing|by left]).
        destruct (DriverUI.available_patients db !! mission) as [patient|] eqn:Hm;
          [|exists None; split; [apply touches_nothing|by left]].
        apply list_elem_of_lookup_2, available_patient_status in Hm
          as (Hp & Hst & Hna).
        exists (Some patient.1). cbn [fst]. split.
        -- repeat split; try done.
           ++ intros k Hk. cbn. by rewrite lookup_insert_ne.
           ++ intros k Hk. cbn. rewrite lookup_insert_ne; [done|congruence].
           ++ exists []. by rewrite app_nil_r.
           ++ exists []. by rewrite app_nil_r.
        -- right; right. split; [done|]. by exists patient.1, patient.2.
      * exists None. split; [apply touches_nothing|by left].
Qed.

Lemma driver_reach_witness :
  ∃ ambulance,
    DriverUI.driver_ambulance (db mission_accepted) (driver_name_of driver)
    = Some ambulance
    ∧ ambulance.1 = A0
    ∧ Ambulance.current_patient ambulance.2 = Some P1
    ∧ ∃ pid,
        touches_only A0 pid (db mission_accepted)
          (DriverUI.display_driver_dashboard (db mission_accepted) driver
             DriverUI.MarkPatientDelivered).1.
Proof.
  assert (Hd : ∃ ambulance,
             DriverUI.driver_ambulance (db mission_accepted)
               (driver_name_of driver) = Some ambulance
             ∧ ambulance.1 = A0
             ∧ Ambulance.current_patient ambulance.2 = Some P1)
    by (eexists; vm_compute; repeat split; reflexivity).
  destruct Hd as (ambulance & Hd & Hid & Hc).
  exists ambulance. split; [exact Hd|]. split; [exact Hid|].
  split; [exact Hc|].
  destruct (driver_reach (db mission_accepted) driver
              DriverUI.MarkPatientDelivered ambulance Hd) as (pid & Ht & _).
  exists pid. rewrite <- Hid. exact Ht.
Defined.

(** ** A run of the simulator on its own *)

Lemma after_samples_cons aid pid a db s samples :
  ambulances db !! aid = Some a →
  after_samples aid pid (moved s a)
    (add_location_update (set_ambulances (insert aid (moved s a)) db)
       (location_row aid pid s))
    samples
  = after_samples aid pid a db (s :: samples).
Proof.
  intros Ha. unfold after_samples.
  destruct samples as [|s' rest]; [reflexivity|].
  change (last (s :: s' :: rest)) with (last (s' :: rest)).
  destruct (last (s' :: rest)) as [sl|] eqn:Hl.
  - cbn [patients ambulances referrals handover_forms communications
         location_updates add_location_update set_ambulances].
    rewrite insert_insert_eq, <- app_assoc. reflexivity.
  - destruct rest; discriminate Hl || (by apply last_None in Hl).
Qed.

Section Alone.

Variable schedule : nat → list action.
Variables aid pid : string.
Variables start_lat start_lng end_lat end_lng : float.

Local Abbreviation loop :=
  (simulation_loop schedule aid pid start_lat start_lng end_lat end_lng).
Local Abbreviation sample_of :=
  (sample_at start_lat start_lng (lat_step start_lat end_lat)
     (lng_step start_lng end_lng) steps).

(** The loop while the other control paths do nothing. *)
Lemma loop_alone todo w a :
  (∀ k, k ∈ todo → schedule k = []) →
  running w = true →
  ambulances (db w) !! aid = Some a →
  loop todo w
  = (mkWorld (after_samples aid pid a (db w) (sample_of <$> todo)) true,
     sample_of <$> todo).
Proof.
  revert w a. induction todo as [|step todo IH]; intros w a Hsched Hr Ha.
  { simpl. destruct w as [d r]. cbn in Hr. by rewrite Hr. }
  simpl. rewrite Hr. cbn [negb].
  rewrite (Hsched step) by apply list_elem_of_here.
  change (run [] ?x) with x.
  assert (Hw : write_sample aid pid (sample_of step) w
               = mkWorld
                   (add_location_update
                      (set_ambulances
                         (insert aid (moved (sample_of step) a)) (db w))
                      (location_row aid pid (sample_of step)))
                   true).
  { unfold write_sample, AmbulanceService.update_ambulance_location.
    by rewrite Ha, Hr. }
  rewrite Hw.
  rewrite (IH _ (moved (sample_of step) a)).
  - cbn [fst snd db]. by rewrite after_samples_cons.
  - intros k Hk. apply Hsched. by apply list_elem_of_further.
  - done.
  - cbn. by rewrite lookup_insert_eq.
Qed.

(** The loop for an ambulance that is not in the store. *)
Lemma loop_alone_missing todo w :
  (∀ k, k ∈ todo → schedule k = []) →
  running w = true →
  ambulances (db w) !! aid = None →
  loop todo w = (w, sample_of <$> todo).
Proof.
  revert w. induction todo as [|step todo IH]; intros w Hsched Hr Ha; [done|].
  simpl. rewrite Hr. cbn [negb].
  rewrite (Hsched step) by apply list_elem_of_here.
  change (run [] ?x) with x.
  assert (Hw : write_sample aid pid (sample_of step) w = w).
  { unfold write_sample, AmbulanceService.update_ambulance_location.
    rewrite Ha. by destruct w. }
  rewrite Hw, IH; [done| |done|done].
  intros k Hk. apply Hsched. by apply list_elem_of_further.
Qed.

(** The loop when [stop_simulation] is called during the sleep of the last
    of the steps, and nothing else happens. *)
Lemma loop_stop todo k w a :
  (∀ j, j ∈ todo → schedule j = []) →
  schedule k = [StopSimulation] →
  running w = true →
  ambulances (db w) !! aid = Some a →
  loop (todo ++ [k])%list w
  = (mkWorld
       (after_samples aid pid a (db w) (sample_of <$> (todo ++ [k])%list))
       false,
     sample_of <$> (todo ++ [k])%list).
Proof.
  revert w a. induction todo as [|step todo IH]; intros w a Hsched Hk Hr Ha.
  { simpl. rewrite Hr, Hk. cbn [negb].
    unfold write_sample, AmbulanceService.update_ambulance_location.
    rewrite Ha. reflexivity. }
  simpl. rewrite Hr. cbn [negb].
  rewrite (Hsched step) by apply list_elem_of_here.
  change (run [] ?x) with x.
  assert (Hw : write_sample aid pid (sample_of step) w
               = mkWorld
                   (add_location_update
                      (set_ambulances
                         (insert aid (moved (sample_of step) a)) (db w))
                      (location_row aid pid (sample_of step)))
                   true).
  { unfold write_sample, AmbulanceService.update_ambulance_location.
    by rewrite Ha, Hr. }
  rewrite Hw.
  rewrite (IH _ (moved (sample_of step) a)).
  - cbn [fst snd db]. by rewrite after_samples_cons.
  - intros j Hj. apply Hsched. by apply list_elem_of_further.
  - done.
  - done.
  - cbn. by rewrite lookup_insert_eq.
Qed.

End Alone.

Lemma last_fmap_seq {A} (f : nat → A) n :
  last (f <$> seq 0 (n + 1)) = Some (f n).
Proof. rewrite seq_app, fmap_app. simpl. by rewrite last_snoc. Qed.

Lemma mark_arrived_after_samples aid pid a d samples s :
  last samples = Some s →
  mark_arrived aid (mkWorld (after_samples aid pid a d samples) true)
  = mkWorld (after_arrival aid pid a d samples) true.
Proof.
  intros Hl. unfold mark_arrived, after_samples, after_arrival. rewrite Hl.
  cbn [db ambulances running]. rewrite lookup_insert_eq.
  unfold set_ambulances.
  cbn [patients ambulances referrals handover_forms communications
       location_updates].
  by rewrite insert_insert_eq.
Qed.

(** X8.  A run of the simulator on its own, in closed form.  When the other
    control paths do nothing during a run for an ambulance of the store, the
    run ends with [running] still true and changes the store in two places
    only: the log of positions gets the 21 rows of the interpolation, in
    order, and the ambulance is at sample 20, 'Available' and without a
    patient.  Every patient row is as it was: the simulated arrival does
    not give the patient the status 'Arrived at Destination' and does not
    clear its [assigned_ambulance].  For an ambulance that is not in the
    store the run changes nothing at all. *)
Theorem undisturbed_run (ambulance_id patient_id : string)
    (start_lat start_lng end_lat end_lng : float) (w : World) :
  (start_simulation nobody_else ambulance_id patient_id start_lat start_lng
     end_lat end_lng w).1
  = match ambulances (db w) !! ambulance_id with
    | Some a =>
        let last_sample :=
          sample_at start_lat start_lng (lat_step start_lat end_lat)
            (lng_step start_lng end_lng) steps steps in
        mkWorld
          (mkDatabase (patients (db w))
             (<[ambulance_id := released (moved last_sample a)]>
                (ambulances (db w)))
             (referrals (db w)) (handover_forms (db w))
             (communications (db w))
             (location_updates (db w)
                ++ (location_row ambulance_id patient_id
                      <$> interpolation start_lat start_lng end_lat end_lng))%list)
          true
    | None => mkWorld (db w) true
    end.
Proof.
  rewrite start_simulation_world. unfold loop_left, interpolation.
  destruct (ambulances (db w) !! ambulance_id) as [a|] eqn:Ha.
  - rewrite (loop_alone nobody_else ambulance_id patient_id start_lat start_lng
               end_lat end_lng _ (mkWorld (db w) true) a); [|done|done|done].
    cbn [fst running db]. cbv zeta.
    rewrite (mark_arrived_after_samples _ _ _ _ _ _ (last_fmap_seq _ steps)).
    unfold after_arrival. rewrite last_fmap_seq. reflexivity.
  - rewrite (loop_alone_missing nobody_else ambulance_id patient_id start_lat
               start_lng end_lat end_lng _ (mkWorld (db w) true));
      [|done|done|done].
    cbn [fst running]. unfold mark_arrived. cbn [db]. by rewrite Ha.
Qed.

Lemma last_fmap_snoc {A B} (f : A → B) l x :
  last (f <$> (l ++ [x])%list) = Some (f x).
Proof. rewrite fmap_app. apply last_snoc. Qed.

Lemma stop_after_before k j : j ∈ seq 0 k → stop_after k j = [].
Proof.
  intros Hj%list_elem_of_In%in_seq. unfold stop_after.
  destruct (Nat.eqb_spec j k); [lia|done].
Qed.

Lemma stop_after_at k : stop_after k k = [StopSimulation].
Proof. unfold stop_after. by rewrite Nat.eqb_refl. Qed.

(** X9.  A stopped run, in closed form.  When [stop_simulation] is called
    during the sleep that follows step [k] of a run for an ambulance of the
    store, and nothing else happens, the run writes the samples 0 to [k]
    and no other: the log gets these [k + 1] rows, the ambulance is at
    sample [k] and keeps the status and the patient it had (it is not
    released), [running] is false, and nothing else in the store has
    changed. *)
Theorem stopped_run (ambulance_id patient_id : string)
    (start_lat start_lng end_lat end_lng : float) (w : World) (k : nat)
    (a : Ambulance.t) :
  (k ≤ steps)%nat →
  ambulances (db w) !! ambulance_id = Some a →
  let sample_of :=
    sample_at start_lat start_lng (lat_step start_lat end_lat)
      (lng_step start_lng end_lng) steps in
  start_simulation (stop_after k) ambulance_id patient_id start_lat start_lng
    end_lat end_lng w
  = (mkWorld
       (mkDatabase (patients (db w))
          (<[ambulance_id := moved (sample_of k) a]> (ambulances (db w)))
          (referrals (db w)) (handover_forms (db w)) (communications (db w))
          (location_updates (db w)
             ++ (location_row ambulance_id patient_id
                   <$> (sample_of <$> seq 0 (k + 1))))%list)
       false,
     sample_of <$> seq 0 (k + 1)).
Proof.
  intros Hk Ha sample_of. subst sample_of.
  rewrite start_simulation_unfold. unfold loop_left.
  replace (steps + 1)%nat with ((k + 1) + (steps - k))%nat by lia.
  rewrite (seq_app (k + 1)), loop_app, (seq_app k 1). cbn [seq Nat.add].
  rewrite (loop_stop (stop_after k) ambulance_id patient_id start_lat start_lng
             end_lat end_lng (seq 0 k) k (mkWorld (db w) true) a
             (stop_after_before k) (stop_after_at k) eq_refl Ha).
  cbn [fst snd]. rewrite loop_stopped by done. cbn [fst snd running db].
  rewrite app_nil_r. unfold after_samples.
  rewrite last_fmap_snoc. reflexivity.
Qed.

Lemma stopped_run_witness :
  ∃ a,
    ambulances store_P1_assigned !! A1 = Some a
    ∧ Ambulance.status a = "On Transfer"
    ∧ ∃ r,
        start_simulation (stop_after 4) A1 P1 (-0.0754) 34.7695 (-0.1743)
          34.9169 (mkWorld store_P1_assigned false) = r
        ∧ running r.1 = false
        ∧ length r.2 = 5%nat
        ∧ Ambulance.status <$> ambulances (db r.1) !! A1 = Some "On Transfer".
Proof.
  assert (Ha : ∃ a, ambulances store_P1_assigned !! A1 = Some a
                    ∧ Ambulance.status a = "On Transfer")
    by (eexists; vm_compute; split; reflexivity).
  destruct Ha as (a & Ha & Hs). exists a. split; [exact Ha|].
  split; [exact Hs|]. eexists. split.
  - apply (stopped_run A1 P1 (-0.0754) 34.7695 (-0.1743) 34.9169
             (mkWorld store_P1_assigned false) 4 a); [unfold steps; lia|exact Ha].
  - cbn [fst snd running db ambulances]. split; [reflexivity|].
    split; [reflexivity|]. rewrite lookup_insert_eq. cbn. by rewrite Hs.
Defined.

(** ** The seeded fleet *)

Lemma seed_rows rows db :
  let db' := foldl (λ db row,
                      set_ambulances
                        (insert (sample_ambulance row).1 (sample_ambulance row).2)
                        db) db rows in
  patients db' = patients db
  ∧ ambulances db'
    = foldl (λ m row, <[(sample_ambulance row).1 := (sample_ambulance row).2]> m)
        (ambulances db) rows
  ∧ referrals db' = referrals db
  ∧ handover_forms db' = handover_forms db
  ∧ communications db' = communications db
  ∧ location_updates db' = location_updates db.
Proof.
  cbv zeta. revert db. induction rows as [|row rows IH]; intros db; [done|].
  simpl. destruct (IH (set_ambulances
                         (insert (sample_ambulance row).1 (sample_ambulance row).2)
                         db)) as (-> & -> & -> & -> & -> & ->).
  done.
Qed.

Lemma seeded_fleet_size : size fleet = 20%nat.
Proof. vm_compute. reflexivity. Qed.

Lemma seeded_fleet k a :
  fleet !! k = Some a →
  Ambulance.status a = "Available" ∧ Ambulance.current_patient a = None.
Proof.
  intros Hl. apply elem_of_map_to_list, list_elem_of_In in Hl.
  assert (Hall : forallb
                   (λ row : string * Ambulance.t,
                      String.eqb (Ambulance.status row.2) "Available"
                      && negb (is_Some_b (Ambulance.current_patient row.2)))
                   (map_to_list fleet) = true)
    by (vm_compute; reflexivity).
  rewrite forallb_forall in Hall. specialize (Hall _ Hl). cbn [snd] in Hall.
  apply andb_true_iff in Hall as [Hs Hc]. apply String.eqb_eq in Hs.
  split; [exact Hs|].
  destruct (Ambulance.current_patient a); [discriminate Hc|reflexivity].
Qed.

Lemma initialize_sample_data_size db :
  size (ambulances (initialize_sample_data db)) ≠ 0%nat.
Proof.
  unfold initialize_sample_data. cbv zeta.
  destruct (Nat.eqb_spec (size (ambulances db)) 0) as [He|Hne]; [|done].
  apply map_size_empty_iff in He.
  destruct (seed_rows ambulances_data db) as (_ & -> & _).
  rewrite He. fold fleet. rewrite seeded_fleet_size. discriminate.
Qed.

(** X10.  The fleet is seeded once.  [initialize_sample_data] writes to the
    table of ambulances only.  On a store that has an ambulance it changes
    nothing; on a store without ambulances it inserts the twenty ambulances
    of the data, all 'Available' and without a patient.  Since no operation
    removes an ambulance, the call made when the application starts again
    changes nothing after whatever sequence of operations: the state of
    the fleet is never reset. *)
Theorem fleet_is_seeded_once (db0 : Database) (actions : list action)
    (r : bool) :
  let seeded := initialize_sample_data db0 in
  let later := db (run actions (mkWorld seeded r)) in
  (patients seeded = patients db0
   ∧ referrals seeded = referrals db0
   ∧ handover_forms seeded = handover_forms db0
   ∧ communications seeded = communications db0
   ∧ location_updates seeded = location_updates db0)
  ∧ (ambulances db0 ≠ ∅ → seeded = db0)
  ∧ (ambulances db0 = ∅ →
     size (ambulances seeded) = 20%nat
     ∧ ∀ k a, ambulances seeded !! k = Some a →
              Ambulance.status a = "Available"
              ∧ Ambulance.current_patient a = None)
  ∧ initialize_sample_data later = later.
Proof.
  intros seeded later. split; [|split; [|split]].
  - subst seeded. unfold initialize_sample_data. cbv zeta.
    destruct (Nat.eqb (size (ambulances db0)) 0); [|done].
    destruct (seed_rows ambulances_data db0) as (-> & _ & -> & -> & -> & ->).
    done.
  - intros Hne. subst seeded. unfold initialize_sample_data. cbv zeta.
    destruct (Nat.eqb_spec (size (ambulances db0)) 0) as [He|_]; [|done].
    by apply map_size_empty_iff in He.
  - intros He. subst seeded. unfold initialize_sample_data. cbv zeta.
    rewrite He, map_size_empty. cbn [Nat.eqb].
    destruct (seed_rows ambulances_data db0) as (_ & -> & _).
    rewrite He. fold fleet. split; [apply seeded_fleet_size|apply seeded_fleet].
  - assert (Hsize : size (ambulances later) = size (ambulances seeded)).
    { destruct (writes_grow _ _ _ (run_writes actions (mkWorld seeded r)))
        as (Hdom & _).
      cbn [db] in Hdom. fold later in Hdom.
      by rewrite <- !size_dom, Hdom. }
    pose proof (initialize_sample_data_size db0) as Hne. fold seeded in Hne.
    unfold initialize_sample_data. cbv zeta.
    destruct (Nat.eqb_spec (size (ambulances later)) 0) as [He|_]; [|done].
    congruence.
Qed.

(** ** A referral with an ambulance chosen in the form *)

Lemma filter_rows_elem {V : Type} (f : string * V → bool)
    (m : gmap string V) (row : string * V) :
  m !! row.1 = Some row.2 → f row = true →
  row ∈ List.filter f (map_to_list m).
Proof.
  intros Hl Hf. rewrite list_elem_of_In, filter_In, <- list_elem_of_In.
  split; [|done]. destruct row as [k v]. by apply elem_of_map_to_list.
Qed.

(** X11.  What a successful referral writes.  When "Create Referral"
    reports success, the message names the new identifier, 'PAT' followed
    by the token, which was not in the store; the store gets this one
    patient, with status 'Referred', and one referral row for it; and no
    ambulance row is touched.  The box of the form holds 'Auto-assign' and
    one label 'identifier - driver' per available ambulance.  With
    'Auto-assign' the patient has no ambulance; with any other label the
    patient and the referral row record the part of the label before the
    first ' - ', and nothing else happens to the ambulance: the ambulance
    of the chosen label was offered because it is 'Available', and it
    still is, so it is still offered for other patients.  What is recorded
    is the identifier of that ambulance when no ' - ' of the label begins
    inside the identifier.  The patient, having an ambulance on record, is
    not among the missions offered to drivers: only a patient created with
    'Auto-assign' is offered as a mission. *)
Theorem referral_records_ambulance (db : Database) (user : User)
    (form : ReferralUI.Form) (token msg : string) :
  (ReferralUI.create_referral_form db user form token).1 = st_success msg →
  let db' := (ReferralUI.create_referral_form db user form token).2 in
  let id := "PAT" +:+ token in
  ∃ p label,
    msg = "Referral created successfully! Patient ID: " +:+ id
    ∧ patients db !! id = None
    ∧ patients db' = <[id := p]> (patients db)
    ∧ ambulances db' = ambulances db
    ∧ referrals db'
      = (referrals db
           ++ [Referral.mk id "Ambulance Dispatched"
                 (Patient.assigned_ambulance p) (Some (role user))])%list
    ∧ Patient.status p = "Referred"
    ∧ selectbox (ReferralUI.ambulance_options db)
        (ReferralUI.ambulance_choice form)
      = Some label
    ∧ Patient.assigned_ambulance p
      = (if String.eqb label "Auto-assign" then None
         else Some (split_label label))
    ∧ ((id, p) ∈ DriverUI.available_patients db'
       ↔ Patient.assigned_ambulance p = None)
    ∧ (∀ aid, Patient.assigned_ambulance p = Some aid →
              ∃ amb, label = ambulance_label amb
                     ∧ amb ∈ get_available_ambulances db
                     ∧ amb ∈ get_available_ambulances db'
                     ∧ (plain_id amb.1 → aid = amb.1)).
Proof.
  cbv zeta. unfold ReferralUI.create_referral_form.
  destruct (selectbox _ (ReferralUI.referring_hospital form)) as [referring|];
    [|done].
  destruct (selectbox _ (ReferralUI.receiving_hospital form)) as [receiving|];
    [|done].
  destruct (selectbox _ (ReferralUI.ambulance_choice form)) as [choice|] eqn:Hch;
    [|done].
  destruct (negb (forallb id _)); [done|].
  destruct (String.eqb referring receiving); [done|].
  destruct (ReferralUI.hospital_row referring) as [d1|]; [|done].
  destruct (ReferralUI.hospital_row receiving) as [d2|]; [|done].
  unfold ReferralService.create_referral, add_patient.
  cbn [PatientData.patient_id PatientData.with_created_by].
  destruct (patients db !! ("PAT" +:+ token)) as [q|] eqn:Hq; [done|].
  cbn [fst snd]. intros [= <-].
  eexists. exists choice. split; [reflexivity|]. split; [reflexivity|].
  split; [reflexivity|]. split; [reflexivity|]. split; [reflexivity|].
  split; [reflexivity|]. split; [reflexivity|]. split; [reflexivity|].
  cbn [PatientData.to_patient PatientData.assigned_ambulance
       Patient.assigned_ambulance].
  split.
  - split.
    + intros Hin. apply available_patient_status in Hin as (_ & _ & Hna).
      exact Hna.
    + intros Hnone. cbn in Hnone.
      apply filter_rows_elem; [|cbn; by rewrite Hnone].
      cbn. by rewrite lookup_insert_eq.
  - intros aid Haid.
    destruct (String.eqb_spec choice "Auto-assign") as [|Hne]; [done|].
    injection Haid as <-.
    destruct (ambulance_option_label _ _ _ Hch Hne) as (amb & Hin & ->).
    exists amb. split; [done|]. split; [done|]. split; [exact Hin|].
    intros Hplain. by apply split_label_plain.
Qed.

Lemma referral_records_ambulance_witness :
  let r := ReferralUI.create_referral_form (db initial_world) hospital_staff
             P1_form_with_ambulance "0A1B2C3D" in
  r.1 = st_success "Referral created successfully! Patient ID: PAT0A1B2C3D"
  ∧ ∃ p amb,
      patients r.2 !! P1 = Some p
      ∧ Patient.assigned_ambulance p = Some amb.1
      ∧ ¬ ((P1, p) ∈ DriverUI.available_patients r.2)
      ∧ amb ∈ get_available_ambulances r.2.
Proof.
  intros r.
  assert (Hr : r.1 = st_success "Referral created successfully! Patient ID: PAT0A1B2C3D")
    by (vm_compute; reflexivity).
  split; [exact Hr|].
  destruct (referral_records_ambulance (db initial_world) hospital_staff
              P1_form_with_ambulance "0A1B2C3D" _ Hr)
    as (p & label & _ & _ & Hp & _ & _ & _ & Hsel & Has & Hav & Hamb).
  fold r in Hp, Hav, Hamb.
  assert (Hsome : ∃ l,
             selectbox (ReferralUI.ambulance_options (db initial_world))
               (ReferralUI.ambulance_choice P1_form_with_ambulance)
             = Some l ∧ String.eqb l "Auto-assign" = false)
    by (eexists; vm_compute; split; reflexivity).
  destruct Hsome as (l & Hl & Hne). rewrite Hl in Hsel.
  injection Hsel as <-. rewrite Hne in Has.
  destruct (Hamb _ Has) as (amb & _ & Hin & Hin' & Hid).
  exists p, amb.
  split; [by rewrite Hp, lookup_insert_eq|]. split.
  - rewrite Has. f_equal. apply Hid, initial_plain.
    apply available_ambulance_lookup in Hin as [Hlk _]. by rewrite Hlk.
  - split; [|exact Hin'].
    intros Hin0. apply Hav in Hin0. by rewrite Has in Hin0.
Defined.

(** ** The patients a user can act on *)

Lemma active_patient_scope db user_hospital (patient : string * Patient.t) :
  patient ∈ ReferralUI.active_patients db user_hospital →
  in_scope user_hospital patient.2.
Proof.
  unfold ReferralUI.active_patients, get_all_patients, in_scope.
  destruct (String.eqb user_hospital "All Facilities") eqn:Hall.
  { left. by apply String.eqb_eq. }
  destruct (existsb (String.eqb user_hospital) [JOOTRH; KCRH]) eqn:Hex.
  - intros Hin. apply filter_rows_lookup in Hin as [_ Hf].
    apply andb_true_iff in Hf as [Hf _]. apply String.eqb_eq in Hf.
    right; left. split; [|done].
    cbn [existsb] in Hex. rewrite orb_false_r in Hex.
    apply orb_true_iff in Hex as [H|H]; apply String.eqb_eq in H; auto.
  - intros Hin. apply filter_rows_lookup in Hin as [_ Hf].
    apply andb_true_iff in Hf as [Hf _]. apply String.eqb_eq in Hf.
    right; right. cbn [existsb] in Hex. rewrite orb_false_r in Hex.
    apply orb_false_iff in Hex as [H1 H2].
    apply String.eqb_neq in H1, H2. done.
Qed.

Lemma confirm_assignment_patients db user pc ac k :
  patients (ReferralUI.confirm_assignment db user pc ac).2 !! k
  = patients db !! k
  ∨ ∃ patient, patient ∈ ReferralUI.active_patients db (hospital user)
               ∧ patient.1 = k.
Proof.
  destruct (confirm_assignment_cases db user pc ac)
    as [[-> _]|(patient & amb & Hp & _ & ->)]; [by left|].
  apply list_elem_of_lookup_2 in Hp.
  destruct (decide (patient.1 = k)) as [Hk|Hk]; [right; by exists patient|].
  left. cbn [snd]. rewrite update_ambulance_status_patients.
  cbn. by rewrite lookup_insert_ne.
Qed.

Lemma update_status_patients db user pc sc k :
  patients (ReferralUI.update_status db user pc sc).2 !! k = patients db !! k
  ∨ ∃ patient, patient ∈ ReferralUI.active_patients db (hospital user)
               ∧ patient.1 = k.
Proof.
  unfold ReferralUI.update_status.
  destruct (ReferralUI.active_patients db (hospital user) !! pc) as [patient|] eqn:Hp;
    [|by left].
  apply list_elem_of_lookup_2 in Hp.
  destruct (selectbox ReferralUI.status_options sc); [|by left].
  destruct (decide (patient.1 = k)) as [Hk|Hk]; [right; by exists patient|].
  left. cbn. by rewrite lookup_insert_ne.
Qed.

Lemma create_handover_form_patients db user pc form k :
  patients (HandoverUI.create_handover_form db user pc form).2 !! k
  = patients db !! k
  ∨ ∃ patient, patient ∈ HandoverUI.eligible_patients db (hospital user)
               ∧ patient.1 = k.
Proof.
  destruct (create_handover_form_cases db user pc form)
    as [[-> _]|(sel & Hsel & Hphys & ->)]; [by left|].
  apply selectbox_elem in Hsel.
  destruct (decide (sel.1 = k)) as [Hk|Hk]; [right; by exists sel|].
  left. cbn. by rewrite lookup_insert_ne.
Qed.

(** X12.  The patients a user can act on.  On the referral page, "Confirm
    Assignment" and "Update" change no patient outside the scope of the
    user: staff of one of the two referral hospitals reach only the
    patients their hospital receives, staff of any other hospital only the
    patients their hospital refers, and only the administrator ('All
    Facilities') reaches every patient.  On the handover page, a user other
    than the administrator reaches only the patients the hospital of the
    user receives.  A patient out of scope keeps its row whatever is
    selected. *)
Theorem pages_respect_scope (db : Database) (user : User) (k : string)
    (p : Patient.t) :
  patients db !! k = Some p →
  (¬ in_scope (hospital user) p →
   ∀ patient_choice choice,
     patients (ReferralUI.confirm_assignment db user patient_choice choice).2
       !! k = Some p
     ∧ patients (ReferralUI.update_status db user patient_choice choice).2
         !! k = Some p)
  ∧ (¬ in_handover_scope (hospital user) p →
     ∀ patient_choice form,
       patients (HandoverUI.create_handover_form db user patient_choice form).2
         !! k = Some p).
Proof.
  intros Hp. split.
  - intros Hout pc c. split.
    + destruct (confirm_assignment_patients db user pc c k)
        as [->|([k' p'] & Hin & Hk)]; [done|].
      exfalso. apply Hout. cbn in Hk. subst k'.
      pose proof (active_patient_scope _ _ _ Hin) as Hsc.
      apply active_patient_status in Hin as [Hl _]. cbn in Hl, Hsc.
      rewrite Hp in Hl. by injection Hl as ->.
    + destruct (update_status_patients db user pc c k)
        as [->|([k' p'] & Hin & Hk)]; [done|].
      exfalso. apply Hout. cbn in Hk. subst k'.
      pose proof (active_patient_scope _ _ _ Hin) as Hsc.
      apply active_patient_status in Hin as [Hl _]. cbn in Hl, Hsc.
      rewrite Hp in Hl. by injection Hl as ->.
  - intros Hout pc form.
    destruct (create_handover_form_patients db user pc form k)
      as [->|([k' p'] & Hin & Hk)]; [done|].
    exfalso. apply Hout. cbn in Hk. subst k'.
    pose proof (eligible_patient_scope _ _ _ Hin) as Hsc.
    apply eligible_patient_lookup in Hin as [Hl _]. cbn in Hl, Hsc.
    rewrite Hp in Hl. by injection Hl as ->.
Qed.

Lemma pages_respect_scope_witness :
  ∃ p,
    patients store_with_P1 !! P1 = Some p
    ∧ ¬ in_scope (hospital lumumba_staff) p
    ∧ ∀ patient_choice choice,
        patients (ReferralUI.update_status store_with_P1 lumumba_staff
                    patient_choice choice).2 !! P1 = Some p.
Proof.
  assert (Hp : ∃ p, patients store_with_P1 !! P1 = Some p
                    ∧ Patient.referring_hospital p = JOOTRH)
    by (eexists; vm_compute; split; reflexivity).
  destruct Hp as (p & Hp & Href). exists p. split; [exact Hp|].
  assert (Hout : ¬ in_scope (hospital lumumba_staff) p).
  { intros [H|[[[H|H] _]|(_ & _ & H)]]; try discriminate H.
    rewrite Href in H. discriminate H. }
  split; [exact Hout|]. intros pc c.
  destruct (pages_respect_scope store_with_P1 lumumba_staff P1 p Hp) as [H _].
  exact (proj2 (H Hout pc c)).
Defined.

(** ** A mission of a driver *)

Lemma dashboard_available db user c aid a :
  DriverUI.driver_ambulance db (driver_name_of user) = Some (aid, a) →
  Ambulance.status a = "Available" →
  quick_click c = false →
  DriverUI.display_driver_dashboard db user c
  = DriverUI.available_missions db (aid, a) c.
Proof.
  intros Hd Hs Hq. unfold DriverUI.display_driver_dashboard.
  fold (driver_name_of user). rewrite Hd. cbn [fst snd]. rewrite Hs.
  change (String.eqb "Available" "On Transfer") with false.
  rewrite andb_false_r.
  change (String.eqb "Available" "Available") with true. cbv iota.
  rewrite quick_actions_other by done.
  by destruct (DriverUI.available_missions db (aid, a) c).
Qed.


(** X13.  Accepting a mission.  For a driver whose ambulance is
    'Available', "Accept Mission" on a listed patient (one that is
    'Referred' and has no ambulance on record) writes both rows and nothing
    else: the patient gets the ambulance and the status 'Ambulance
    Dispatched', the ambulance gets the patient and the status 'On
    Transfer'.  A simulation thread is started only when the latitudes of
    both hospitals of the patient are set and not zero; it runs from the
    position of the ambulance, not from the referring hospital, to the
    receiving hospital.  Afterwards the patient is no longer offered as a
    mission and the ambulance is no longer offered for assignment. *)
Theorem accept_mission (db : Database) (user : User) (mission : nat)
    (aid : string) (a : Ambulance.t) (pid : string) (p : Patient.t) :
  DriverUI.driver_ambulance db (driver_name_of user) = Some (aid, a) →
  Ambulance.status a = "Available" →
  DriverUI.available_patients db !! mission = Some (pid, p) →
  let r := DriverUI.display_driver_dashboard db user
             (DriverUI.AcceptMission mission) in
  r.1 = set_patients (insert pid (accepted_by aid p))
          (set_ambulances (insert aid (carrying pid a)) db)
  ∧ r.2 = (if truthy_float (Patient.referring_hospital_lat p)
              && truthy_float (Patient.receiving_hospital_lat p)
           then Some (DriverUI.mkThread aid pid
                        (Ambulance.latitude a, Ambulance.longitude a)
                        (Patient.receiving_hospital_lat p,
                         Patient.receiving_hospital_lng p))
           else None)
  ∧ Patient.status p = "Referred"
  ∧ Patient.assigned_ambulance p = None
  ∧ (∀ q, ¬ ((pid, q) ∈ DriverUI.available_patients r.1))
  ∧ (∀ b, ¬ ((aid, b) ∈ get_available_ambulances r.1)).
Proof.
  intros Hd Hs Hm r. subst r.
  rewrite (dashboard_available _ _ (DriverUI.AcceptMission mission) _ _ Hd Hs eq_refl).
  cbn [DriverUI.available_missions]. rewrite Hm. cbn [fst snd].
  apply list_elem_of_lookup_2, available_patient_status in Hm as (Hp & Hst & Hna).
  cbn [fst snd] in Hp, Hst, Hna.
  split; [reflexivity|]. split; [reflexivity|]. split; [exact Hst|].
  split; [exact Hna|]. split.
  - intros q Hin. apply available_patient_status in Hin as (Hq & Hsq & _).
    cbn in Hq. rewrite lookup_insert_eq in Hq. injection Hq as <-.
    discriminate Hsq.
  - intros b Hin. apply available_ambulance_lookup in Hin as (Hb & Hsb).
    cbn in Hb. rewrite lookup_insert_eq in Hb. injection Hb as <-.
    discriminate Hsb.
Qed.

Lemma accept_mission_witness :
  ∃ a p,
    DriverUI.driver_ambulance (initialize_sample_data depot)
      (driver_name_of driver) = Some (A0, a)
    ∧ DriverUI.available_patients
        (ReferralUI.create_referral_form (initialize_sample_data depot)
           hospital_staff P1_form "0A1B2C3D").2 !! 0%nat = Some (P1, p)
    ∧ ∃ thread,
        (DriverUI.display_driver_dashboard
           (ReferralUI.create_referral_form (initialize_sample_data depot)
              hospital_staff P1_form "0A1B2C3D").2
           driver (DriverUI.AcceptMission 0)).2 = Some thread
        ∧ DriverUI.thread_start thread
          = (Some (-0.1743)%float, Some 34.9169%float).
Proof.
  assert (Hd : ∃ a,
             DriverUI.driver_ambulance (initialize_sample_data depot)
               (driver_name_of driver) = Some (A0, a)
             ∧ DriverUI.driver_ambulance
                 (ReferralUI.create_referral_form (initialize_sample_data depot)
                    hospital_staff P1_form "0A1B2C3D").2
                 (driver_name_of driver) = Some (A0, a)
             ∧ Ambulance.status a = "Available"
             ∧ Ambulance.latitude a = Some (-0.1743)%float
             ∧ Ambulance.longitude a = Some 34.9169%float)
    by (eexists; vm_compute; repeat split; reflexivity).
  assert (Hm : ∃ p,
             DriverUI.available_patients
               (ReferralUI.create_referral_form (initialize_sample_data depot)
                  hospital_staff P1_form "0A1B2C3D").2 !! 0%nat = Some (P1, p)
             ∧ truthy_float (Patient.referring_hospital_lat p)
               && truthy_float (Patient.receiving_hospital_lat p) = true)
    by (eexists; vm_compute; split; reflexivity).
  destruct Hd as (a & Hd0 & Hd & Hs & Hlat & Hlng), Hm as (p & Hm & Ht).
  exists a, p. split; [exact Hd0|]. split; [exact Hm|].
  destruct (accept_mission _ driver 0 A0 a P1 p Hd Hs Hm) as (_ & Hthread & _).
  rewrite Ht in Hthread. eexists. split; [exact Hthread|].
  cbn [DriverUI.thread_start]. by rewrite Hlat, Hlng.
Defined.



(** ** The application with the configured accounts *)

Lemma authenticate_user_configured hash username password account :
  Authentication.authenticate_user hash username password = Some account →
  session_user account ∈ configured_users.
Proof.
  unfold Authentication.authenticate_user, Authentication.credentials,
    configured_users.
  cbn [List.find fst snd].
  repeat (destruct (String.eqb _ username);
          [cbn [Authentication.password];
           destruct (String.eqb (hash password) _); [|done];
           intros [= <-]; repeat constructor|]).
  done.
Qed.

Lemma fleet_has_no_driver_account k a :
  fleet !! k = Some a → Ambulance.driver_name a ≠ Some "Ambulance Driver".
Proof.
  intros Hl. apply elem_of_map_to_list, list_elem_of_In in Hl.
  assert (Hall : forallb
                   (λ row : string * Ambulance.t,
                      match Ambulance.driver_name row.2 with
                      | Some n => negb (String.eqb n "Ambulance Driver")
                      | None => true
                      end)
                   (map_to_list fleet) = true)
    by (vm_compute; reflexivity).
  rewrite forallb_forall in Hall. specialize (Hall _ Hl). cbn [snd] in Hall.
  clear Hl.
  destruct (Ambulance.driver_name a) as [n|]; [|discriminate].
  apply negb_true_iff, String.eqb_neq in Hall.
  intros Hn. injection Hn as Hn. exact (Hall Hn).
Qed.

Lemma idle_store_driver db c :
  idle_store db →
  DriverUI.display_driver_dashboard db driver c = (db, None).
Proof.
  intros (_ & _ & Hrows). unfold DriverUI.display_driver_dashboard.
  assert (Hnone : DriverUI.driver_ambulance db
                    (default (role driver) (user_name driver)) = None).
  { apply driver_ambulance_none. intros k a Ha Hn.
    destruct (Hrows k a Ha) as (_ & a0 & Ha0 & Hfix).
    apply (fleet_has_no_driver_account k a0 Ha0).
    apply (f_equal (λ t, t.1.1.1.2.1)) in Hfix. cbn in Hfix.
    by rewrite <- Hfix. }
  by rewrite Hnone.
Qed.

Lemma idle_store_seeded db :
  idle_store db → idle_store (initialize_sample_data db).
Proof.
  intros (Hc & Hu & Hrows). unfold initialize_sample_data. cbv zeta.
  destruct (Nat.eqb_spec (size (ambulances db)) 0) as [He|_]; [|done].
  apply map_size_empty_iff in He.
  destruct (seed_rows ambulances_data db) as (_ & Ea & _ & _ & Ec & Eu).
  unfold idle_store. rewrite Ea, Ec, Eu, He. fold fleet.
  split; [done|]. split; [done|]. intros k a Ha. split.
  - left. by apply (seeded_fleet k a).
  - by exists a.
Qed.

Lemma seeded_keeps_rows db k a :
  ambulances db !! k = Some a →
  ambulances (initialize_sample_data db) !! k = Some a.
Proof.
  intros Ha. unfold initialize_sample_data. cbv zeta.
  destruct (Nat.eqb_spec (size (ambulances db)) 0) as [He|_]; [|done].
  apply map_size_empty_iff in He. by rewrite He, lookup_empty in Ha.
Qed.

(** The tabs of the administrator and of the hospital staff start no
    thread, write no message and no position, and, the identifiers of the
    ambulances being plain, change an ambulance only from 'Available' to
    'On Transfer'. *)
Lemma office_tabs_quiet user r w :
  plain_ids (db w) →
  let shown := HospitalReferralApp.office_tabs user r w in
  shown.2 = None
  ∧ communications (db shown.1) = communications (db w)
  ∧ location_updates (db shown.1) = location_updates (db w)
  ∧ ∀ k, ambulances (db shown.1) !! k = ambulances (db w) !! k
         ∨ ∃ a pid, ambulances (db w) !! k = Some a
                    ∧ Ambulance.status a = "Available"
                    ∧ ambulances (db shown.1) !! k
                      = Some (on_transfer_for pid a).
Proof.
  intros Hplain.
  assert (Hsame : ∀ d : Database,
            communications d = communications (db w) →
            location_updates d = location_updates (db w) →
            ambulances d = ambulances (db w) →
            communications d = communications (db w)
            ∧ location_updates d = location_updates (db w)
            ∧ ∀ k, ambulances d !! k = ambulances (db w) !! k
                   ∨ ∃ a pid, ambulances (db w) !! k = Some a
                              ∧ Ambulance.status a = "Available"
                              ∧ ambulances d !! k
                                = Some (on_transfer_for pid a)).
  { intros d Hc Hu Ha. split; [done|]. split; [done|]. intros k. left.
    by rewrite Ha. }
  destruct r; cbn [HospitalReferralApp.office_tabs fst snd db];
    (split; [reflexivity|]).
  - (* the referral form *)
    unfold ReferralUI.create_referral_form.
    repeat case_match; try (by apply Hsame).
    all: match goal with
         | H : ReferralService.create_referral _ _ _ _ = _ |- _ =>
             unfold ReferralService.create_referral, add_patient in H;
             repeat case_match; simplify_eq
         end; by apply Hsame.
  - (* "Confirm Assignment" *)
    destruct (confirm_assignment_cases (db w) user patient_choice
                ambulance_choice)
      as [[-> _]|(patient & amb & Hp & Hsel & ->)]; [by apply Hsame|].
    apply list_elem_of_lookup_2 in Hsel.
    apply available_ambulance_lookup in Hsel as [Ha Hs].
    rewrite (split_label_plain amb) by (apply Hplain; by rewrite Ha).
    rewrite (update_ambulance_status_found _ _ _ amb.2) by exact Ha.
    cbn [snd communications location_updates ambulances set_ambulances
         set_patients].
    split; [done|]. split; [done|]. intros k.
    destruct (decide (amb.1 = k)) as [<-|Hk].
    + right. exists amb.2, patient.1. by rewrite lookup_insert_eq.
    + left. by rewrite lookup_insert_ne.
  - (* "Update" *)
    unfold ReferralUI.update_status. repeat case_match; by apply Hsame.
  - (* the handover form *)
    destruct (create_handover_form_cases (db w) user patient_choice form)
      as [[-> _]|(sel & _ & _ & ->)]; by apply Hsame.
  - by apply Hsame.
Qed.

Lemma on_transfer_for_fixed pid a : fixed (on_transfer_for pid a) = fixed a.
Proof. unfold on_transfer_for. by destruct (truthy _). Qed.

Lemma on_transfer_for_status pid a :
  Ambulance.status (on_transfer_for pid a) = "On Transfer".
Proof. unfold on_transfer_for. by destruct (truthy _). Qed.

Lemma office_tabs_idle user r w :
  idle_store (db w) →
  (HospitalReferralApp.office_tabs user r w).2 = None
  ∧ idle_store (db (HospitalReferralApp.office_tabs user r w).1)
  ∧ ∀ k a, ambulances (db w) !! k = Some a →
           Ambulance.status a = "On Transfer" →
           ambulances (db (HospitalReferralApp.office_tabs user r w).1) !! k
           = Some a.
Proof.
  intros (Hc & Hu & Hrows).
  assert (Hplain : plain_ids (db w)).
  { intros k [a Hk]. destruct (Hrows k a Hk) as (_ & a0 & Ha0 & _).
    apply fleet_plain. by rewrite Ha0. }
  destruct (office_tabs_quiet user r w Hplain) as (Ht & Ec & Eu & Ha).
  split; [exact Ht|]. split.
  - split; [by rewrite Ec|]. split; [by rewrite Eu|]. intros k a' Hk.
    destruct (Ha k) as [Hsame|(a & pid & Hold & Hs & Hnew)].
    + rewrite Hsame in Hk. by apply Hrows.
    + rewrite Hnew in Hk. injection Hk as <-.
      rewrite on_transfer_for_status, on_transfer_for_fixed.
      split; [by right|]. by destruct (Hrows k a Hold) as [_ ?].
  - intros k a Hk Hs.
    destruct (Ha k) as [Hsame|(a0 & pid & Hold & Hs0 & Hnew)].
    + by rewrite Hsame.
    + rewrite Hk in Hold. injection Hold as <-. rewrite Hs in Hs0.
      discriminate Hs0.
Qed.

Lemma render_main_app_idle user r w :
  user ∈ configured_users →
  idle_store (db w) →
  (HospitalReferralApp.render_main_app user r w).2 = None
  ∧ idle_store (db (HospitalReferralApp.render_main_app user r w).1)
  ∧ ∀ k a, ambulances (db w) !! k = Some a →
           Ambulance.status a = "On Transfer" →
           ambulances (db (HospitalReferralApp.render_main_app user r w).1) !! k
           = Some a.
Proof.
  intros Hu Hidle. unfold configured_users in Hu.
  apply elem_of_cons in Hu as [->|Hu]; [by apply office_tabs_idle|].
  apply elem_of_cons in Hu as [->|Hu]; [by apply office_tabs_idle|].
  apply elem_of_cons in Hu as [->|Hu].
  - change (HospitalReferralApp.render_main_app driver r w)
      with (HospitalReferralApp.render_driver_interface driver r w).
    destruct r; cbn [HospitalReferralApp.render_driver_interface]; try done.
    rewrite (idle_store_driver _ c Hidle). cbn [fst snd db]. done.
  - apply elem_of_cons in Hu as [->|Hu]; [by apply office_tabs_idle|].
    by apply elem_of_nil in Hu.
Qed.

Lemma run_idle hash app e :
  idle app →
  idle (HospitalReferralApp.run hash app e)
  ∧ ∀ k a,
      ambulances (db (HospitalReferralApp.store app)) !! k = Some a →
      Ambulance.status a = "On Transfer" →
      ambulances (db (HospitalReferralApp.store
                        (HospitalReferralApp.run hash app e))) !! k
      = Some a.
Proof.
  intros (Ht & Hs & Hi). apply idle_store_seeded in Hi.
  unfold HospitalReferralApp.run. cbv zeta.
  destruct e as [s username password|s|s r].
  - destruct (Authentication.authenticate_user hash username password)
      as [account|] eqn:Hauth.
    + split; [|intros k a Hk _; by apply seeded_keeps_rows].
      split; [done|]. split; [|done]. cbn [HospitalReferralApp.sessions].
      intros s' u. destruct (decide (s = s')) as [<-|Hne].
      * rewrite lookup_insert_eq. intros [= <-].
        by eapply authenticate_user_configured.
      * rewrite lookup_insert_ne by done. apply Hs.
    + split; [|intros k a Hk _; by apply seeded_keeps_rows]. done.
  - split; [|intros k a Hk _; by apply seeded_keeps_rows].
    split; [done|]. split; [|done]. cbn [HospitalReferralApp.sessions].
    intros s' u Hl.
    apply lookup_delete_Some in Hl as [_ Hl]. by eapply Hs.
  - destruct (HospitalReferralApp.sessions app !! s) as [user|] eqn:Hu.
    + destruct (render_main_app_idle user r
                  (mkWorld (initialize_sample_data
                              (db (HospitalReferralApp.store app)))
                     (running (HospitalReferralApp.store app)))
                  (Hs _ _ Hu) Hi) as (Hth & Hidle & Hkeep).
      split.
      * split; [|done]. cbn [HospitalReferralApp.threads].
        by rewrite Hth, Ht.
      * intros k a Hk Hst. cbn [HospitalReferralApp.store].
        apply Hkeep; [|done]. by apply seeded_keeps_rows.
    + split; [|intros k a Hk _; by apply seeded_keeps_rows]. done.
Qed.

Lemma start_idle : idle HospitalReferralApp.start.
Proof.
  split; [done|]. split.
  { intros s u. cbn. by rewrite lookup_empty. }
  split; [done|]. split; [done|]. intros k a. cbn. by rewrite lookup_empty.
Qed.

Lemma runs_idle hash events app :
  idle app →
  idle (foldl (HospitalReferralApp.run hash) app events)
  ∧ ∀ k a,
      ambulances (db (HospitalReferralApp.store app)) !! k = Some a →
      Ambulance.status a = "On Transfer" →
      ambulances
        (db (HospitalReferralApp.store
               (foldl (HospitalReferralApp.run hash) app events))) !! k
      = Some a.
Proof.
  revert app. induction events as [|e events IH]; intros app Hidle; [done|].
  simpl. destruct (run_idle hash app e Hidle) as [Hnext Hkeep].
  destruct (IH _ Hnext) as [Hend Hkeep']. split; [done|].
  intros k a Hk Hs. apply Hkeep'; [|done]. by apply Hkeep.
Qed.

(** The administrator logs in, refers P1 and assigns A1 to it, under
    whichever index the box lists A1: the ambulance is 'On Transfer' with
    P1. *)
Example administrator_assigns :
  ∃ ambulance_choice,
    let app := foldl (HospitalReferralApp.run (λ password, password))
                 HospitalReferralApp.start
                 [HospitalReferralApp.Login 0 "admin" "admin123";
                  HospitalReferralApp.Request 0
                    (HospitalReferralApp.Referral P1_form "0A1B2C3D");
                  HospitalReferralApp.Request 0
                    (HospitalReferralApp.Assignment 0 ambulance_choice)] in
    HospitalReferralApp.sessions app !! 0%nat = Some admin
    ∧ ∃ a, ambulances (db (HospitalReferralApp.store app)) !! A1 = Some a
           ∧ Ambulance.status a = "On Transfer"
           ∧ Ambulance.current_patient a = Some P1.
Proof.
  exists 8%nat. intros app. split; [vm_compute; reflexivity|].
  eexists. vm_compute. repeat split; reflexivity.
Qed.

(** X15.  The application with the configured accounts.  From the start of
    the server, whatever the digest function and whatever sequence of
    logins, logouts and page requests in whatever sessions: every session
    that is logged in has one of the four configured users; no simulation
    thread is ever started, no message and no position is ever written,
    and every ambulance is as it was seeded apart from its status and its
    patient: the name of the driver account is the [driver_name] of no
    seeded ambulance, so the driver dashboard never finds an ambulance, and
    it is the only code that writes messages, moves, releases or delivers.
    So an ambulance that was assigned, and is 'On Transfer', keeps its row
    for ever: it is never released. *)
Theorem configured_accounts_never_drive (hash : string → string)
    (events more : list HospitalReferralApp.event) :
  let app := foldl (HospitalReferralApp.run hash) HospitalReferralApp.start
               events in
  let later := foldl (HospitalReferralApp.run hash) app more in
  (∀ s u, HospitalReferralApp.sessions app !! s = Some u →
          u ∈ configured_users)
  ∧ HospitalReferralApp.threads app = []
  ∧ idle_store (db (HospitalReferralApp.store app))
  ∧ ∀ k a,
      ambulances (db (HospitalReferralApp.store app)) !! k = Some a →
      Ambulance.status a = "On Transfer" →
      ambulances (db (HospitalReferralApp.store later)) !! k = Some a.
Proof.
  intros app later.
  destruct (runs_idle hash events _ start_idle) as [(Ht & Hs & Hi) _].
  fold app in Ht, Hs, Hi.
  split; [exact Hs|]. split; [exact Ht|]. split; [exact Hi|].
  assert (Hidle : idle app) by done.
  destruct (runs_idle hash more app Hidle) as [_ Hkeep]. exact Hkeep.
Qed.

(** ** The rules of the referral form *)

Lemma referral_rules_identity p p' :
  unwritten p' = unwritten p → referral_rules p → referral_rules p'.
Proof.
  unfold unwritten, referral_rules. intros Hid.
  injection Hid as -> -> -> -> -> -> _ _ _ _ _ -> -> -> ->. done.
Qed.

Lemma effect_new_patient db db' i q0 :
  effect db db' →
  patients db !! i = None → patients db' !! i = Some q0 →
  referral_rules q0.
Proof.
  intros He Hnone.
  assert (Hins : ∀ j (q q' : Patient.t),
            patients db !! j = Some q →
            <[j := q']> (patients db) !! i = Some q0 → referral_rules q0).
  { intros j q q' Hq. destruct (decide (j = i)) as [->|Hne].
    - by rewrite Hq in Hnone.
    - rewrite lookup_insert_ne by done. by rewrite Hnone. }
  effect_cases He; try (by rewrite Hnone); try (by eapply Hins).
  destruct (decide ("PAT" +:+ token = i)) as [<-|Hne].
  - rewrite lookup_insert_eq. by intros [= <-].
  - rewrite lookup_insert_ne by done. by rewrite Hnone.
Qed.

Lemma effect_rules db db' : effect db db' → rules_hold db → rules_hold db'.
Proof.
  intros He Hinv pid p' Hp'.
  pose proof (effect_patient _ _ pid p' He Hp') as H.
  destruct (patients db !! pid) as [p|] eqn:Hp.
  - destruct H as [Hid _]. eapply referral_rules_identity; [exact Hid|].
    by eapply Hinv.
  - by eapply effect_new_patient.
Qed.

Lemma hospital_row_latitude name row :
  ReferralUI.hospital_row name = Some row → truthy_float (Some row.1) = true.
Proof.
  unfold ReferralUI.hospital_row.
  destruct (List.find _ hospitals_df) as [r|] eqn:Hf; [|done].
  intros [= <-]. apply find_some in Hf as [Hin _].
  assert (Hall : forallb (λ r : string * float * float,
                            negb (PrimFloat.eqb r.1.2 0%float))
                   hospitals_df = true)
    by (vm_compute; reflexivity).
  rewrite forallb_forall in Hall. exact (Hall _ Hin).
Qed.

Lemma referral_centre name row :
  name = JOOTRH ∨ name = KCRH →
  ReferralUI.hospital_row name = Some row →
  row = ((-0.0754)%float, 34.7695%float).
Proof.
  intros [->| ->] Hrow.
  - assert (H : ReferralUI.hospital_row JOOTRH
                = Some ((-0.0754)%float, 34.7695%float))
      by (vm_compute; reflexivity).
    rewrite H in Hrow. by injection Hrow as <-.
  - assert (H : ReferralUI.hospital_row KCRH
                = Some ((-0.0754)%float, 34.7695%float))
      by (vm_compute; reflexivity).
    rewrite H in Hrow. by injection Hrow as <-.
Qed.

Lemma referral_rules_simulation p :
  referral_rules p →
  Patient.receiving_hospital_lat p = Some (-0.0754)%float
  ∧ Patient.receiving_hospital_lng p = Some 34.7695%float
  ∧ simulation_starts p.
Proof.
  intros (Hrec & _ & _ & _ & _ & _ & (r1 & Hr1 & Hlat1 & _)
          & (r2 & Hr2 & Hlat2 & Hlng2)).
  pose proof (referral_centre _ _ Hrec Hr2) as ->.
  split; [exact Hlat2|]. split; [exact Hlng2|].
  unfold simulation_starts. rewrite Hlat1, Hlat2.
  rewrite (hospital_row_latitude _ _ Hr1). reflexivity.
Qed.

(** X16.  The rules of the referral form hold of every patient.  If every
    patient of a store was written as the form writes it, so is every
    patient after any sequence of operations and after a simulation run on
    top of it: the receiving hospital is one of the two referral hospitals,
    name, age, condition, referring physician and referring hospital are
    filled in, and the coordinates of both hospitals are those of the first
    row of the hospital data with that name.  The two referral hospitals
    have the same coordinates in the data, so every patient is received at
    (-0.0754, 34.7695); and no latitude of the data is zero, so "Accept
    Mission" starts a simulation for every patient. *)
Theorem referral_rules_hold (actions : list action)
    (schedule : nat → list action) (ambulance_id patient_id : string)
    (start_lat start_lng end_lat end_lng : float) (w : World)
    (pid : string) (p : Patient.t) :
  rules_hold (db w) →
  patients (db (run actions w)) !! pid = Some p
  ∨ patients
      (db (start_simulation schedule ambulance_id patient_id start_lat
             start_lng end_lat end_lng (run actions w)).1) !! pid = Some p →
  referral_rules p
  ∧ Patient.receiving_hospital_lat p = Some (-0.0754)%float
  ∧ Patient.receiving_hospital_lng p = Some 34.7695%float
  ∧ simulation_starts p.
Proof.
  intros Hw Hp.
  pose proof (run_effects actions w) as H1.
  pose proof (start_simulation_effects schedule ambulance_id patient_id
                start_lat start_lng end_lat end_lng (run actions w)) as H2.
  assert (H3 := transitivity H1 H2). clear H2. revert Hp H3.
  generalize (start_simulation schedule ambulance_id patient_id start_lat
                start_lng end_lat end_lng (run actions w)).1.
  intros w' Hp H3.
  assert (Hr : referral_rules p).
  { destruct Hp as [Hp|Hp].
    - by eapply (effects_preserve _ effect_rules _ _ H1 Hw).
    - by eapply (effects_preserve _ effect_rules _ _ H3 Hw). }
  split; [exact Hr|]. by apply referral_rules_simulation.
Qed.

Lemma referral_rules_hold_witness :
  rules_hold (db initial_world)
  ∧ ∃ p,
      patients (db (run one_transfer initial_world)) !! P1 = Some p
      ∧ Patient.status p = "Completed"
      ∧ Patient.receiving_hospital p = KCRH
      ∧ Patient.receiving_hospital_lat p = Some (-0.0754)%float
      ∧ simulation_starts p.
Proof.
  assert (Hw : rules_hold (db initial_world)).
  { intros pid p. by rewrite initial_patients, lookup_empty. }
  split; [exact Hw|].
  assert (Hp : ∃ p, patients (db (run one_transfer initial_world)) !! P1 = Some p
                    ∧ Patient.status p = "Completed"
                    ∧ Patient.receiving_hospital p = KCRH)
    by (eexists; vm_compute; repeat split; reflexivity).
  destruct Hp as (p & Hp & Hs & Hh). exists p.
  split; [exact Hp|]. split; [exact Hs|]. split; [exact Hh|].
  destruct (referral_rules_hold one_transfer (λ _, []) A1 P1
              0%float 0%float 0%float 0%float initial_world P1 p Hw
              (or_introl Hp)) as (_ & Hlat & _ & Hsim).
  split; [exact Hlat|exact Hsim].
Defined.

(** ** A patient assigned twice *)

Lemma on_transfer_for_named pid a :
  pid ≠ "" → on_transfer_for pid a = dispatched_for pid a.
Proof. intros Hne. unfold on_transfer_for. by rewrite (truthy_Some _ Hne). Qed.

Lemma confirm_assignment_selected db user pc ac pid p aid a :
  pid ≠ "" →
  plain_id aid →
  ReferralUI.active_patients db (hospital user) !! pc = Some (pid, p) →
  get_available_ambulances db !! ac = Some (aid, a) →
  ReferralUI.confirm_assignment db user pc ac
  = (st_success "Ambulance assigned successfully!",
     set_ambulances (insert aid (dispatched_for pid a))
       (set_patients (insert pid (assigned_to aid p)) db)).
Proof.
  intros Hne Hplain Hpc Hac. unfold ReferralUI.confirm_assignment.
  rewrite Hpc.
  pose proof Hpc as Hp. pose proof Hac as Ha.
  apply list_elem_of_lookup_2, active_patient_status in Hp as [Hp _].
  apply list_elem_of_lookup_2, available_ambulance_lookup in Ha as [Ha _].
  cbn [fst snd] in Hp, Ha.
  destruct (get_available_ambulances db) as [|amb0 rest] eqn:Hav; [done|].
  cbv zeta. unfold selectbox. rewrite lookup_map, Hac.
  cbn [fmap option_fmap option_map].
  rewrite (split_label_plain (aid, a)) by exact Hplain. cbn [fst snd].
  rewrite (assign_ambulance_known _ _ _ _ Hp).
  rewrite (update_ambulance_status_found _ _ _ a) by exact Ha.
  by rewrite on_transfer_for_named.
Qed.

Lemma active_after_assignment db user_hospital pid p aid d :
  (pid, p) ∈ ReferralUI.active_patients db user_hospital →
  patients d = <[pid := assigned_to aid p]> (patients db) →
  (pid, assigned_to aid p) ∈ ReferralUI.active_patients d user_hospital.
Proof.
  unfold ReferralUI.active_patients, get_all_patients. intros Hin Hd.
  rewrite Hd.
  repeat case_match; apply filter_rows_lookup in Hin as [_ Hf];
    (apply filter_rows_elem; [cbn; by rewrite lookup_insert_eq|]);
    cbn in *; try done.
  - apply andb_true_iff in Hf as [-> _]. done.
  - apply andb_true_iff in Hf as [-> _]. done.
Qed.

(** X17.  A patient can be assigned twice.  "Confirm Assignment" for a
    listed patient and an offered ambulance whose identifier is read back
    unchanged from its label (no ' - ' of the label begins inside the
    identifier) succeeds and writes both rows; the ambulance is then no longer offered, but the
    patient, now 'Ambulance Assigned', is still listed.  A second "Confirm
    Assignment" for the same patient with another such ambulance succeeds
    as well: the patient then names the second ambulance, and both
    ambulances are 'On Transfer' with this patient; the first one is not
    released. *)
Theorem patient_assigned_twice (db : Database) (user : User)
    (patient_choice ambulance_choice : nat) (pid : string) (p : Patient.t)
    (aid : string) (a : Ambulance.t) :
  pid ≠ "" →
  plain_id aid →
  ReferralUI.active_patients db (hospital user) !! patient_choice
  = Some (pid, p) →
  get_available_ambulances db !! ambulance_choice = Some (aid, a) →
  let r := ReferralUI.confirm_assignment db user patient_choice
             ambulance_choice in
  r = (st_success "Ambulance assigned successfully!",
       set_ambulances (insert aid (dispatched_for pid a))
         (set_patients (insert pid (assigned_to aid p)) db))
  ∧ (∀ b, ¬ ((aid, b) ∈ get_available_ambulances r.2))
  ∧ (pid, assigned_to aid p) ∈ ReferralUI.active_patients r.2 (hospital user)
  ∧ ∀ patient_choice' ambulance_choice' aid' a',
      plain_id aid' →
      ReferralUI.active_patients r.2 (hospital user) !! patient_choice'
      = Some (pid, assigned_to aid p) →
      get_available_ambulances r.2 !! ambulance_choice' = Some (aid', a') →
      let r' := ReferralUI.confirm_assignment r.2 user patient_choice'
                  ambulance_choice' in
      r'.1 = st_success "Ambulance assigned successfully!"
      ∧ aid' ≠ aid
      ∧ ambulances r'.2 !! aid = Some (dispatched_for pid a)
      ∧ ambulances r'.2 !! aid' = Some (dispatched_for pid a')
      ∧ patients r'.2 !! pid = Some (assigned_to aid' (assigned_to aid p)).
Proof.
  intros Hne Hplain Hpc Hac r. subst r.
  rewrite (confirm_assignment_selected _ _ _ _ _ _ _ _ Hne Hplain Hpc Hac).
  cbn [fst snd].
  assert (Hoff : ∀ b, ¬ ((aid, b)
                   ∈ get_available_ambulances
                       (set_ambulances (insert aid (dispatched_for pid a))
                          (set_patients (insert pid (assigned_to aid p)) db)))).
  { intros b Hin. apply available_ambulance_lookup in Hin as (Hb & Hsb).
    cbn in Hb. rewrite lookup_insert_eq in Hb. injection Hb as <-.
    discriminate Hsb. }
  split; [reflexivity|]. split; [exact Hoff|]. split.
  - eapply active_after_assignment; [by eapply list_elem_of_lookup_2|done].
  - intros pc' ac' aid' a' Hplain' Hpc' Hac'. cbv zeta.
    rewrite (confirm_assignment_selected _ _ _ _ _ _ _ _ Hne Hplain' Hpc' Hac').
    cbn [fst snd].
    assert (Hdiff : aid' ≠ aid).
    { intros ->. by eapply Hoff, list_elem_of_lookup_2. }
    split; [reflexivity|]. split; [exact Hdiff|].
    cbn [patients ambulances set_patients set_ambulances].
    rewrite lookup_insert_ne by done. rewrite !lookup_insert_eq. done.
Qed.

(** The witness: P1 is assigned to A1 and then to another ambulance of the
    seeded fleet, under whichever indices the box lists them. *)
Lemma patient_assigned_twice_witness :
  ∃ ambulance_choice ambulance_choice' p a aid' a',
    ReferralUI.active_patients store_with_P1 (hospital admin) !! 0%nat
    = Some (P1, p)
    ∧ get_available_ambulances store_with_P1 !! ambulance_choice
      = Some (A1, a)
    ∧ get_available_ambulances
        (ReferralUI.confirm_assignment store_with_P1 admin 0
           ambulance_choice).2 !! ambulance_choice'
      = Some (aid', a')
    ∧ ambulances
        (ReferralUI.confirm_assignment
           (ReferralUI.confirm_assignment store_with_P1 admin 0
              ambulance_choice).2
           admin 0 ambulance_choice').2 !! A1
      = Some (dispatched_for P1 a)
    ∧ ambulances
        (ReferralUI.confirm_assignment
           (ReferralUI.confirm_assignment store_with_P1 admin 0
              ambulance_choice).2
           admin 0 ambulance_choice').2 !! aid'
      = Some (dispatched_for P1 a').
Proof.
  assert (H0 : ∃ p a,
             ReferralUI.active_patients store_with_P1 (hospital admin) !! 0%nat
             = Some (P1, p)
             ∧ get_available_ambulances store_with_P1 !! 8%nat = Some (A1, a))
    by (do 2 eexists; vm_compute; split; reflexivity).
  destruct H0 as (p & a & Hpc & Hac).
  destruct (patient_assigned_twice store_with_P1 admin 0 8 P1 p A1 a
              ltac:(discriminate) ltac:(vm_compute; reflexivity) Hpc Hac)
    as (Hr & _ & _ & Hnext).
  assert (H1 : ∃ a',
             get_available_ambulances
               (ReferralUI.confirm_assignment store_with_P1 admin 0 8).2 !! 0%nat
             = Some ("KBG 774K", a')
             ∧ ∃ q, ReferralUI.active_patients
                      (ReferralUI.confirm_assignment store_with_P1 admin 0 8).2
                      (hospital admin) !! 0%nat = Some (P1, q))
    by (eexists; vm_compute; split; [reflexivity|eexists; reflexivity]).
  destruct H1 as (a' & Hac' & q & Hpc').
  exists 8%nat, 0%nat, p, a, "KBG 774K", a'.
  split; [exact Hpc|]. split; [exact Hac|].
  split; [exact Hac'|].
  assert (Hq : q = assigned_to A1 p).
  { apply list_elem_of_lookup_2, active_patient_status in Hpc' as [Hq _].
    cbn [fst snd] in Hq. rewrite Hr in Hq. cbn in Hq.
    rewrite lookup_insert_eq in Hq. by injection Hq as <-. }
  subst q.
  destruct (Hnext 0%nat 0%nat "KBG 774K" a' ltac:(vm_compute; reflexivity)
              Hpc' Hac') as (_ & _ & H & H' & _).
  split; [exact H|exact H'].
Defined.

(** ** Completed patients and their handover forms *)

Lemma effect_completed db db' :
  effect db db' → completed_on_file db → completed_on_file db'.
Proof.
  intros He Hinv.
  (* a row that is kept, or rewritten with the same record and status *)
  assert (Hkeep : ∀ i (q q' : Patient.t) hs pid p',
            patients db !! i = Some q →
            unwritten q' = unwritten q →
            Patient.receiving_physician q' = Patient.receiving_physician q →
            (Patient.status q' = "Completed" → Patient.status q = "Completed") →
            <[i := q']> (patients db) !! pid = Some p' →
            Patient.status p' = "Completed" →
            ∃ h, h ∈ (handover_forms db ++ hs)%list ∧ on_file pid p' h).
  { intros i q q' hs pid p' Hq Hid Hph Hst.
    destruct (decide (i = pid)) as [->|Hne].
    - rewrite lookup_insert_eq. intros [= <-] Hc.
      destruct (Hinv pid q Hq (Hst Hc)) as (h & Hin & Hfile).
      exists h. split; [apply elem_of_app; by left|].
      unfold on_file in *. unfold unwritten in Hid.
      injection Hid as -> -> -> -> -> -> _ _ _ _ _ _ _ _ _.
      by rewrite Hph.
    - rewrite lookup_insert_ne by done. intros Hp Hc.
      destruct (Hinv pid p' Hp Hc) as (h & Hin & Hfile).
      exists h. split; [apply elem_of_app; by left|done]. }
  assert (Hsame : ∀ pid p',
            patients db !! pid = Some p' →
            Patient.status p' = "Completed" →
            ∃ h, h ∈ handover_forms db ∧ on_file pid p' h).
  { intros pid p'. apply Hinv. }
  assert (Hnil : ∀ i (q q' : Patient.t) pid p',
            patients db !! i = Some q →
            unwritten q' = unwritten q →
            Patient.receiving_physician q' = Patient.receiving_physician q →
            (Patient.status q' = "Completed" → Patient.status q = "Completed") →
            <[i := q']> (patients db) !! pid = Some p' →
            Patient.status p' = "Completed" →
            ∃ h, h ∈ handover_forms db ∧ on_file pid p' h).
  { intros i q q' pid p' Hq Hid Hph Hst Hl Hc.
    destruct (Hkeep i q q' [] pid p' Hq Hid Hph Hst Hl Hc) as (h & Hin & Hf).
    rewrite app_nil_r in Hin. by exists h. }
  unfold completed_on_file.
  effect_cases He; try exact Hsame; intros pid p'.
  - (* a new patient is 'Referred' *)
    destruct (decide ("PAT" +:+ token = pid)) as [<-|Hne].
    + rewrite lookup_insert_eq. intros [= <-] Hc. rewrite Hst in Hc.
      discriminate Hc.
    + rewrite lookup_insert_ne by done. apply Hsame.
  - by apply (Hnil k p).
  - by apply (Hnil k p).
  - apply (Hnil k p); try done. cbn. intros ->.
    unfold ReferralUI.status_options in Hin.
    repeat (apply elem_of_cons in Hin as [Hin|Hin]; [discriminate Hin|]).
    by apply elem_of_nil in Hin.
  - (* the handover itself *)
    destruct (decide (k = pid)) as [->|Hne].
    + rewrite lookup_insert_eq. intros [= <-] _.
      eexists. split; [apply elem_of_app; right; apply list_elem_of_here|].
      by repeat split.
    + rewrite lookup_insert_ne by done. intros Hl Hc.
      destruct (Hinv pid p' Hl Hc) as (h & Hh & Hf).
      exists h. split; [apply elem_of_app; by left|done].
  - by apply (Hnil k p).
  - by apply (Hnil k p).
  - by apply (Hnil k p).
Qed.

(** X18.  A completed patient has its handover on file.  If every patient
    with the status 'Completed' has a handover form that names it, copies
    its name, age, condition, hospitals and referring physician and is
    signed by its receiving physician, which is not empty, then the same
    holds after every sequence of operations and after a simulation run on
    top of it: only a handover gives the status 'Completed', it files the
    form in the same step, no later operation changes the copied columns or
    the receiving physician, and no form is ever removed.  The seeded
    store, which has no patient, is such a store. *)
Theorem completed_has_handover (actions : list action)
    (schedule : nat → list action) (ambulance_id patient_id : string)
    (start_lat start_lng end_lat end_lng : float) (w : World) :
  completed_on_file (db w) →
  completed_on_file (db (run actions w))
  ∧ completed_on_file
      (db (start_simulation schedule ambulance_id patient_id start_lat
             start_lng end_lat end_lng (run actions w)).1).
Proof.
  intros Hw.
  pose proof (run_effects actions w) as H1.
  pose proof (start_simulation_effects schedule ambulance_id patient_id
                start_lat start_lng end_lat end_lng (run actions w)) as H2.
  assert (H3 := transitivity H1 H2). split.
  - exact (effects_preserve _ effect_completed _ _ H1 Hw).
  - exact (effects_preserve _ effect_completed _ _ H3 Hw).
Qed.

Lemma completed_has_handover_witness :
  completed_on_file (db initial_world)
  ∧ ∃ p h,
      patients (db (run one_transfer initial_world)) !! P1 = Some p
      ∧ Patient.status p = "Completed"
      ∧ h ∈ handover_forms (db (run one_transfer initial_world))
      ∧ on_file P1 p h.
Proof.
  assert (Hw : completed_on_file (db initial_world)).
  { intros pid p. by rewrite initial_patients, lookup_empty. }
  split; [exact Hw|].
  assert (Hp : ∃ p, patients (db (run one_transfer initial_world)) !! P1 = Some p
                    ∧ Patient.status p = "Completed")
    by (eexists; vm_compute; split; reflexivity).
  destruct Hp as (p & Hp & Hs).
  destruct (completed_has_handover one_transfer (λ _, []) A1 P1
              0%float 0%float 0%float 0%float initial_world Hw) as [H _].
  destruct (H P1 p Hp Hs) as (h & Hin & Hf).
  exists p, h. split; [exact Hp|]. split; [exact Hs|].
  split; [exact Hin|exact Hf].
Defined.

(** ** "Update" of the status *)

Lemma filter_rows_iff {V : Type} (f : string * V → bool)
    (m : gmap string V) (row : string * V) :
  row ∈ List.filter f (map_to_list m) ↔ m !! row.1 = Some row.2 ∧ f row = true.
Proof.
  split; [apply filter_rows_lookup|]. intros [? ?]. by apply filter_rows_elem.
Qed.

Lemma status_option_cases s :
  s ∈ ReferralUI.status_options →
  s = "Referred" ∨ s = "Ambulance Dispatched" ∨ s = "Patient Picked Up"
  ∨ s = "Transporting to Destination" ∨ s = "Arrived at Destination".
Proof.
  unfold ReferralUI.status_options. intros Hin.
  repeat (apply elem_of_cons in Hin as [->|Hin]; [tauto|]).
  by apply elem_of_nil in Hin.
Qed.

Lemma active_with_status db user_hospital pid p s d :
  (pid, p) ∈ ReferralUI.active_patients db user_hospital →
  patients d !! pid = Some (Patient.with_status s p) →
  (pid, Patient.with_status s p) ∈ ReferralUI.active_patients d user_hospital
  ↔ not_in s ReferralUI.closed_statuses = true.
Proof.
  unfold ReferralUI.active_patients, get_all_patients. intros Hin Hd.
  repeat case_match; apply filter_rows_lookup in Hin as [_ Hf];
    rewrite filter_rows_iff; cbn [fst snd] in *;
    cbn [Patient.status Patient.with_status Patient.receiving_hospital
         Patient.referring_hospital];
    try (apply andb_true_iff in Hf as [-> _]); cbn [andb]; tauto.
Qed.

Lemma eligible_with_status user_hospital pid p s d :
  patients d !! pid = Some (Patient.with_status s p) →
  (pid, Patient.with_status s p) ∈ HandoverUI.eligible_patients d user_hospital
  ↔ s = "Arrived at Destination" ∧ in_handover_scope user_hospital p.
Proof.
  unfold HandoverUI.eligible_patients, get_all_patients, in_handover_scope.
  intros Hd.
  destruct (String.eqb_spec user_hospital "All Facilities") as [->|Hne];
    rewrite filter_rows_iff; cbn [fst snd];
    cbn [Patient.status Patient.with_status Patient.receiving_hospital].
  - rewrite String.eqb_eq. tauto.
  - rewrite andb_true_iff, !String.eqb_eq. tauto.
Qed.

(** X19.  "Update" sets the status whatever the ambulances do.  For a
    listed patient and an entry of the status box, "Update" reports success
    and writes the chosen status on the patient, nothing else.  The patient
    stays listed on the referral page unless the status is 'Arrived at
    Destination'; with that status it becomes eligible for handover, for
    the administrator and the staff of its receiving hospital, although no
    ambulance has delivered it; and with the status 'Referred' it is
    offered to drivers as a mission if it has no ambulance on record. *)
Theorem status_update (db : Database) (user : User)
    (patient_choice status_choice : nat) (pid : string) (p : Patient.t)
    (s : string) :
  ReferralUI.active_patients db (hospital user) !! patient_choice
  = Some (pid, p) →
  ReferralUI.status_options !! status_choice = Some s →
  let r := ReferralUI.update_status db user patient_choice status_choice in
  let p' := Patient.with_status s p in
  r = (st_success "Status updated!", set_patients (insert pid p') db)
  ∧ ((pid, p') ∈ ReferralUI.active_patients r.2 (hospital user)
     ↔ s ≠ "Arrived at Destination")
  ∧ ((pid, p') ∈ HandoverUI.eligible_patients r.2 (hospital user)
     ↔ s = "Arrived at Destination" ∧ in_handover_scope (hospital user) p)
  ∧ ((pid, p') ∈ DriverUI.available_patients r.2
     ↔ s = "Referred" ∧ Patient.assigned_ambulance p = None).
Proof.
  intros Hpc Hsc r p'. subst r p'.
  assert (Hr : ReferralUI.update_status db user patient_choice status_choice
               = (st_success "Status updated!",
                  set_patients (insert pid (Patient.with_status s p)) db)).
  { unfold ReferralUI.update_status, selectbox. by rewrite Hpc, Hsc. }
  rewrite Hr. cbn [snd].
  assert (Hl : patients (set_patients (insert pid (Patient.with_status s p)) db)
               !! pid = Some (Patient.with_status s p)).
  { cbn. by rewrite lookup_insert_eq. }
  apply list_elem_of_lookup_2 in Hpc, Hsc.
  split; [reflexivity|]. split; [|split].
  - rewrite (active_with_status db _ _ _ _ _ Hpc Hl).
    apply status_option_cases in Hsc.
    destruct Hsc as [->|[->|[->|[->| ->]]]]; cbn; split; done.
  - by apply eligible_with_status.
  - unfold DriverUI.available_patients, get_all_patients.
    rewrite filter_rows_iff. cbn [fst snd].
    cbn [Patient.status Patient.with_status Patient.assigned_ambulance].
    rewrite andb_true_iff, String.eqb_eq.
    cbn [patients set_patients]. rewrite lookup_insert_eq.
    destruct (Patient.assigned_ambulance p); cbn; split.
    + intros (_ & _ & H). discriminate H.
    + intros (_ & H). discriminate H.
    + intros (_ & H & _). by split.
    + intros (H & _). by split.
Qed.

Lemma status_update_witness :
  ∃ p,
    ReferralUI.active_patients store_with_P1 (hospital admin) !! 0%nat
    = Some (P1, p)
    ∧ (P1, Patient.with_status "Arrived at Destination" p)
      ∈ HandoverUI.eligible_patients
          (ReferralUI.update_status store_with_P1 admin 0 4).2 (hospital admin)
    ∧ ambulances (ReferralUI.update_status store_with_P1 admin 0 4).2
      = ambulances (db initial_world).
Proof.
  assert (Hp : ∃ p,
             ReferralUI.active_patients store_with_P1 (hospital admin) !! 0%nat
             = Some (P1, p))
    by (eexists; vm_compute; reflexivity).
  destruct Hp as (p & Hp). exists p. split; [exact Hp|].
  destruct (status_update store_with_P1 admin 0 4 P1 p "Arrived at Destination"
              Hp eq_refl) as (Hr & _ & Hel & _).
  split.
  - apply Hel. split; [reflexivity|by left].
  - rewrite Hr. reflexivity.
Defined.
